(** * JsonSQL: a shallow embedding of [src/jsonsql/jsonsql.py]

    The Python class [JsonSQL] turns a JSON-shaped request into a SQL text
    with [?] placeholders and a tuple of bound parameters, under a whitelist
    policy.  This file embeds the class method by method and states the
    properties of the design document against the embedding.

    Conventions of the embedding.
    - Python values are the inductive [pyval]; a [dict] coming from JSON is an
      association list in insertion order (the code reads "the first key").
    - The policy dictionaries, which are only looked up, are [gmap]s.
    - A Python call either returns or raises: [py_result].
    - [sql_parse] assigns into the request it is given, so it runs in a small
      statement monad over a store holding [self] and the request.  Where
      the question is what that assignment can reach, the request's list
      may be one of the policy's own lists: [shared_store].
    - A [str] is a sequence of characters with code points below 256, one
      [ascii] each. *)

From Stdlib Require Import ZArith String Ascii List.
From stdpp Require Import base tactics option list strings pretty gmap.

Local Open Scope string_scope.
Local Open Scope list_scope.

(** ** Python values *)

(** The type objects that [allowed_columns] maps a column to
    ([str], [int], [float], [bool]). *)
Inductive pytype := Tstr | Tint | Tfloat | Tbool.

#[local] Set Warnings "-register-all".

(** A [float] is carried by its [repr]: the code never computes with
    numbers, it only tests their class and formats them. *)
Inductive pyval :=
| PNone
| PBool (b : bool)
| PInt (n : Z)
| PFloat (repr : string)
| PStr (s : string)
| PList (l : list pyval)
| PTuple (l : list pyval)
| PDict (d : list (string * pyval)).

Abbreviation dict := (list (string * pyval)).

Inductive exn := TypeError | KeyError | IndexError | AttributeError.

(** Outcome of a Python call. *)
Inductive py_result (A : Type) :=
| Return (a : A)
| Raise (e : exn).
Arguments Return {A} a.
Arguments Raise {A} e.

#[global] Instance py_result_ret : MRet py_result := @Return.
#[global] Instance py_result_bind : MBind py_result := fun A B f m =>
  match m with
  | Return a => f a
  | Raise e => Raise e
  end.

(** What [logic_parse] and [sql_parse] hand back: [(False, reason)],
    [(True, sql, params)] with [params] a tuple, or the implicit [None] of a
    function body that ends without [return]. *)
Inductive ret :=
| RFalse (reason : string)
| RTrue (sql : string) (params : list pyval)
| RNone.

(** ** Built-ins used by the class *)

Definition isinstance (value : pyval) (valuetype : pytype) : bool :=
  match valuetype, value with
  | Tstr, PStr _ => true
  | Tint, PInt _ => true
  | Tint, PBool _ => true          (* bool is a subclass of int *)
  | Tfloat, PFloat _ => true
  | Tbool, PBool _ => true
  | _, _ => false
  end.

Definition is_dict (v : pyval) : bool := if v is PDict _ then true else false.
Definition is_list (v : pyval) : bool := if v is PList _ then true else false.
Definition is_str (v : pyval) : bool := if v is PStr _ then true else false.

(** [type_repr t] is what an f-string prints for the class [t]. *)
Definition type_repr (t : pytype) : string :=
  match t with
  | Tstr => "<class 'str'>"
  | Tint => "<class 'int'>"
  | Tfloat => "<class 'float'>"
  | Tbool => "<class 'bool'>"
  end.

(** The characters of a [str], as one-character strings; an [ascii]
    stands for one character. *)
Fixpoint chars (s : string) : list string :=
  match s with
  | EmptyString => []
  | String a s' => String a EmptyString :: chars s'
  end.

(** [len(x)] *)
Definition py_len (x : pyval) : py_result nat :=
  match x with
  | PStr s => Return (String.length s)
  | PList l | PTuple l => Return (length l)
  | PDict d => Return (length d)
  | _ => Raise TypeError
  end.

(** [list(x)], also [tuple(x)]: the elements [x] iterates over. *)
Definition py_list (x : pyval) : py_result (list pyval) :=
  match x with
  | PStr s => Return (PStr <$> chars s)
  | PList l | PTuple l => Return l
  | PDict d => Return ((fun kv => PStr kv.1) <$> d)
  | _ => Raise TypeError
  end.

(** [list(x)[0]] *)
Definition py_first (x : pyval) : py_result pyval :=
  l ← py_list x;
  match l with
  | [] => Raise IndexError
  | v :: _ => Return v
  end.

(** [d[k]] and [k in d] on a JSON object. *)
Fixpoint dict_get (d : dict) (k : string) : option pyval :=
  match d with
  | [] => None
  | (k', v) :: d' => if decide (k' = k) then Some v else dict_get d' k
  end.

Definition dict_has (d : dict) (k : string) : bool :=
  if dict_get d k is Some _ then true else false.

(** A [list] or a [dict] has no hash, nor has a [tuple] that holds one. *)
Fixpoint hashable (v : pyval) : bool :=
  match v with
  | PList _ | PDict _ => false
  | PTuple l => forallb hashable l
  | _ => true
  end.

(** [l[i]] on a sequence, a negative [i] counting from the end. *)
Definition seq_index (l : list pyval) (i : Z) : py_result pyval :=
  let n := Z.of_nat (length l) in
  let i' := if decide (i < 0)%Z then (i + n)%Z else i in
  if decide (0 ≤ i' < n)%Z then
    match l !! Z.to_nat i' with
    | Some v => Return v
    | None => Raise IndexError
    end
  else Raise IndexError.

(** [x[k]]: a [dict] is looked up by key, a sequence by an integer index
    and refuses any other, a scalar is not subscriptable. *)
Definition py_getitem (x : pyval) (k : pyval) : py_result pyval :=
  match x with
  | PDict d =>
      match k with
      | PStr s =>
          match dict_get d s with
          | Some v => Return v
          | None => Raise KeyError
          end
      | _ => if hashable k then Raise KeyError else Raise TypeError
      end
  | PList l | PTuple l =>
      match k with
      | PInt i => seq_index l i
      | PBool b => seq_index l (if b then 1 else 0)
      | _ => Raise TypeError
      end
  | PStr s =>
      match k with
      | PInt i => seq_index (PStr <$> chars s) i
      | PBool b => seq_index (PStr <$> chars s) (if b then 1 else 0)
      | _ => Raise TypeError
      end
  | _ => Raise TypeError
  end.

(** [v in seq] where [seq] holds strings only: [==] between a [str] and a
    value of another class is [False]. *)
Definition py_in (v : pyval) (seq : list string) : bool :=
  match v with
  | PStr s => bool_decide (s ∈ seq)
  | _ => false
  end.

(** [v in columns] for a per-table column list, whose entries are names or
    the [None] that the constructor stores for a bare table name. *)
Definition py_in_columns (v : pyval) (columns : list (option string)) : bool :=
  match v with
  | PStr s => bool_decide (Some s ∈ columns)
  | PNone => bool_decide (None ∈ columns)
  | _ => false
  end.

(** *** Formatting, [str(v)] and [repr(v)] *)

Definition hex_digit (n : nat) : string :=
  String (nth n (list_ascii_of_string "0123456789abcdef") "0"%char) "".

Definition repr_char (quote : ascii) (a : ascii) : string :=
  let n := nat_of_ascii a in
  if decide (a = "\"%char) then "\\"
  else if decide (a = quote) then String "\"%char (String quote "")
  else if decide (n = 10) then "\n"
  else if decide (n = 13) then "\r"
  else if decide (n = 9) then "\t"
  else if decide (n < 32 ∨ (127 ≤ n ∧ n ≤ 160) ∨ n = 173)%nat
       then "\x" +:+ hex_digit (n / 16) +:+ hex_digit (n mod 16)
  else String a "".

Definition has_char (a : ascii) (s : string) : bool :=
  bool_decide (a ∈ list_ascii_of_string s).

(** [repr] of a [str]: single quotes, unless the text has a single quote and
    no double quote.  A character is a code point below 256; [repr_char]
    escapes the ones that are not printable, which are the controls below
    32, U+007F to U+00A0 and U+00AD. *)
Definition str_repr (s : string) : string :=
  let quote :=
    if has_char "'"%char s && negb (has_char "034"%char s) then "034"%char else "'"%char in
  String quote (String.concat "" (repr_char quote <$> list_ascii_of_string s))
    +:+ String quote "".

Fixpoint py_repr (v : pyval) : string :=
  match v with
  | PNone => "None"
  | PBool true => "True"
  | PBool false => "False"
  | PInt n => pretty n
  | PFloat r => r
  | PStr s => str_repr s
  | PList l => "[" +:+ String.concat ", " (map py_repr l) +:+ "]"
  | PTuple l =>
      match l with
      | [x] => "(" +:+ py_repr x +:+ ",)"
      | _ => "(" +:+ String.concat ", " (map py_repr l) +:+ ")"
      end
  | PDict d =>
      "{" +:+ String.concat ", "
                (map (fun kv => let '(k, x) := kv in str_repr k +:+ ": " +:+ py_repr x) d)
          +:+ "}"
  end.

(** What an f-string field [{v}] prints. *)
Definition py_str (v : pyval) : string :=
  match v with
  | PStr s => s
  | _ => py_repr v
  end.

(** [s.upper()] on ASCII letters. *)
Definition upper_char (a : ascii) : ascii :=
  let n := nat_of_ascii a in
  if decide (97 ≤ n ∧ n ≤ 122)%nat then ascii_of_nat (n - 32) else a.

Fixpoint upper (s : string) : string :=
  match s with
  | EmptyString => EmptyString
  | String a s' => String (upper_char a) (upper s')
  end.

Definition py_eq_str (v : pyval) (s : string) : bool :=
  match v with
  | PStr s' => bool_decide (s' = s)
  | _ => false
  end.

(** ** The policy object *)

Record JsonSQL := {
  ALLOWED_QUERIES : list string;
  ALLOWED_ITEMS : list string;
  ALLOWED_TABLES : gmap string (list (option string));
  ALLOWED_CONNECTIONS : list string;
  ALLOWED_COLUMNS : gmap string pytype;
  LOGICAL : list string;
  COMPARISON : list string;
  SPECIAL_COMPARISON : list string;
  AGGREGATES : list string;
}.

(** An entry of [allowed_tables]: a bare table name, or a one-key mapping
    from the table name to its list of permitted columns. *)
Inductive table_entry :=
| TableName (table : string)
| TableColumns (table : string) (columns : list string).

Definition __init__ (allowed_queries allowed_items : list string)
    (allowed_tables : list table_entry) (allowed_connections : list string)
    (allowed_columns : gmap string pytype) : JsonSQL :=
  let table_dict :=
    foldl (fun (table_dict : gmap string (list (option string))) table =>
             match table with
             | TableColumns name columns => <[name := Some <$> columns]> table_dict
             | TableName name => <[name := [None]]> table_dict
             end) ∅ allowed_tables in
  {| ALLOWED_QUERIES := allowed_queries;
     ALLOWED_ITEMS := allowed_items;
     ALLOWED_TABLES := table_dict;
     ALLOWED_CONNECTIONS := allowed_connections;
     ALLOWED_COLUMNS := allowed_columns;
     LOGICAL := ["AND"; "OR"];
     COMPARISON := ["="; ">"; "<"; ">="; "<="; "<>"; "!="];
     SPECIAL_COMPARISON := ["BETWEEN"; "IN"];
     AGGREGATES := ["MIN"; "MAX"; "SUM"; "AVG"; "COUNT"] |}.

(** ** Predicate validators *)

Section Validators.
Variable self : JsonSQL.

(** [value in self.ALLOWED_COLUMNS]; the [TypeError] of an unhashable
    [value] is caught and answered [False]. *)
Definition is_another_column (value : pyval) : bool :=
  match value with
  | PStr s => bool_decide (is_Some (ALLOWED_COLUMNS self !! s))
  | _ => false
  end.

Definition is_valid_aggregate (aggregate : pyval) : py_result bool :=
  if negb (is_dict aggregate) then Return false
  else
    operation ← py_first aggregate;
    value ← py_getitem aggregate operation;
    if negb (py_in operation (AGGREGATES self)) then Return false
    else Return (is_another_column value).

Definition is_valid_value (value : pyval) (valuetype : pytype) : py_result bool :=
  if is_dict value then is_valid_aggregate value
  else if negb (is_list value) && is_another_column value then Return true
  else Return (isinstance value valuetype).

(** The inner helper of [is_special_comparison]: stops at the first entry
    that is not valid. *)
Fixpoint all_values_allowed (value : list pyval) (valuetype : pytype)
    : py_result bool :=
  match value with
  | [] => Return true
  | entry :: value' =>
      ok ← is_valid_value entry valuetype;
      if negb ok then Return false else all_values_allowed value' valuetype
  end.

Definition is_special_comparison (comparator value : pyval) (valuetype : pytype)
    : py_result bool :=
  match value with
  | PList l =>
      ok ← all_values_allowed l valuetype;
      if negb ok then Return false
      else if py_eq_str comparator "BETWEEN" && bool_decide (length l = 2) then Return true
      else if py_eq_str comparator "IN" && bool_decide (0 < length l) then Return true
      else Return false
  | _ => Return false
  end.

(** [self.ALLOWED_COLUMNS[column]] *)
Definition column_type (column : string) : py_result pytype :=
  match ALLOWED_COLUMNS self !! column with
  | Some t => Return t
  | None => Raise KeyError
  end.

Definition is_valid_comparison (column : string) (comparison : pyval)
    : py_result bool :=
  comparator ← py_first comparison;
  if negb (py_in comparator (COMPARISON self))
     && negb (py_in comparator (SPECIAL_COMPARISON self))
  then Return false
  else
    value ← py_getitem comparison comparator;
    valuetype ← column_type column;
    ok ← is_valid_value value valuetype;
    if (ok : bool) then Return true
    else
      special ← is_special_comparison comparator value valuetype;
      if (special : bool) then Return true else Return false.

Definition get_sql_comparator (comparator : pyval) : pyval :=
  if negb (py_eq_str comparator "!=") then comparator else PStr "<>".

Definition is_value_in_allowed_categories (value : string) : bool :=
  bool_decide (is_Some (ALLOWED_COLUMNS self !! value))
  || bool_decide (value ∈ LOGICAL self)
  || bool_decide (value ∈ SPECIAL_COMPARISON self)
  || bool_decide (value ∈ COMPARISON self).

(** ** Logic compiler *)

(** [",".join(["?" for _ in range(n)])], or ["?"] when [n == 1]. *)
Definition placeholders (num_placeholders : nat) : string :=
  if decide (num_placeholders = 1) then "?"
  else String.concat "," (replicate num_placeholders "?").

(** The body of [if self.is_valid_comparison(value, json_input[value])] in
    [logic_parse]; [body] is [json_input[value]].  Every path reads
    [json_input[value][comparator]] before it can return, in the first
    test when the comparator is a simple one and in the aggregate test
    otherwise, so the read is done once up front. *)
Definition compile_comparison (value : string) (body : pyval) : py_result ret :=
  comparator ← py_first body;
  let adjusted_comparator := get_sql_comparator comparator in
  operand ← py_getitem body comparator;
  if py_in comparator (COMPARISON self)
     && negb (is_another_column operand) && negb (is_dict operand)
  then
    Return (RTrue (value +:+ " " +:+ py_str adjusted_comparator +:+ " ?")
                  (if operand is PTuple t then t else [operand]))
  else if py_in comparator (COMPARISON self) && is_another_column operand
  then
    Return (RTrue (value +:+ " " +:+ py_str adjusted_comparator +:+ " "
                     +:+ py_str operand) [])
  else
    aggregate_function ← py_first operand;
    if py_in aggregate_function (AGGREGATES self) then
      aggregate_argument ← py_getitem operand aggregate_function;
      Return (RTrue (value +:+ " " +:+ py_str adjusted_comparator +:+ " "
                       +:+ py_str aggregate_function
                       +:+ "(" +:+ py_str aggregate_argument +:+ ")") [])
    else if py_in comparator (SPECIAL_COMPARISON self) then
      if py_eq_str comparator "BETWEEN" then
        params ← py_list operand;
        Return (RTrue (value +:+ " BETWEEN ? AND ?") params)
      else if py_eq_str comparator "IN" then
        num_placeholders ← py_len operand;
        params ← py_list operand;
        Return (RTrue (value +:+ " IN (" +:+ placeholders num_placeholders +:+ ")")
                      params)
      else Return (RFalse ("Comparitor Error - " +:+ py_str comparator))
    else Return (RFalse ("Comparitor Error - " +:+ py_str comparator)).

(** The rejection taken when the first key is a column whose comparison
    is not valid. *)
Definition bad_comparison (value : string) (body : pyval) : py_result ret :=
  let bad :=
    valuetype ← column_type value;
    Return (RFalse ("Bad " +:+ value +:+ ", non " +:+ type_repr valuetype)) in
  if is_dict body then
    value0 ← py_first body;
    if negb (py_in value0 (COMPARISON self))
       && negb (py_in value0 (SPECIAL_COMPARISON self))
    then Return (RFalse ("Non Valid comparitor - " +:+ py_str value0))
    else bad
  else bad.
End Validators.

(** The [for case in json_input[value]] loop of a logical node: compile the
    children in order and stop at the first one that is not a success.
    [inl] carries that child's result ([safe]), [inr] the collected
    [(text, params)] pairs ([data]).  Testing [evaluation[0]] on [None]
    raises. *)
Section Cases.
Variable parse : pyval → py_result ret.

Fixpoint parse_cases (cases : list pyval)
    : py_result (ret + list (string * list pyval)) :=
  match cases with
  | [] => Return (inr [])
  | case :: cases' =>
      evaluation ← parse case;
      match evaluation with
      | RNone => Raise TypeError
      | RFalse reason => Return (inl (RFalse reason))
      | RTrue sql params =>
          rest ← parse_cases cases';
          match rest with
          | inl safe => Return (inl safe)
          | inr data => Return (inr ((sql, params) :: data))
          end
      end
  end.
End Cases.

(** The text and the flattened parameters of a logical node, from the
    children's [data]. *)
Definition join_cases (value : string) (data : list (string * list pyval)) : ret :=
  let params := concat (snd <$> data) in
  let output := fst <$> data in
  RTrue ("(" +:+ String.concat (" " +:+ upper value +:+ " ") output +:+ ")") params.

(** The body of [logic_parse] once the first key [value] has been read;
    [body] is [json_input[value]] and [parse] is the recursive call. *)
Definition parse_node (self : JsonSQL) (parse : pyval → py_result ret)
    (value : string) (body : pyval) : py_result ret :=
  let in_logical := bool_decide (value ∈ LOGICAL self) in
  let in_columns := bool_decide (is_Some (ALLOWED_COLUMNS self !! value)) in
  if negb (is_value_in_allowed_categories self value) then
    Return (RFalse ("Invalid Input - " +:+ value))
  else if in_logical && negb (is_list body) then
    Return (RFalse ("Bad " +:+ value +:+ ", non list"))
  else
    invalid ← (if in_columns
               then ok ← is_valid_comparison self value body; Return (negb ok)
               else Return false);
    if (invalid : bool) then bad_comparison self value body
    else
      ok ← is_valid_comparison self value body;
      if (ok : bool) then compile_comparison self value body
      else if in_logical then
        match body with
        | PList children =>
            if decide (length children < 2) then
              Return (RFalse "Invalid boolean length, must be >= 2")
            else
              evaluations ← parse_cases parse children;
              match evaluations with
              | inl safe => Return safe
              | inr data => Return (join_cases value data)
              end
        | _ => Return RNone
        end
      else Return RNone.

(** [json_input[value]] for [value = list(json_input.keys())[0]] is the
    entry stored first. *)
Fixpoint logic_parse (self : JsonSQL) (json_input : pyval) {struct json_input}
    : py_result ret :=
  n ← py_len json_input;
  if decide (n = 0) then Return (RFalse "Nothing To Compute")
  else
    match json_input with
    | PDict ((value, body) :: _) => parse_node self (logic_parse self) value body
    | _ => Raise AttributeError      (* [.keys()] of a str, list or tuple *)
    end.

(** ** Statements over the store

    [sql_parse] is the one method with an assignment to an object it does
    not own ([json_input["items"][index] = ...]).  Its body is a sequence of
    statements over a store that holds the two objects a call can reach:
    the instance [self] and the request [json_input].  A statement goes on
    to the next one, executes [return], or raises. *)

Record store := Store {
  st_self : JsonSQL;
  st_json_input : dict;
}.

Inductive flow (A : Type) :=
| Next (a : A)
| Returned (r : ret)
| Raised (e : exn).
Arguments Next {A} a.
Arguments Returned {A} r.
Arguments Raised {A} e.

Definition stmt (A : Type) : Type := store → flow A * store.

#[global] Instance stmt_ret : MRet stmt := fun A a st => (Next a, st).
#[global] Instance stmt_bind : MBind stmt := fun A B f m st =>
  match m st with
  | (Next a, st') => f a st'
  | (Returned r, st') => (Returned r, st')
  | (Raised e, st') => (Raised e, st')
  end.

Definition get_self : stmt JsonSQL := fun st => (Next (st_self st), st).
Definition get_json_input : stmt dict := fun st => (Next (st_json_input st), st).
Definition return_ {A} (r : ret) : stmt A := fun st => (Returned r, st).

(** Evaluation of an expression that reads no more than it is given. *)
Definition eval {A} (m : py_result A) : stmt A := fun st =>
  match m with
  | Return a => (Next a, st)
  | Raise e => (Raised e, st)
  end.

(** A call: falling off the end of the body returns [None]. *)
Definition call (body : stmt unit) (st : store) : py_result ret * store :=
  match body st with
  | (Next _, st') => (Return RNone, st')
  | (Returned r, st') => (Return r, st')
  | (Raised e, st') => (Raise e, st')
  end.

(** [d[k] = v]: the entry is replaced where it stands, a new key goes to
    the end. *)
Fixpoint dict_set (d : dict) (k : string) (v : pyval) : dict :=
  match d with
  | [] => [(k, v)]
  | (k', v') :: d' =>
      if decide (k' = k) then (k', v) :: d' else (k', v') :: dict_set d' k v
  end.

(** [json_input["items"][index] = v]: the list object held under ["items"]
    is updated in place, so the request the caller holds sees the change. *)
Definition setitem_items (index : nat) (v : pyval) : stmt unit := fun st =>
  match dict_get (st_json_input st) "items" with
  | Some (PList items) =>
      if decide (index < length items) then
        (Next (),
         {| st_self := st_self st;
            st_json_input :=
              dict_set (st_json_input st) "items" (PList (<[index := v]> items)) |})
      else (Raised IndexError, st)
  | Some _ => (Raised TypeError, st)
  | None => (Raised KeyError, st)
  end.

(** ** Query compiler *)

(** The classes named in [required_inputs]. *)
Inductive pyclass := ClassStr | ClassList.

Definition isinstance_class (v : pyval) (c : pyclass) : bool :=
  match c with
  | ClassStr => is_str v
  | ClassList => is_list v
  end.

Definition class_repr (c : pyclass) : string :=
  match c with
  | ClassStr => "<class 'str'>"
  | ClassList => "<class 'list'>"
  end.

Definition required_inputs : list (string * pyclass) :=
  [("query", ClassStr); ("items", ClassList); ("table", ClassStr)].

(** [sep.join(l)] refuses an entry that is not a [str]. *)
Fixpoint py_join_strs (l : list pyval) : py_result (list string) :=
  match l with
  | [] => Return []
  | PStr s :: l' => ss ← py_join_strs l'; Return (s :: ss)
  | _ :: _ => Raise TypeError
  end.

Definition py_join (sep : string) (l : pyval) : py_result string :=
  elems ← py_list l;
  ss ← py_join_strs elems;
  Return (String.concat sep ss).

(** [self.ALLOWED_TABLES[table]] *)
Definition table_columns (self : JsonSQL) (table : pyval)
    : py_result (list (option string)) :=
  match table with
  | PStr t =>
      match ALLOWED_TABLES self !! t with
      | Some columns => Return columns
      | None => Raise KeyError
      end
  | _ => if hashable table then Raise KeyError else Raise TypeError
  end.

(** [x in self.ALLOWED_ITEMS or x in self.ALLOWED_TABLES[json_input["table"]]] *)
Definition item_allowed (x : pyval) : stmt bool :=
  self ← get_self;
  json_input ← get_json_input;
  if py_in x (ALLOWED_ITEMS self) then mret true
  else
    table ← eval (py_getitem (PDict json_input) (PStr "table"));
    columns ← eval (table_columns self table);
    mret (py_in_columns x columns).

Fixpoint check_required (inputs : list (string * pyclass)) : stmt unit :=
  match inputs with
  | [] => mret ()
  | (input_name, expected_type) :: inputs' =>
      json_input ← get_json_input;
      if negb (dict_has json_input input_name) then
        return_ (RFalse ("Missing argument " +:+ input_name))
      else
        v ← eval (py_getitem (PDict json_input) (PStr input_name));
        if negb (isinstance_class v expected_type) then
          return_ (RFalse (input_name +:+ " not right type, expected "
                             +:+ class_repr expected_type))
        else check_required inputs'
  end.

(** [isinstance(item, dict) and list(item)[0] in self.AGGREGATES] *)
Definition is_aggregate_item (self : JsonSQL) (item : pyval) : py_result bool :=
  if is_dict item then
    first ← py_first item;
    Return (py_in first (AGGREGATES self))
  else Return false.

(** One turn of [for index, item in enumerate(json_input["items"])]. *)
Definition check_item (index : nat) (item : pyval) : stmt unit :=
  self ← get_self;
  allowed ← item_allowed item;
  if (allowed : bool) then mret ()
  else
    is_aggregate ← eval (is_aggregate_item self item);
    if (is_aggregate : bool) then
      aggregate_function ← eval (py_first item);
      aggregate_argument ← eval (py_getitem item aggregate_function);
      argument_allowed ← item_allowed aggregate_argument;
      if (argument_allowed : bool) then
        setitem_items index
          (PStr (py_str aggregate_function +:+ "(" +:+ py_str aggregate_argument +:+ ")"))
      else return_ (RFalse ("Item not allowed - " +:+ py_str aggregate_argument))
    else return_ (RFalse ("Item not allowed - " +:+ py_str item)).

(** The iteration runs over the entries as they were when it began: an
    entry is only ever overwritten at the index the loop is at, after it
    was read. *)
Fixpoint check_items (index : nat) (items : list pyval) : stmt unit :=
  match items with
  | [] => mret ()
  | item :: items' => check_item index item;; check_items (S index) items'
  end.

Definition check_query_table : stmt unit :=
  self ← get_self;
  json_input ← get_json_input;
  query ← eval (py_getitem (PDict json_input) (PStr "query"));
  if negb (py_in query (ALLOWED_QUERIES self)) then
    return_ (RFalse ("Query not allowed - " +:+ py_str query))
  else
    table ← eval (py_getitem (PDict json_input) (PStr "table"));
    if negb (if table is PStr t
             then bool_decide (is_Some (ALLOWED_TABLES self !! t)) else false) then
      return_ (RFalse ("Table not allowed - " +:+ py_str table))
    else mret ().

Definition check_all_items : stmt unit :=
  json_input ← get_json_input;
  items ← eval (py_getitem (PDict json_input) (PStr "items"));
  entries ← eval (py_list items);
  check_items 0 entries.

Definition check_connection : stmt unit :=
  self ← get_self;
  json_input ← get_json_input;
  if dict_has json_input "connection" then
    connection ← eval (py_getitem (PDict json_input) (PStr "connection"));
    if negb (py_in connection (ALLOWED_CONNECTIONS self)) then
      return_ (RFalse ("Connection not allowed - " +:+ py_str connection))
    else mret ()
  else mret ().

(** From [sql_string = ...] to the end of the method. *)
Definition assemble : stmt unit :=
  self ← get_self;
  json_input ← get_json_input;
  query ← eval (py_getitem (PDict json_input) (PStr "query"));
  items ← eval (py_getitem (PDict json_input) (PStr "items"));
  joined ← eval (py_join "," items);
  table ← eval (py_getitem (PDict json_input) (PStr "table"));
  let sql_string := py_str query +:+ " " +:+ joined +:+ " FROM " +:+ py_str table in
  if dict_has json_input "logic" then
    logic ← eval (py_getitem (PDict json_input) (PStr "logic"));
    logic_string ← eval (logic_parse self logic);
    match logic_string with
    | RNone => eval (Raise TypeError)           (* [None[0]] *)
    | RFalse reason => return_ (RFalse ("Logic Fail - " +:+ reason))
    | RTrue sql params =>
        connection ← eval (py_getitem (PDict json_input) (PStr "connection"));
        return_ (RTrue (sql_string +:+ " " +:+ py_str connection +:+ " " +:+ sql) params)
    end
  else return_ (RTrue sql_string []).

Definition sql_parse_body : stmt unit :=
  check_required required_inputs;;
  check_query_table;;
  check_all_items;;
  check_connection;;
  assemble.

Definition sql_parse : store → py_result ret * store := call sql_parse_body.

(** ** Vocabulary of the properties *)

(** Number of [?] characters of a SQL text. *)
Fixpoint count_placeholders (sql : string) : nat :=
  match sql with
  | EmptyString => 0
  | String a sql' =>
      (if decide (a = "?"%char) then 1 else 0) + count_placeholders sql'
  end.

Definition substring_of (needle text : string) : Prop :=
  ∃ before after, text = before +:+ needle +:+ after.

(** [{column: {comparator: operand}}] *)
Definition comparison_node (column comparator : string) (operand : pyval) : pyval :=
  PDict [(column, PDict [(comparator, operand)])].

(** [{connector: children}] *)
Definition logical_node (connector : string) (children : list pyval) : pyval :=
  PDict [(connector, PList children)].

(** The policy and the request of Scenario A. *)
Definition scenario_columns : gmap string pytype :=
  <["creature" := Tstr]> (<["userID" := Tint]> ∅).

Definition scenario_policy : JsonSQL :=
  __init__ ["SELECT"] ["*"] [TableColumns "images" []] ["WHERE"] scenario_columns.

Definition scenario_logic : pyval :=
  logical_node "AND"
    [comparison_node "creature" "=" (PStr "owlbear");
     logical_node "OR"
       [comparison_node "userID" "=" (PInt 555);
        comparison_node "userID" "=" (PInt 111)]].

Definition scenario_request : dict :=
  [("query", PStr "SELECT"); ("items", PList [PStr "*"]); ("table", PStr "images");
   ("connection", PStr "WHERE"); ("logic", scenario_logic)].

(** A request with the three required fields only. *)
Definition select_request (query : string) (items : list pyval) (table : string) : dict :=
  [("query", PStr query); ("items", PList items); ("table", PStr table)].

(** The comparator as it is printed: [get_sql_comparator] on a [str]. *)
Definition sql_comparator (comparator : string) : string :=
  if decide (comparator = "!=") then "<>" else comparator.

(** The texts a successful [logic_parse] can produce: every piece is a key
    of [ALLOWED_COLUMNS], a comparator or aggregate tag of the fixed
    vocabularies, a connector, or fixed punctuation with [?] marks. *)
Inductive whitelisted_logic (self : JsonSQL) : string → Prop :=
| wl_placeholder column comparator :
    is_Some (ALLOWED_COLUMNS self !! column) →
    comparator ∈ COMPARISON self →
    whitelisted_logic self (column +:+ " " +:+ sql_comparator comparator +:+ " ?")
| wl_column column comparator other :
    is_Some (ALLOWED_COLUMNS self !! column) →
    comparator ∈ COMPARISON self →
    is_Some (ALLOWED_COLUMNS self !! other) →
    whitelisted_logic self
      (column +:+ " " +:+ sql_comparator comparator +:+ " " +:+ other)
| wl_aggregate column comparator aggregate_function aggregate_argument :
    is_Some (ALLOWED_COLUMNS self !! column) →
    comparator ∈ COMPARISON self ++ SPECIAL_COMPARISON self →
    aggregate_function ∈ AGGREGATES self →
    is_Some (ALLOWED_COLUMNS self !! aggregate_argument) →
    whitelisted_logic self
      (column +:+ " " +:+ sql_comparator comparator +:+ " " +:+ aggregate_function
         +:+ "(" +:+ aggregate_argument +:+ ")")
| wl_between column :
    is_Some (ALLOWED_COLUMNS self !! column) →
    whitelisted_logic self (column +:+ " BETWEEN ? AND ?")
| wl_in column num_placeholders :
    is_Some (ALLOWED_COLUMNS self !! column) →
    whitelisted_logic self (column +:+ " IN (" +:+ placeholders num_placeholders +:+ ")")
| wl_logical connector texts :
    connector ∈ LOGICAL self →
    Forall (whitelisted_logic self) texts →
    whitelisted_logic self
      ("(" +:+ String.concat (" " +:+ upper connector +:+ " ") texts +:+ ")").

(** [x in self.ALLOWED_ITEMS or x in self.ALLOWED_TABLES[table]] as a
    proposition. *)
Definition permitted (self : JsonSQL) (table : string) (x : pyval) : Prop :=
  py_in x (ALLOWED_ITEMS self) = true
  ∨ ∃ columns, ALLOWED_TABLES self !! table = Some columns
               ∧ py_in_columns x columns = true.

(** [item'] is the rendered form ["FUNC(argument)"] of the aggregate
    node [item]. *)
Definition rendered (self : JsonSQL) (table : string) (item item' : pyval) : Prop :=
  is_dict item = true
  ∧ ∃ aggregate_function aggregate_argument,
      aggregate_function ∈ AGGREGATES self
      ∧ permitted self table aggregate_argument
      ∧ item' = PStr (aggregate_function +:+ "(" +:+ py_str aggregate_argument +:+ ")").

(** What the items loop may leave at an index of the list: the entry
    itself, or the rendered form of an aggregate node. *)
Definition rewritten (self : JsonSQL) (table : string) (item item' : pyval) : Prop :=
  item' = item ∨ rendered self table item item'.

(** What it leaves at an index it has accepted. *)
Definition accepted (self : JsonSQL) (table : string) (item item' : pyval) : Prop :=
  (permitted self table item ∧ item' = item) ∨ rendered self table item item'.

(** What the items loop leaves at an index it has accepted, with the
    aggregate function and the argument read from the entry. *)
Definition leaves (self : JsonSQL) (table : string) (item item' : pyval) : Prop :=
  (permitted self table item ∧ item' = item)
  ∨ ∃ aggregate_function aggregate_argument more,
      item = PDict ((aggregate_function, aggregate_argument) :: more)
      ∧ aggregate_function ∈ AGGREGATES self
      ∧ permitted self table aggregate_argument
      ∧ item' = PStr (aggregate_function +:+ "(" +:+ py_str aggregate_argument +:+ ")").

(** A name that the items check lets through for [table]: an entry of
    [ALLOWED_ITEMS], or a column listed for the table. *)
Definition listed (self : JsonSQL) (table name : string) : Prop :=
  name ∈ ALLOWED_ITEMS self
  ∨ ∃ columns, ALLOWED_TABLES self !! table = Some columns ∧ Some name ∈ columns.

(** An item as the text names it: a listed name, or an aggregate function
    over a listed name. *)
Definition whitelisted_item (self : JsonSQL) (table text : string) : Prop :=
  listed self table text
  ∨ ∃ aggregate_function name,
      aggregate_function ∈ AGGREGATES self
      ∧ listed self table name
      ∧ text = aggregate_function +:+ "(" +:+ name +:+ ")".

(** The texts of a successful [sql_parse] that are made of whitelisted
    identifiers only. *)
Definition whitelisted_query (self : JsonSQL) (sql : string) : Prop :=
  ∃ query table (texts : list string),
    query ∈ ALLOWED_QUERIES self
    ∧ is_Some (ALLOWED_TABLES self !! table)
    ∧ Forall (whitelisted_item self table) texts
    ∧ let sql_string :=
        query +:+ " " +:+ String.concat "," texts +:+ " FROM " +:+ table in
      sql = sql_string
      ∨ ∃ connection logic,
          connection ∈ ALLOWED_CONNECTIONS self
          ∧ whitelisted_logic self logic
          ∧ sql = sql_string +:+ " " +:+ connection +:+ " " +:+ logic.

(** An aggregate node over [null]: [{"MAX": null}]. *)
Definition null_aggregate (item : pyval) : bool :=
  match item with
  | PDict ((_, PNone) :: _) => true
  | _ => false
  end.

(** The literal operands of a logic tree, in reading order.  A comparison
    is read at its first comparator: an operand that is an object (an
    aggregate), and under a simple comparator an operand that names a
    column, is an identifier and no literal; any other operand of a simple
    comparator is one literal; under a special comparator the entries of
    the operand list are the literals.  A connector has the literals of
    its children, in order. *)
Fixpoint literal_operands (self : JsonSQL) (json_input : pyval) : list pyval :=
  match json_input with
  | PDict ((_, PList children) :: _) => concat (map (literal_operands self) children)
  | PDict ((_, PDict ((comparator, operand) :: _)) :: _) =>
      if is_dict operand then []
      else if bool_decide (comparator ∈ COMPARISON self) then
        if is_another_column self operand then [] else [operand]
      else if operand is PList l then l else [operand]
  | _ => []
  end.

(** No comparison that is read has a [str] operand under a special
    comparator. *)
Fixpoint no_special_str (self : JsonSQL) (json_input : pyval) : bool :=
  match json_input with
  | PDict ((_, PList children) :: _) => forallb (no_special_str self) children
  | PDict ((_, PDict ((comparator, PStr _) :: _)) :: _) =>
      bool_decide (comparator ∈ COMPARISON self)
  | _ => true
  end.

(** A policy whose items include a column, and a request with an
    aggregate node over it. *)
Definition aggregate_policy : JsonSQL :=
  __init__ ["SELECT"] ["*"; "userID"] [TableName "images"] ["WHERE"] scenario_columns.

Definition aggregate_request : dict :=
  select_request "SELECT" [PDict [("MAX", PStr "userID")]] "images".

(** The policy of Scenario A with the table given as a bare name. *)
Definition bare_table_policy : JsonSQL :=
  __init__ ["SELECT"] ["*"] [TableName "images"] ["WHERE"] scenario_columns.

(** A policy that declares a column named like a connector. *)
Definition keyword_policy : JsonSQL :=
  __init__ ["SELECT"] ["*"] [TableName "images"] ["WHERE"] (<["AND" := Tstr]> ∅).

(** An outcome that is not a success: a returned failure or an
    exception. *)
Definition no_success {A} (o : flow A) : Prop :=
  match o with
  | Next _ => False
  | Returned (RFalse _) => True
  | Returned _ => False
  | Raised _ => True
  end.

(** Introduces the run of a statement that ends in [mret], [return_] or
    [eval] and identifies its result and store. *)
Ltac stmt_done :=
  let H := fresh in
  intros H; unfold mret, stmt_ret, return_, eval in H; simplify_eq.

(** ** Further code of the class *)

(** [make_aggregate(aggregate, param)]: the rendered aggregate and its
    argument. *)
Definition make_aggregate (aggregate : pyval) (param : bool)
    : py_result (string * pyval) :=
  aggregate_function ← py_first aggregate;
  aggregate_argument ← py_getitem aggregate aggregate_function;
  let aggregate_string :=
    py_str aggregate_function +:+ "("
      +:+ (if negb param then py_str aggregate_argument else "?") +:+ ")" in
  Return (aggregate_string, aggregate_argument).

(** One turn of the loop of [__init__] over [allowed_tables], on entries as
    Python hands them over.  An object whose first value is not a list
    reaches [allowed_tables[table]], a list indexed by an object, which
    raises [TypeError] before the [raise] of that branch. *)
Definition normalize_table (table_dict : gmap string (list pyval)) (table : pyval)
    : py_result (gmap string (list pyval)) :=
  match table with
  | PDict d =>
      name ← py_first table;
      columns ← py_getitem table name;
      match name, columns with
      | PStr name, PList columns => Return (<[name := columns]> table_dict)
      | _, _ => Raise TypeError
      end
  | PStr name => Return (<[name := [PNone]]> table_dict)
  | _ => Raise TypeError
  end.

Fixpoint normalize_tables (table_dict : gmap string (list pyval))
    (allowed_tables : list pyval) : py_result (gmap string (list pyval)) :=
  match allowed_tables with
  | [] => Return table_dict
  | table :: allowed_tables' =>
      table_dict' ← normalize_table table_dict table;
      normalize_tables table_dict' allowed_tables'
  end.

(** The Python value of a typed table entry and of a stored column. *)
Definition table_entry_value (table : table_entry) : pyval :=
  match table with
  | TableName name => PStr name
  | TableColumns name columns => PDict [(name, PList (PStr <$> columns))]
  end.

Definition column_value (column : option string) : pyval :=
  match column with
  | Some name => PStr name
  | None => PNone
  end.

Definition table_entry_name (table : table_entry) : string :=
  match table with
  | TableName name => name
  | TableColumns name _ => name
  end.

Definition table_entry_columns (table : table_entry) : list (option string) :=
  match table with
  | TableName _ => [None]
  | TableColumns _ columns => Some <$> columns
  end.

(** ** Vocabulary of the further properties *)

(** Trees of comparisons with a comparator that is not a special one and
    an operand that is neither a list nor the empty object, under a key that
    is a column or no comparator, combined by connectors over a non-empty
    list. *)
Inductive plain_tree (self : JsonSQL) : pyval → Prop :=
| plain_comparison value comparator operand more_keys more_entries :
    is_Some (ALLOWED_COLUMNS self !! value)
    ∨ value ∉ COMPARISON self ++ SPECIAL_COMPARISON self →
    comparator ∉ SPECIAL_COMPARISON self →
    is_list operand = false →
    operand ≠ PDict [] →
    plain_tree self
      (PDict ((value, PDict ((comparator, operand) :: more_keys)) :: more_entries))
| plain_logical value children more_entries :
    value ∈ LOGICAL self →
    children ≠ [] →
    Forall (plain_tree self) children →
    plain_tree self (PDict ((value, PList children) :: more_entries)).

(** No [BETWEEN] comparison on the path [logic_parse] walks has a [str]
    operand. *)
Fixpoint no_between_str (json_input : pyval) : bool :=
  match json_input with
  | PDict ((_, body) :: _) =>
      match body with
      | PList children => forallb no_between_str children
      | PDict ((comparator, PStr _) :: _) => negb (bool_decide (comparator = "BETWEEN"))
      | _ => true
      end
  | _ => true
  end.

(** A text without a [?]. *)
Definition plain_text (s : string) : Prop := count_placeholders s = 0.

(** The text the items loop leaves for the entry [item] when it accepts
    it: a permitted [str] stays, and an aggregate node over a permitted
    argument becomes ["FUNC(argument)"]. *)
Definition renders (self : JsonSQL) (table : string) (item : pyval) (text : string)
    : Prop :=
  (item = PStr text ∧ permitted self table item)
  ∨ ∃ aggregate_function aggregate_argument more,
      item = PDict ((aggregate_function, aggregate_argument) :: more)
      ∧ aggregate_function ∈ AGGREGATES self
      ∧ permitted self table aggregate_argument
      ∧ text = aggregate_function +:+ "(" +:+ py_str aggregate_argument +:+ ")".

(** Lists, tuples and objects, which an f-string prints through [repr];
    the other values are a [str], a number, a [bool] or [None]. *)
Definition is_container (v : pyval) : bool :=
  match v with
  | PList _ | PTuple _ | PDict _ => true
  | _ => false
  end.

(** The entry [item] stops the items loop, which then names [shown]: a
    [str] that is not permitted, or an aggregate node over an argument that
    is not permitted and is no container. *)
Definition refused (self : JsonSQL) (table : string) (item : pyval) (shown : string)
    : Prop :=
  (item = PStr shown ∧ ¬ permitted self table item)
  ∨ ∃ aggregate_function aggregate_argument more,
      item = PDict ((aggregate_function, aggregate_argument) :: more)
      ∧ aggregate_function ∈ AGGREGATES self
      ∧ is_container aggregate_argument = false
      ∧ ¬ permitted self table aggregate_argument
      ∧ shown = py_str aggregate_argument.

(** The request [json_input] passes every check [sql_parse] makes before it
    assembles the text: the three required fields are there with the right
    class, the query and the table are whitelisted, every item is accepted,
    and the connection is absent or whitelisted. *)
Definition passes_checks (self : JsonSQL) (json_input : dict)
    (query : string) (items : list pyval) (texts : list string) (table : string)
    : Prop :=
  dict_get json_input "query" = Some (PStr query)
  ∧ dict_get json_input "items" = Some (PList items)
  ∧ dict_get json_input "table" = Some (PStr table)
  ∧ query ∈ ALLOWED_QUERIES self
  ∧ is_Some (ALLOWED_TABLES self !! table)
  ∧ Forall2 (renders self table) items texts
  ∧ (dict_get json_input "connection" = None
     ∨ ∃ connection, dict_get json_input "connection" = Some (PStr connection)
                     ∧ connection ∈ ALLOWED_CONNECTIONS self).

(** The request as a call that accepted its items leaves it. *)
Definition with_items (json_input : dict) (texts : list string) : dict :=
  dict_set json_input "items" (PList (PStr <$> texts)).

(** No [?] in any identifier the policy lets into a text. *)
Definition plain_policy (self : JsonSQL) : Prop :=
  Forall plain_text (ALLOWED_QUERIES self)
  ∧ Forall plain_text (ALLOWED_ITEMS self)
  ∧ Forall plain_text (ALLOWED_CONNECTIONS self)
  ∧ (∀ column, is_Some (ALLOWED_COLUMNS self !! column) → plain_text column)
  ∧ (∀ table columns,
       ALLOWED_TABLES self !! table = Some columns →
       plain_text table ∧ ∀ column, Some column ∈ columns → plain_text column).

(** The entries of [allowed_tables] that [__init__] takes in. *)
Definition table_entry_ok (table : pyval) : bool :=
  match table with
  | PStr _ => true
  | PDict ((_, PList _) :: _) => true
  | _ => false
  end.

(** ** The request and the policy as shared objects *)

(** The list object that the request holds under ["items"]: a list of its
    own, or one of the list objects of the policy, which a caller can hand
    over as it is ([{"items": policy.ALLOWED_ITEMS, ...}]).  The one
    assignment of [sql_parse], [json_input["items"][index] = ...], writes
    to that object, whoever else holds it. *)
Inductive items_object :=
| OwnList
| QueriesList
| ItemsList
| ConnectionsList
| TableList (table : string).

Record shared_store := Shared {
  sh_self : JsonSQL;
  sh_json_input : dict;
  sh_items : items_object;
}.

Definition shared_stmt (A : Type) : Type := shared_store → flow A * shared_store.

#[global] Instance shared_ret : MRet shared_stmt := fun A a sh => (Next a, sh).
#[global] Instance shared_bind : MBind shared_stmt := fun A B f m sh =>
  match m sh with
  | (Next a, sh') => f a sh'
  | (Returned r, sh') => (Returned r, sh')
  | (Raised e, sh') => (Raised e, sh')
  end.

(** A statement without an assignment, on the shared store. *)
Definition reading {A} (m : stmt A) : shared_stmt A := fun sh =>
  let '(o, st) := m (Store (sh_self sh) (sh_json_input sh)) in
  (o, Shared (st_self st) (st_json_input st) (sh_items sh)).

(** [object[index] = text] as the policy sees it: nothing when the object
    is the request's own list. *)
Definition write_policy (self : JsonSQL) (object : items_object) (index : nat)
    (text : string) : JsonSQL :=
  match object with
  | OwnList => self
  | QueriesList =>
      {| ALLOWED_QUERIES := <[index := text]> (ALLOWED_QUERIES self);
         ALLOWED_ITEMS := ALLOWED_ITEMS self;
         ALLOWED_TABLES := ALLOWED_TABLES self;
         ALLOWED_CONNECTIONS := ALLOWED_CONNECTIONS self;
         ALLOWED_COLUMNS := ALLOWED_COLUMNS self;
         LOGICAL := LOGICAL self;
         COMPARISON := COMPARISON self;
         SPECIAL_COMPARISON := SPECIAL_COMPARISON self;
         AGGREGATES := AGGREGATES self |}
  | ItemsList =>
      {| ALLOWED_QUERIES := ALLOWED_QUERIES self;
         ALLOWED_ITEMS := <[index := text]> (ALLOWED_ITEMS self);
         ALLOWED_TABLES := ALLOWED_TABLES self;
         ALLOWED_CONNECTIONS := ALLOWED_CONNECTIONS self;
         ALLOWED_COLUMNS := ALLOWED_COLUMNS self;
         LOGICAL := LOGICAL self;
         COMPARISON := COMPARISON self;
         SPECIAL_COMPARISON := SPECIAL_COMPARISON self;
         AGGREGATES := AGGREGATES self |}
  | ConnectionsList =>
      {| ALLOWED_QUERIES := ALLOWED_QUERIES self;
         ALLOWED_ITEMS := ALLOWED_ITEMS self;
         ALLOWED_TABLES := ALLOWED_TABLES self;
         ALLOWED_CONNECTIONS := <[index := text]> (ALLOWED_CONNECTIONS self);
         ALLOWED_COLUMNS := ALLOWED_COLUMNS self;
         LOGICAL := LOGICAL self;
         COMPARISON := COMPARISON self;
         SPECIAL_COMPARISON := SPECIAL_COMPARISON self;
         AGGREGATES := AGGREGATES self |}
  | TableList table =>
      {| ALLOWED_QUERIES := ALLOWED_QUERIES self;
         ALLOWED_ITEMS := ALLOWED_ITEMS self;
         ALLOWED_TABLES :=
           alter (fun columns => <[index := Some text]> columns) table
                 (ALLOWED_TABLES self);
         ALLOWED_CONNECTIONS := ALLOWED_CONNECTIONS self;
         ALLOWED_COLUMNS := ALLOWED_COLUMNS self;
         LOGICAL := LOGICAL self;
         COMPARISON := COMPARISON self;
         SPECIAL_COMPARISON := SPECIAL_COMPARISON self;
         AGGREGATES := AGGREGATES self |}
  end.

(** [json_input["items"][index] = text] on the shared store: the request
    sees the new entry, and so does the policy when the list is one of
    its own. *)
Definition setitem_items_shared (index : nat) (text : string) : shared_stmt unit :=
  fun sh =>
  match dict_get (sh_json_input sh) "items" with
  | Some (PList items) =>
      if decide (index < length items) then
        (Next (),
         {| sh_self := write_policy (sh_self sh) (sh_items sh) index text;
            sh_json_input :=
              dict_set (sh_json_input sh) "items" (PList (<[index := PStr text]> items));
            sh_items := sh_items sh |})
      else (Raised IndexError, sh)
  | Some _ => (Raised TypeError, sh)
  | None => (Raised KeyError, sh)
  end.

(** One turn of the items loop on the shared store; the tests read the
    policy as the writes so far have left it. *)
Definition check_item_shared (index : nat) (item : pyval) : shared_stmt unit :=
  self ← reading get_self;
  allowed ← reading (item_allowed item);
  if (allowed : bool) then mret ()
  else
    is_aggregate ← reading (eval (is_aggregate_item self item));
    if (is_aggregate : bool) then
      aggregate_function ← reading (eval (py_first item));
      aggregate_argument ← reading (eval (py_getitem item aggregate_function));
      argument_allowed ← reading (item_allowed aggregate_argument);
      if (argument_allowed : bool) then
        setitem_items_shared index
          (py_str aggregate_function +:+ "(" +:+ py_str aggregate_argument +:+ ")")
      else reading (return_ (RFalse ("Item not allowed - " +:+ py_str aggregate_argument)))
    else reading (return_ (RFalse ("Item not allowed - " +:+ py_str item))).

Fixpoint check_items_shared (index : nat) (items : list pyval) : shared_stmt unit :=
  match items with
  | [] => mret ()
  | item :: items' => check_item_shared index item;; check_items_shared (S index) items'
  end.

Definition check_all_items_shared : shared_stmt unit :=
  json_input ← reading get_json_input;
  items ← reading (eval (py_getitem (PDict json_input) (PStr "items")));
  entries ← reading (eval (py_list items));
  check_items_shared 0 entries.

Definition sql_parse_body_shared : shared_stmt unit :=
  reading (check_required required_inputs);;
  reading check_query_table;;
  check_all_items_shared;;
  reading check_connection;;
  reading assemble.

Definition sql_parse_shared (sh : shared_store) : py_result ret * shared_store :=
  match sql_parse_body_shared sh with
  | (Next _, sh') => (Return RNone, sh')
  | (Returned r, sh') => (Return r, sh')
  | (Raised e, sh') => (Raise e, sh')
  end.

(** The store says what is the case: when the request's list is a list of
    the policy, the two hold the same entries. *)
Definition shares (sh : shared_store) : Prop :=
  match sh_items sh with
  | OwnList => True
  | QueriesList =>
      dict_get (sh_json_input sh) "items"
      = Some (PList (PStr <$> ALLOWED_QUERIES (sh_self sh)))
  | ItemsList =>
      dict_get (sh_json_input sh) "items"
      = Some (PList (PStr <$> ALLOWED_ITEMS (sh_self sh)))
  | ConnectionsList =>
      dict_get (sh_json_input sh) "items"
      = Some (PList (PStr <$> ALLOWED_CONNECTIONS (sh_self sh)))
  | TableList table =>
      ∃ columns,
        ALLOWED_TABLES (sh_self sh) !! table = Some columns
        ∧ dict_get (sh_json_input sh) "items" = Some (PList (column_value <$> columns))
  end.

(** A store whose request has a list of its own. *)
Definition own (st : store) : shared_store :=
  Shared (st_self st) (st_json_input st) OwnList.

(** [shared] does on a request with its own list what [m] does. *)
Definition agrees {A} (m : stmt A) (shared : shared_stmt A) : Prop :=
  ∀ st, shared (own st) = let '(o, st') := m st in (o, own st').

(** [m] leaves the store as it is. *)
Definition reads {A} (m : stmt A) : Prop := ∀ st, (m st).2 = st.

(** * Properties *)

(** ** Evaluations on concrete inputs *)

(** C2: on the policy and the request of Scenario A, [sql_parse] succeeds
    with the text [SELECT * FROM images WHERE (creature = ? AND (userID = ?
    OR userID = ?))] and the parameters ["owlbear"], [555], [111] in that
    order. *)
Theorem scenario_A_compiles :
  (sql_parse (Store scenario_policy scenario_request)).1
  = Return (RTrue
      "SELECT * FROM images WHERE (creature = ? AND (userID = ? OR userID = ?))"
      [PStr "owlbear"; PInt 555; PInt 111]).
Proof. vm_compute. reflexivity. Qed.

(** C1: the count of [?] in the text does not always equal the number of
    parameters.  A [BETWEEN] whose operand is a [str] of the column's class
    passes [is_valid_value] before the arity test of
    [is_special_comparison] is consulted, and [tuple(operand)] then binds
    one parameter per character: two placeholders, three parameters. *)
Theorem between_str_operand_miscounts :
  logic_parse scenario_policy (comparison_node "creature" "BETWEEN" (PStr "abc"))
  = Return (RTrue "creature BETWEEN ? AND ?" [PStr "a"; PStr "b"; PStr "c"])
  ∧ count_placeholders "creature BETWEEN ? AND ?" = 2
  ∧ length [PStr "a"; PStr "b"; PStr "c"] = 3
  ∧ (sql_parse (Store scenario_policy
       [("query", PStr "SELECT"); ("items", PList [PStr "*"]);
        ("table", PStr "images"); ("connection", PStr "WHERE");
        ("logic", comparison_node "creature" "BETWEEN" (PStr "abc"))])).1
    = Return (RTrue "SELECT * FROM images WHERE creature BETWEEN ? AND ?"
                [PStr "a"; PStr "b"; PStr "c"]).
Proof. repeat split; vm_compute; reflexivity. Qed.

(** C3: compilation does not always hand back a result pair.  A top-level
    key that is a comparator and not a column raises [KeyError] at
    [self.ALLOWED_COLUMNS[column]], or falls off the end of [logic_parse]
    and yields [None]; a logical node whose child is not an object raises;
    a request with [logic] and no [connection] raises [KeyError] when the
    text is assembled. *)
Theorem compilation_raises_or_returns_none :
  logic_parse scenario_policy (comparison_node "=" "=" (PInt 5)) = Raise KeyError
  ∧ logic_parse scenario_policy (PDict [("=", PStr "x")]) = Return RNone
  ∧ logic_parse scenario_policy (logical_node "AND" [PInt 1; PInt 2]) = Raise TypeError
  ∧ (sql_parse (Store scenario_policy
       [("query", PStr "SELECT"); ("items", PList [PStr "*"]);
        ("table", PStr "images");
        ("logic", comparison_node "userID" "=" (PInt 1))])).1
    = Raise KeyError
  ∧ (sql_parse (Store scenario_policy
       [("query", PStr "SELECT"); ("items", PList [PStr "*"]);
        ("table", PStr "images"); ("connection", PStr "WHERE");
        ("logic", PDict [("=", PStr "x")])])).1
    = Raise TypeError.
Proof. repeat split; vm_compute; reflexivity. Qed.

(** C7: a logical node with an empty child list does not reach the length
    test of the logical branch.  [logic_parse] first asks
    [is_valid_comparison] about the node, which reads [list(children)[0]]
    and raises [IndexError]; the result [(False, "Invalid boolean length,
    must be >= 2")] is never built. *)
Theorem empty_logical_node_raises q i t cn cols :
  logic_parse (__init__ q i t cn cols) (logical_node "AND" []) = Raise IndexError
  ∧ logic_parse (__init__ q i t cn cols) (logical_node "OR" []) = Raise IndexError.
Proof.
  split; cbn; unfold parse_node, is_value_in_allowed_categories; cbn;
    destruct (bool_decide (is_Some (cols !! _))); reflexivity.
Qed.

(** ** Unfolding lemmas *)

Lemma logic_parse_node self value body rest :
  logic_parse self (PDict ((value, body) :: rest))
  = parse_node self (logic_parse self) value body.
Proof. reflexivity. Qed.

Lemma dict_get_head k v (d : dict) : dict_get ((k, v) :: d) k = Some v.
Proof. cbn. by rewrite decide_True. Qed.

Lemma py_in_str s l : py_in (PStr s) l = bool_decide (s ∈ l).
Proof. reflexivity. Qed.

Lemma sql_comparator_str op :
  py_str (get_sql_comparator (PStr op)) = sql_comparator op.
Proof.
  unfold get_sql_comparator, sql_comparator, py_eq_str.
  case_bool_decide; case_decide; done.
Qed.

Lemma py_in_inv (v : pyval) (seq : list string) :
  py_in v seq = true → ∃ s, v = PStr s ∧ s ∈ seq.
Proof.
  destruct v; try done. cbn. intros ?%bool_decide_eq_true. eauto.
Qed.

Lemma is_another_column_inv self v :
  is_another_column self v = true →
  ∃ s, v = PStr s ∧ is_Some (ALLOWED_COLUMNS self !! s).
Proof.
  destruct v; try done. cbn. intros ?%bool_decide_eq_true. eauto.
Qed.

(** ** Column operands *)

(** C10, amended: for a known column [c] that is not itself a connector
    name, a simple comparator [op] and an operand [v] that is a key of
    [ALLOWED_COLUMNS], [logic_parse] on [{c: {op: v}}] returns the text
    [c op' v] with no parameter. *)
Theorem column_operand_is_embedded self (c op v : string) :
  is_Some (ALLOWED_COLUMNS self !! c) → c ∉ LOGICAL self → op ∈ COMPARISON self →
  is_Some (ALLOWED_COLUMNS self !! v) →
  logic_parse self (comparison_node c op (PStr v))
  = Return (RTrue (c +:+ " " +:+ sql_comparator op +:+ " " +:+ v) []).
Proof.
  intros Hc Hlog Hop Hv. unfold comparison_node.
  rewrite logic_parse_node. unfold parse_node, is_value_in_allowed_categories.
  rewrite (bool_decide_eq_true_2 _ Hc), (bool_decide_eq_false_2 _ Hlog). cbn [orb negb andb].
  assert (Hvalid : is_valid_comparison self c (PDict [(op, PStr v)]) = Return true).
  { unfold is_valid_comparison. cbn [py_first py_list fmap list_fmap fst mbind py_result_bind].
    rewrite py_in_str, (bool_decide_eq_true_2 _ Hop). cbn [negb andb].
    unfold py_getitem. rewrite dict_get_head. cbn [mbind py_result_bind].
    unfold column_type. destruct Hc as [ty ->]. cbn [mbind py_result_bind].
    unfold is_valid_value. cbn [is_dict is_list negb andb is_another_column].
    by rewrite (bool_decide_eq_true_2 _ Hv). }
  rewrite Hvalid. cbn [mbind py_result_bind negb].
  unfold compile_comparison. cbn [py_first py_list fmap list_fmap fst mbind py_result_bind].
  unfold py_getitem. rewrite dict_get_head. cbn [mbind py_result_bind].
  rewrite py_in_str, (bool_decide_eq_true_2 _ Hop). cbn [is_another_column].
  rewrite (bool_decide_eq_true_2 _ Hv). cbn [negb andb].
  by rewrite sql_comparator_str.
Qed.

(** C10 as stated fails for a column named like a connector: the connector
    test comes first and rejects the comparison node. *)
Lemma connector_named_column_is_rejected :
  is_Some (ALLOWED_COLUMNS keyword_policy !! "AND")
  ∧ "=" ∈ COMPARISON keyword_policy
  ∧ logic_parse keyword_policy (comparison_node "AND" "=" (PStr "AND"))
    = Return (RFalse "Bad AND, non list").
Proof.
  split; [by eexists|]. split; [by left|]. vm_compute. reflexivity.
Qed.

Lemma column_operand_is_embedded_witness :
  logic_parse scenario_policy (comparison_node "creature" "!=" (PStr "userID"))
  = Return (RTrue ("creature" +:+ " " +:+ sql_comparator "!=" +:+ " " +:+ "userID") []).
Proof.
  apply column_operand_is_embedded.
  - by eexists.
  - cbn. by intros [?|[?|?%elem_of_nil]%elem_of_cons]%elem_of_cons.
  - cbn. do 6 right. left.
  - by eexists.
Defined.

(** ** Arity of the special comparisons *)

Lemma is_valid_value_cases self v T :
  (∃ b, is_valid_value self v T = Return b)
  ∨ (is_valid_value self v T = Raise IndexError ∧ v = PDict []).
Proof.
  unfold is_valid_value.
  destruct v as [| | | | |l|l|d]; cbn [is_dict is_list negb andb];
    try (destruct (is_another_column self _)); eauto.
  unfold is_valid_aggregate. cbn [is_dict negb].
  destruct d as [|[k x] d]; [by right|left].
  cbn [py_first py_list fmap list_fmap fst mbind py_result_bind].
  unfold py_getitem. rewrite dict_get_head. cbn [mbind py_result_bind].
  destruct (negb _); eauto.
Qed.

Lemma all_values_allowed_cases self l T :
  (∃ b, all_values_allowed self l T = Return b)
  ∨ (all_values_allowed self l T = Raise IndexError ∧ PDict [] ∈ l).
Proof.
  induction l as [|v l IH]; cbn [all_values_allowed]; [by eauto|].
  destruct (is_valid_value_cases self v T) as [[b ->]|[-> ->]].
  - cbn [mbind py_result_bind]. destruct b; cbn [negb]; [|by eauto].
    destruct IH as [?|[-> ?]]; [by left|right]. split; [done|by right].
  - right. split; [done|by left].
Qed.

Lemma isinstance_list l T : isinstance (PList l) T = false.
Proof. by destruct T. Qed.

Lemma bad_comparison_fails self value body r :
  bad_comparison self value body = Return r → ∃ reason, r = RFalse reason.
Proof.
  unfold bad_comparison.
  assert (Hbad : ∀ r,
            (valuetype ← column_type self value;
             Return (RFalse ("Bad " +:+ value +:+ ", non " +:+ type_repr valuetype)))
            = Return r → ∃ reason, r = RFalse reason).
  { intros r'. destruct (column_type self value); [|done].
    cbn [mbind py_result_bind]. intros [= <-]. eauto. }
  destruct (is_dict body); [|by apply Hbad].
  destruct (py_first body); [|done]. cbn [mbind py_result_bind].
  destruct (_ && _); [|by apply Hbad]. intros [= <-]. eauto.
Qed.

Section Arity.
Variables (q i : list string) (t : list table_entry) (cn : list string).
Variable cols : gmap string pytype.
Local Abbreviation self := (__init__ q i t cn cols).

Lemma special_list_operand (c op : string) l ty :
  cols !! c = Some ty → op ∈ SPECIAL_COMPARISON self →
  is_valid_comparison self c (PDict [(op, PList l)])
  = (ok ← all_values_allowed self l ty;
     Return (ok && (bool_decide (op = "BETWEEN") && bool_decide (length l = 2)
                    || bool_decide (op = "IN") && bool_decide (0 < length l)))).
Proof.
  intros Hty Hop. unfold is_valid_comparison.
  cbn [py_first py_list fmap list_fmap fst mbind py_result_bind].
  rewrite !py_in_str, (bool_decide_eq_true_2 (op ∈ SPECIAL_COMPARISON self) Hop).
  rewrite andb_false_r. unfold py_getitem. rewrite dict_get_head.
  cbn [mbind py_result_bind]. unfold column_type. cbn [ALLOWED_COLUMNS __init__].
  rewrite Hty. cbn [mbind py_result_bind].
  unfold is_valid_value. cbn [is_dict is_list negb andb]. rewrite isinstance_list.
  unfold is_special_comparison, py_eq_str.
  destruct (all_values_allowed self l ty) as [[]|]; cbn [mbind py_result_bind negb andb];
    [|done..].
  repeat case_bool_decide; by cbn.
Qed.

Lemma special_list_operand_bad (c op : string) l ty :
  cols !! c = Some ty → op ∈ SPECIAL_COMPARISON self →
  is_valid_comparison self c (PDict [(op, PList l)]) = Return false →
  ∃ reason, logic_parse self (comparison_node c op (PList l)) = Return (RFalse reason).
Proof.
  intros Hty Hop Hbad. unfold comparison_node. rewrite logic_parse_node.
  unfold parse_node, is_value_in_allowed_categories. cbn [ALLOWED_COLUMNS __init__].
  rewrite (bool_decide_eq_true_2 (is_Some (cols !! c))) by eauto.
  cbn [orb negb is_list andb]. rewrite andb_true_r.
  destruct (bool_decide (c ∈ _)); [by eauto|].
  rewrite Hbad. cbn [mbind py_result_bind negb].
  unfold bad_comparison, column_type. cbn [ALLOWED_COLUMNS __init__]. rewrite Hty.
  cbn [mbind py_result_bind is_dict py_first py_list fmap list_fmap fst].
  destruct (_ && _); eauto.
Qed.

Lemma between_list_operand (c : string) l ty :
  cols !! c = Some ty →
  is_valid_comparison self c (PDict [("BETWEEN", PList l)])
  = (ok ← all_values_allowed self l ty; Return (ok && bool_decide (length l = 2))).
Proof.
  intros Hty. rewrite (special_list_operand _ _ _ ty) by (done || cbn; set_solver).
  destruct (all_values_allowed self l ty) as [ok|]; [|done].
  cbn [mbind py_result_bind]. do 2 f_equal.
  rewrite (bool_decide_eq_true_2 ("BETWEEN" = "BETWEEN")) by done.
  rewrite (bool_decide_eq_false_2 ("BETWEEN" = "IN")) by done.
  by rewrite orb_false_r.
Qed.

Lemma in_list_operand (c : string) l ty :
  cols !! c = Some ty →
  is_valid_comparison self c (PDict [("IN", PList l)])
  = (ok ← all_values_allowed self l ty; Return (ok && bool_decide (0 < length l))).
Proof.
  intros Hty. rewrite (special_list_operand _ _ _ ty) by (done || cbn; set_solver).
  destruct (all_values_allowed self l ty) as [ok|]; [|done].
  reflexivity.
Qed.

(** C8: the arity test of [BETWEEN] is not reached when the operand list
    holds an empty object.  Validation asks [is_valid_aggregate] about each
    entry before it looks at the length, [list({})[0]] raises [IndexError]
    there, and nothing catches it: for a known column that is no connector
    name, a [BETWEEN] over a list that starts with [{}] raises whatever its
    length, where the claim says that a length other than 2 fails. *)
Theorem wrong_arity_between_raises (c : string) l :
  is_Some (cols !! c) → c ∉ LOGICAL self →
  logic_parse self (comparison_node c "BETWEEN" (PList (PDict [] :: l)))
  = Raise IndexError.
Proof.
  intros [ty Hty] Hlogical.
  assert (Hb : "BETWEEN" ∈ SPECIAL_COMPARISON self) by apply list_elem_of_here.
  unfold comparison_node. rewrite logic_parse_node.
  unfold parse_node, is_value_in_allowed_categories. cbn [ALLOWED_COLUMNS __init__].
  rewrite (bool_decide_eq_true_2 (is_Some (cols !! c))) by eauto.
  rewrite (bool_decide_eq_false_2 _ Hlogical).
  cbn [orb negb is_list andb].
  by rewrite (special_list_operand c "BETWEEN" _ ty Hty Hb).
Qed.

(** X27: what holds of the arity of the special comparisons.  For a known
    column, a [BETWEEN] whose operand list has a length other than 2 and
    holds no empty object is a returned failure; an [IN] with an empty
    operand list is a returned failure; and an [IN] with a one-element
    list, when it succeeds, gives the text [c IN (?)] and binds exactly
    that element. *)
Theorem special_comparison_arity (c : string) :
  is_Some (cols !! c) →
  (∀ l, length l ≠ 2 → PDict [] ∉ l →
     ∃ reason,
       logic_parse self (comparison_node c "BETWEEN" (PList l)) = Return (RFalse reason))
  ∧ (∃ reason,
       logic_parse self (comparison_node c "IN" (PList [])) = Return (RFalse reason))
  ∧ (∀ x sql params,
       logic_parse self (comparison_node c "IN" (PList [x])) = Return (RTrue sql params) →
       sql = c +:+ " IN (?)" ∧ params = [x]).
Proof.
  intros [ty Hty]. split; [|split].
  - intros l Hl Hobject.
    assert (Hb : "BETWEEN" ∈ SPECIAL_COMPARISON self) by apply list_elem_of_here.
    pose proof (between_list_operand c l ty Hty) as Hv.
    destruct (all_values_allowed_cases self l ty) as [[b Hall]|[_ Hin]]; [|done].
    rewrite Hall in Hv. cbn [mbind py_result_bind] in Hv.
    rewrite (bool_decide_eq_false_2 (length l = 2)), andb_false_r in Hv by done.
    apply (special_list_operand_bad c "BETWEEN" l ty Hty Hb Hv).
  - assert (Hb : "IN" ∈ SPECIAL_COMPARISON self)
      by apply list_elem_of_further, list_elem_of_here.
    apply (special_list_operand_bad c "IN" [] ty Hty Hb).
    by rewrite (in_list_operand c [] ty Hty).
  - intros x sql params. unfold comparison_node. rewrite logic_parse_node.
    unfold parse_node, is_value_in_allowed_categories. cbn [ALLOWED_COLUMNS __init__].
    rewrite (bool_decide_eq_true_2 (is_Some (cols !! c))) by eauto.
    cbn [orb negb is_list andb]. rewrite andb_true_r.
    destruct (bool_decide (c ∈ _)); [done|].
    destruct (is_valid_comparison self c (PDict [("IN", PList [x])])) as [[]|];
      cbn [mbind py_result_bind negb]; [| |done].
    2: by intros [? [=]]%bad_comparison_fails.
    unfold compile_comparison.
    change (py_first (PDict [("IN", PList [x])])) with (Return (PStr "IN")).
    cbn [mbind py_result_bind].
    change (py_getitem (PDict [("IN", PList [x])]) (PStr "IN")) with (Return (PList [x])).
    cbn [mbind py_result_bind].
    change (py_in (PStr "IN") (COMPARISON self)) with false.
    change (py_in (PStr "IN") (SPECIAL_COMPARISON self)) with true.
    cbn [andb py_first py_list mbind py_result_bind].
    destruct (py_in x (AGGREGATES self)) eqn:Hagg.
    + destruct x; done.
    + cbn. by intros [= <- <-].
Qed.
End Arity.

Lemma wrong_arity_between_raises_witness :
  logic_parse scenario_policy (comparison_node "creature" "BETWEEN" (PList [PDict []]))
  = Raise IndexError.
Proof.
  apply (wrong_arity_between_raises ["SELECT"] ["*"] [TableColumns "images" []]
           ["WHERE"] scenario_columns "creature" []); [by eexists|].
  cbn. by intros [?|[?|?%elem_of_nil]%elem_of_cons]%elem_of_cons.
Defined.

Lemma special_comparison_arity_witness :
  (∃ reason,
     logic_parse scenario_policy
       (comparison_node "creature" "BETWEEN" (PList [PStr "a"])) = Return (RFalse reason))
  ∧ logic_parse scenario_policy (comparison_node "userID" "IN" (PList [PInt 7]))
    = Return (RTrue ("userID" +:+ " IN (?)") [PInt 7]).
Proof.
  destruct (special_comparison_arity ["SELECT"] ["*"] [TableColumns "images" []]
              ["WHERE"] scenario_columns "creature") as (Hbetween & _ & _).
  { by eexists. }
  destruct (special_comparison_arity ["SELECT"] ["*"] [TableColumns "images" []]
              ["WHERE"] scenario_columns "userID") as (_ & _ & Hin).
  { by eexists. }
  split.
  - apply (Hbetween [PStr "a"]); [cbn; lia|].
    by intros [?|?%elem_of_nil]%elem_of_cons.
  - destruct (logic_parse scenario_policy
                (comparison_node "userID" "IN" (PList [PInt 7]))) as [[| sql params |]|] eqn:Hrun;
      try (vm_compute in Hrun; discriminate).
    destruct (Hin (PInt 7) sql params Hrun) as [-> ->]. reflexivity.
Defined.

(** ** The items loop and the store *)

Lemma dict_get_set_eq (d : dict) k v : dict_get (dict_set d k v) k = Some v.
Proof.
  induction d as [|[k' v'] d IH]; cbn.
  - by rewrite decide_True.
  - destruct (decide (k' = k)) as [->|Hne]; cbn.
    + by rewrite decide_True.
    + by rewrite decide_False.
Qed.

Lemma dict_get_set_ne (d : dict) k k' v :
  k ≠ k' → dict_get (dict_set d k v) k' = dict_get d k'.
Proof.
  intros Hne. induction d as [|[k0 v0] d IH]; cbn.
  - by rewrite decide_False.
  - destruct (decide (k0 = k)) as [->|Hne0]; cbn.
    + by rewrite !decide_False.
    + by rewrite IH.
Qed.

Lemma dict_set_set (d : dict) k v v' : dict_set (dict_set d k v) k v' = dict_set d k v'.
Proof.
  induction d as [|[k0 v0] d IH]; cbn.
  - by rewrite decide_True.
  - destruct (decide (k0 = k)) as [->|Hne0]; cbn.
    + by rewrite decide_True.
    + by rewrite decide_False, IH.
Qed.

Lemma dict_set_same (d : dict) k v : dict_get d k = Some v → dict_set d k v = d.
Proof.
  induction d as [|[k0 v0] d IH]; cbn; [done|].
  destruct (decide (k0 = k)) as [->|Hne0].
  - by intros [= ->].
  - intros Hget. by rewrite IH.
Qed.

Lemma stmt_bind_inv {A B} (m : stmt A) (f : A → stmt B) st o st' :
  (m ≫= f) st = (o, st') →
  (∃ a st1, m st = (Next a, st1) ∧ f a st1 = (o, st'))
  ∨ (∃ r, m st = (Returned r, st') ∧ o = Returned r)
  ∨ (∃ e, m st = (Raised e, st') ∧ o = Raised e).
Proof.
  unfold mbind, stmt_bind. destruct (m st) as [[a|r|e] st1].
  - left. eauto.
  - intros ?; simplify_eq. right. left. eauto.
  - intros ?; simplify_eq. right. right. eauto.
Qed.

Lemma bind_get_self {B} (f : JsonSQL → stmt B) st :
  (get_self ≫= f) st = f (st_self st) st.
Proof. reflexivity. Qed.

Lemma bind_get_json_input {B} (f : dict → stmt B) st :
  (get_json_input ≫= f) st = f (st_json_input st) st.
Proof. reflexivity. Qed.

Lemma bind_eval {A B} (m : py_result A) (f : A → stmt B) st :
  (eval m ≫= f) st
  = match m with
    | Return a => f a st
    | Raise e => (Raised e, st)
    end.
Proof. by destruct m. Qed.

Lemma item_allowed_inv self j t x o st' :
  dict_get j "table" = Some (PStr t) →
  item_allowed x (Store self j) = (o, st') →
  st' = Store self j
  ∧ match o with
    | Next true => permitted self t x
    | Next false => ¬ permitted self t x
    | Returned _ => False
    | Raised _ => True
    end.
Proof.
  intros Htable. unfold item_allowed.
  rewrite bind_get_self, bind_get_json_input. cbn [st_self st_json_input].
  destruct (py_in x (ALLOWED_ITEMS self)) eqn:Hitems.
  - stmt_done. split; [done|by left].
  - rewrite bind_eval. unfold py_getitem. rewrite Htable, bind_eval. cbn [table_columns].
    destruct (ALLOWED_TABLES self !! t) as [columns|] eqn:Hcolumns;
      rewrite ?bind_eval; stmt_done; (split; [done|]); [|done].
    destruct (py_in_columns x columns) eqn:Hin.
    + right. eauto.
    + intros [?|(columns' & ? & ?)]; simplify_eq; congruence.
Qed.

Lemma store_unchanged self (j : dict) l index item :
  dict_get j "items" = Some (PList l) → l !! index = Some item →
  Store self j = Store self (dict_set j "items" (PList (<[index := item]> l))).
Proof.
  intros Hitems Hidx. by rewrite list_insert_id, dict_set_same.
Qed.

Lemma check_item_inv self j t l index item o st' :
  dict_get j "table" = Some (PStr t) →
  dict_get j "items" = Some (PList l) →
  l !! index = Some item →
  check_item index item (Store self j) = (o, st') →
  ∃ item',
    st' = Store self (dict_set j "items" (PList (<[index := item']> l)))
    ∧ rewritten self t item item'
    ∧ match o with
      | Next _ => accepted self t item item'
      | Returned (RFalse _) => True
      | Returned _ => False
      | Raised _ => True
      end.
Proof.
  intros Htable Hitems Hidx. unfold check_item.
  pose proof (store_unchanged self j l index item Hitems Hidx) as Hsame.
  assert (Hkeep : ∃ item',
            Store self j = Store self (dict_set j "items" (PList (<[index := item']> l)))
            ∧ rewritten self t item item' ∧ True).
  { exists item. split; [done|]. split; [by left|done]. }
  rewrite bind_get_self. cbn [st_self].
  intros [(allowed & st1 & Hallowed & Hrun)|[(r & Hallowed & ->)|(e & Hallowed & ->)]]%stmt_bind_inv;
    apply (item_allowed_inv _ _ t) in Hallowed as [-> Hallowed]; try done.
  destruct allowed.
  { revert Hrun. stmt_done. exists item. split; [by f_equal|]. split; by left. }
  revert Hrun. rewrite bind_eval. unfold is_aggregate_item.
  destruct (is_dict item) eqn:Hdict; [|by stmt_done].
  destruct (py_first item) as [first|e] eqn:Hfirst; cbn [mbind py_result_bind];
    [|by stmt_done].
  destruct (py_in first (AGGREGATES self)) eqn:Hagg; [|by stmt_done].
  apply py_in_inv in Hagg as (f & -> & Hf).
  rewrite bind_eval.
  destruct (py_getitem item (PStr f)) as [argument|e] eqn:Hargument; rewrite bind_eval;
    [|by stmt_done].
  intros [(ok & st1 & Hok & Hrun)|[(r & Hok & ->)|(e & Hok & ->)]]%stmt_bind_inv;
    apply (item_allowed_inv _ _ t) in Hok as [-> Hok]; try done.
  destruct ok; [|by revert Hrun; stmt_done].
  revert Hrun. unfold setitem_items. cbn [st_json_input st_self]. rewrite Hitems.
  rewrite decide_True by (by eapply lookup_lt_Some).
  stmt_done. eexists. split; [done|].
  assert (rendered self t item (PStr (py_str (PStr f) +:+ "(" +:+ py_str argument +:+ ")"))).
  { split; [done|]. exists f, argument. by repeat split. }
  split; by right.
Qed.

Lemma check_items_inv self t items :
  ∀ j done index o st',
    dict_get j "table" = Some (PStr t) →
    dict_get j "items" = Some (PList (done ++ items)) →
    length done = index →
    check_items index items (Store self j) = (o, st') →
    ∃ items',
      st' = Store self (dict_set j "items" (PList (done ++ items')))
      ∧ Forall2 (rewritten self t) items items'
      ∧ match o with
        | Next _ => Forall2 (accepted self t) items items'
        | Returned (RFalse _) => True
        | Returned _ => False
        | Raised _ => True
        end.
Proof.
  induction items as [|item items IH]; intros j done index o st' Htable Hitems Hlen.
  - cbn [check_items]. stmt_done. exists []. rewrite dict_set_same by done.
    by repeat split.
  - cbn [check_items].
    assert (Hidx : (done ++ item :: items) !! index = Some item).
    { subst index. by rewrite list_lookup_middle. }
    intros [(u & st1 & Hone & Hrun)|[(r & Hone & ->)|(e & Hone & ->)]]%stmt_bind_inv;
      destruct (check_item_inv _ _ _ _ _ _ _ _ Htable Hitems Hidx Hone)
        as (item' & -> & Hrewritten & Hone').
    + subst index. rewrite insert_app_r_alt, Nat.sub_diag in Hrun by done.
      cbn [insert list_insert] in Hrun.
      apply (IH _ (done ++ [item'])) in Hrun as (items' & -> & Hall & Hrun).
      * exists (item' :: items').
        rewrite dict_set_set, <- (assoc_L (++)). cbn [app].
        split; [done|]. split; [by constructor|].
        destruct o as [?|[]|]; try done. by constructor.
      * by rewrite dict_get_set_ne.
      * by rewrite dict_get_set_eq, <- (assoc_L (++)).
      * rewrite length_app. cbn. lia.
    + subst index. rewrite insert_app_r_alt, Nat.sub_diag by done.
      cbn [insert list_insert].
      exists (item' :: items). split; [done|]. split; [|done].
      constructor; [done|]. apply Forall2_same_length_lookup_2; [done|].
      intros ? ? ? ? ?. simplify_eq. by left.
    + subst index. rewrite insert_app_r_alt, Nat.sub_diag by done.
      cbn [insert list_insert].
      exists (item' :: items). split; [done|]. split; [|done].
      constructor; [done|]. apply Forall2_same_length_lookup_2; [done|].
      intros ? ? ? ? ?. simplify_eq. by left.
Qed.

(** ** The phases of [sql_parse] *)

Lemma check_required_step input_name expected_type inputs st :
  check_required ((input_name, expected_type) :: inputs) st
  = match dict_get (st_json_input st) input_name with
    | None => (Returned (RFalse ("Missing argument " +:+ input_name)), st)
    | Some v =>
        if isinstance_class v expected_type then check_required inputs st
        else (Returned (RFalse (input_name +:+ " not right type, expected "
                                  +:+ class_repr expected_type)), st)
    end.
Proof.
  cbn [check_required]. rewrite bind_get_json_input. unfold dict_has, py_getitem.
  destruct (dict_get (st_json_input st) input_name) as [v|]; cbn [negb]; [|done].
  rewrite bind_eval. by destruct (isinstance_class v expected_type).
Qed.

Lemma check_required_inv self j o st' :
  check_required required_inputs (Store self j) = (o, st') →
  st' = Store self j
  ∧ match o with
    | Next _ =>
        ∃ query items table,
          dict_get j "query" = Some (PStr query)
          ∧ dict_get j "items" = Some (PList items)
          ∧ dict_get j "table" = Some (PStr table)
    | _ => no_success o
    end.
Proof.
  unfold required_inputs. rewrite !check_required_step. cbn [st_json_input check_required].
  destruct (dict_get j "query") as [[]|]; cbn [isinstance_class is_str is_list];
    try (by stmt_done).
  destruct (dict_get j "items") as [[]|]; cbn [isinstance_class is_str is_list];
    try (by stmt_done).
  destruct (dict_get j "table") as [[]|]; cbn [isinstance_class is_str is_list];
    try (by stmt_done).
  stmt_done. split; [done|]. by eexists _, _, _.
Qed.

Lemma check_query_table_inv self j query table o st' :
  dict_get j "query" = Some (PStr query) →
  dict_get j "table" = Some (PStr table) →
  check_query_table (Store self j) = (o, st') →
  st' = Store self j
  ∧ match o with
    | Next _ => query ∈ ALLOWED_QUERIES self ∧ is_Some (ALLOWED_TABLES self !! table)
    | _ => no_success o
    end.
Proof.
  intros Hquery Htable. unfold check_query_table.
  rewrite bind_get_self, bind_get_json_input, bind_eval. cbn [st_self st_json_input].
  unfold py_getitem. rewrite Hquery, py_in_str.
  case_bool_decide; cbn [negb]; [|by stmt_done].
  rewrite bind_eval, Htable. case_bool_decide; cbn [negb]; by stmt_done.
Qed.

Lemma check_all_items_inv self j table items o st' :
  dict_get j "table" = Some (PStr table) →
  dict_get j "items" = Some (PList items) →
  check_all_items (Store self j) = (o, st') →
  ∃ items',
    st' = Store self (dict_set j "items" (PList items'))
    ∧ Forall2 (rewritten self table) items items'
    ∧ match o with
      | Next _ => Forall2 (accepted self table) items items'
      | _ => no_success o
      end.
Proof.
  intros Htable Hitems. unfold check_all_items.
  rewrite bind_get_json_input, bind_eval. cbn [st_json_input]. unfold py_getitem.
  rewrite Hitems, bind_eval. cbn [py_list]. intros Hrun.
  apply (check_items_inv _ table _ _ []) in Hrun as (items' & -> & Hall & Hrun); try done.
  exists items'. repeat split; try done. by destruct o as [?|[]|].
Qed.

Lemma check_connection_inv self j o st' :
  check_connection (Store self j) = (o, st') →
  st' = Store self j
  ∧ match o with
    | Next _ =>
        dict_get j "connection" = None
        ∨ ∃ connection, dict_get j "connection" = Some (PStr connection)
                        ∧ connection ∈ ALLOWED_CONNECTIONS self
    | _ => no_success o
    end.
Proof.
  unfold check_connection.
  rewrite bind_get_self, bind_get_json_input. cbn [st_self st_json_input].
  unfold dict_has, py_getitem.
  destruct (dict_get j "connection") as [connection|]; [|stmt_done; eauto].
  rewrite bind_eval.
  destruct (py_in connection (ALLOWED_CONNECTIONS self)) eqn:Hin; cbn [negb];
    [|by stmt_done].
  stmt_done. split; [done|]. right.
  destruct connection; try done. apply bool_decide_eq_true in Hin. eauto.
Qed.

Lemma py_join_strs_inv l texts :
  py_join_strs l = Return texts → l = PStr <$> texts.
Proof.
  revert texts. induction l as [|v l IH]; intros texts; cbn [py_join_strs].
  - by intros [= <-].
  - destruct v; try done.
    destruct (py_join_strs l) as [ss|]; [|done]. cbn [mbind py_result_bind].
    intros [= <-]. cbn. by rewrite (IH ss).
Qed.

(** ** Texts of the logic compiler *)

(** Induction on a value that reaches the elements of lists and the
    entries of objects. *)
Lemma pyval_nested_ind (P : pyval → Prop) :
  P PNone → (∀ b, P (PBool b)) → (∀ n, P (PInt n)) → (∀ r, P (PFloat r)) →
  (∀ s, P (PStr s)) →
  (∀ l, Forall P l → P (PList l)) →
  (∀ l, Forall P l → P (PTuple l)) →
  (∀ d, Forall (λ kv, P kv.2) d → P (PDict d)) →
  ∀ v, P v.
Proof.
  intros HNone HBool HInt HFloat HStr HList HTuple HDict.
  fix IH 1.
  intros [|b|n|r|s|l|l|d];
    [exact HNone|exact (HBool b)|exact (HInt n)|exact (HFloat r)|exact (HStr s)| | |].
  - apply HList. induction l as [|v l IHl]; constructor; [apply IH|apply IHl].
  - apply HTuple. induction l as [|v l IHl]; constructor; [apply IH|apply IHl].
  - apply HDict. induction d as [|[k v] d IHd]; constructor; [apply IH|apply IHd].
Qed.

Lemma valid_comparison_inv self value body :
  is_valid_comparison self value body = Return true →
  ∃ comparator operand valuetype,
    py_first body = Return (PStr comparator)
    ∧ comparator ∈ COMPARISON self ++ SPECIAL_COMPARISON self
    ∧ py_getitem body (PStr comparator) = Return operand
    ∧ ALLOWED_COLUMNS self !! value = Some valuetype
    ∧ (is_valid_value self operand valuetype = Return true
       ∨ is_special_comparison self (PStr comparator) operand valuetype = Return true).
Proof.
  unfold is_valid_comparison.
  destruct (py_first body) as [comparator|] eqn:Hfirst; [|done].
  cbn [mbind py_result_bind].
  destruct (py_in comparator (COMPARISON self)) eqn:Hsimple;
    [|destruct (py_in comparator (SPECIAL_COMPARISON self)) eqn:Hspecial];
    cbn [negb andb]; [| |done].
  all: assert (∃ s, comparator = PStr s ∧ s ∈ COMPARISON self ++ SPECIAL_COMPARISON self)
         as (s & -> & Hs)
         by (first [apply py_in_inv in Hsimple as (s & -> & ?)
                   |apply py_in_inv in Hspecial as (s & -> & ?)];
             exists s; split; [done|]; apply elem_of_app; auto).
  all: destruct (py_getitem body (PStr s)) as [operand|] eqn:Hoperand; [|done];
       cbn [mbind py_result_bind]; unfold column_type;
       destruct (ALLOWED_COLUMNS self !! value) as [valuetype|] eqn:Htype; [|done];
       cbn [mbind py_result_bind];
       destruct (is_valid_value self operand valuetype) as [[]|] eqn:Hvalue; [| |done];
       cbn [mbind py_result_bind]; intros Hspec;
       exists s, operand, valuetype; repeat split; try done; [by left|].
  all: destruct (is_special_comparison self (PStr s) operand valuetype) as [[]|];
       try done; by right.
Qed.

Lemma compile_comparison_whitelisted self value body sql params :
  is_valid_comparison self value body = Return true →
  compile_comparison self value body = Return (RTrue sql params) →
  whitelisted_logic self sql.
Proof.
  intros (comparator & operand & valuetype & Hfirst & Hcomparator & Hoperand & Htype & Hvalid)
    %valid_comparison_inv.
  assert (Hcolumn : is_Some (ALLOWED_COLUMNS self !! value)) by eauto.
  unfold compile_comparison. rewrite Hfirst. cbn [mbind py_result_bind].
  rewrite Hoperand. cbn [mbind py_result_bind]. rewrite !py_in_str, sql_comparator_str.
  destruct (bool_decide (comparator ∈ COMPARISON self)) eqn:Hsimple; cbn [andb].
  { apply bool_decide_eq_true in Hsimple.
    destruct (is_another_column self operand) eqn:Hother; cbn [negb andb].
    - intros [= <- <-].
      apply is_another_column_inv in Hother as (other & -> & Hother).
      by apply wl_column.
    - destruct (is_dict operand) eqn:Hdict; cbn [negb]; [|by intros [= <- <-]; apply wl_placeholder].
      destruct operand as [| | | | | | |d]; try done.
      destruct d as [|[k x] d]; [done|].
      cbn [py_first py_list fmap list_fmap fst mbind py_result_bind].
      rewrite py_in_str. unfold py_getitem. rewrite dict_get_head.
      destruct Hvalid as [Hvalid|Hvalid]; [|done].
      revert Hvalid. unfold is_valid_value, is_valid_aggregate.
      cbn [is_dict negb py_first py_list fmap list_fmap fst mbind py_result_bind].
      unfold py_getitem. rewrite dict_get_head. cbn [mbind py_result_bind].
      rewrite py_in_str.
      destruct (bool_decide (k ∈ AGGREGATES self)) eqn:Hagg; cbn [negb]; [|done].
      intros [= Hcol]. apply is_another_column_inv in Hcol as (arg & -> & Harg).
      apply bool_decide_eq_true in Hagg.
      cbn [mbind py_result_bind py_str]. intros [= <- <-].
      by apply wl_aggregate. }
  destruct (py_first operand) as [first|] eqn:Hopfirst; [|done].
  cbn [mbind py_result_bind].
  destruct (py_in first (AGGREGATES self)) eqn:Hagg.
  { apply py_in_inv in Hagg as (f & -> & Hf).
    destruct operand as [| | | | | | |d]; try done.
    destruct d as [|[k x] d]; [done|].
    revert Hopfirst. cbn [py_first py_list fmap list_fmap fst mbind py_result_bind].
    intros [= ->]. unfold py_getitem. rewrite dict_get_head.
    destruct Hvalid as [Hvalid|Hvalid]; [|done].
    revert Hvalid. unfold is_valid_value, is_valid_aggregate.
    cbn [is_dict negb py_first py_list fmap list_fmap fst mbind py_result_bind].
    unfold py_getitem. rewrite dict_get_head. cbn [mbind py_result_bind].
    rewrite py_in_str, (bool_decide_eq_true_2 _ Hf). cbn [negb].
    intros [= Hcol]. apply is_another_column_inv in Hcol as (arg & -> & Harg).
    cbn [mbind py_result_bind py_str]. intros [= <- <-].
    by apply wl_aggregate. }
  destruct (bool_decide (comparator ∈ SPECIAL_COMPARISON self)); [|done].
  destruct (py_eq_str (PStr comparator) "BETWEEN").
  { destruct (py_list operand); [|done]. cbn [mbind py_result_bind].
    intros [= <- <-]. by apply wl_between. }
  destruct (py_eq_str (PStr comparator) "IN"); [|done].
  destruct (py_len operand); [|done]. cbn [mbind py_result_bind].
  destruct (py_list operand); [|done]. cbn [mbind py_result_bind].
  intros [= <- <-]. by apply wl_in.
Qed.

Lemma parse_cases_inl parse cases safe :
  parse_cases parse cases = Return (inl safe) → ∃ reason, safe = RFalse reason.
Proof.
  revert safe. induction cases as [|case cases IH]; intros safe; cbn [parse_cases]; [done|].
  destruct (parse case) as [[reason|sql params|]|]; cbn [mbind py_result_bind]; try done.
  - intros [= <-]. eauto.
  - destruct (parse_cases parse cases) as [[safe'|data]|]; cbn [mbind py_result_bind];
      try done.
    intros [= <-]. eauto.
Qed.

Lemma parse_cases_inr self cases data :
  Forall (λ case, ∀ sql params,
            logic_parse self case = Return (RTrue sql params) → whitelisted_logic self sql)
         cases →
  parse_cases (logic_parse self) cases = Return (inr data) →
  Forall (whitelisted_logic self) (fst <$> data).
Proof.
  intros Hcases. revert data.
  induction Hcases as [|case cases Hcase _ IH]; intros data; cbn [parse_cases].
  - intros [= <-]. constructor.
  - destruct (logic_parse self case) as [[reason|sql params|]|]; cbn [mbind py_result_bind];
      try done.
    destruct (parse_cases (logic_parse self) cases) as [[safe'|data']|];
      cbn [mbind py_result_bind]; try done.
    intros [= <-]. cbn. constructor; eauto.
Qed.

Lemma logic_parse_whitelisted self json_input sql params :
  logic_parse self json_input = Return (RTrue sql params) →
  whitelisted_logic self sql.
Proof.
  revert sql params.
  enough (Hboth :
    (∀ sql params,
       logic_parse self json_input = Return (RTrue sql params) → whitelisted_logic self sql)
    ∧ (∀ children, json_input = PList children →
         Forall (λ case, ∀ sql params,
                   logic_parse self case = Return (RTrue sql params) →
                   whitelisted_logic self sql) children)) by apply Hboth.
  induction json_input as [| | | | |l IH|l IH|d IH] using pyval_nested_ind;
    (split; [|try done]).
  1-5: try done.
  - by destruct s.
  - by destruct l.
  - intros children [= <-]. eapply Forall_impl; [exact IH|]. by intros ? [? _].
  - by destruct l.
  - destruct d as [|[value body] d]; [done|].
    intros sql params. rewrite logic_parse_node. unfold parse_node.
    destruct (negb _); [done|].
    destruct (bool_decide (value ∈ LOGICAL self) && negb (is_list body)); [done|].
    destruct (bool_decide (is_Some (ALLOWED_COLUMNS self !! value))).
    + destruct (is_valid_comparison self value body) as [[]|] eqn:Hvalid;
        cbn [mbind py_result_bind negb]; [| |done].
      * by apply compile_comparison_whitelisted.
      * by intros [? [=]]%bad_comparison_fails.
    + cbn [mbind py_result_bind].
      destruct (is_valid_comparison self value body) as [[]|] eqn:Hvalid;
        cbn [mbind py_result_bind]; [| |done].
      * by apply compile_comparison_whitelisted.
      * case_bool_decide as Hconnector; [|done].
        destruct body as [| | | | |children| |]; try done.
        case_decide; [done|].
        destruct (parse_cases (logic_parse self) children) as [[safe|data]|] eqn:Hrun;
          cbn [mbind py_result_bind]; [| |done].
        -- apply parse_cases_inl in Hrun as [reason ->]. done.
        -- intros [= <- <-]. apply wl_logical; [done|].
           eapply parse_cases_inr; [|done].
           apply Forall_cons_1 in IH as [[_ IH] _]. by apply IH.
Qed.

Lemma getitem_dict (j : dict) k v :
  dict_get j k = Some v → py_getitem (PDict j) (PStr k) = Return v.
Proof. intros Hget. unfold py_getitem. by rewrite Hget. Qed.

Lemma assemble_inv self j query table items' o st' :
  dict_get j "query" = Some (PStr query) →
  dict_get j "table" = Some (PStr table) →
  dict_get j "items" = Some (PList items') →
  (dict_get j "connection" = None
   ∨ ∃ connection, dict_get j "connection" = Some (PStr connection)
                   ∧ connection ∈ ALLOWED_CONNECTIONS self) →
  assemble (Store self j) = (o, st') →
  st' = Store self j
  ∧ match o with
    | Next _ | Returned RNone => False
    | Returned (RTrue sql params) =>
        ∃ texts,
          items' = PStr <$> texts
          ∧ let sql_string :=
              query +:+ " " +:+ String.concat "," texts +:+ " FROM " +:+ table in
            sql = sql_string
            ∨ ∃ connection logic,
                connection ∈ ALLOWED_CONNECTIONS self
                ∧ whitelisted_logic self logic
                ∧ sql = sql_string +:+ " " +:+ connection +:+ " " +:+ logic
    | _ => True
    end.
Proof.
  intros Hquery Htable Hitems Hconnection. unfold assemble.
  rewrite bind_get_self, bind_get_json_input. cbn [st_self st_json_input].
  rewrite (getitem_dict _ _ _ Hquery), (getitem_dict _ _ _ Hitems),
    (getitem_dict _ _ _ Htable), !bind_eval.
  unfold py_join. cbn [py_list mbind py_result_bind].
  destruct (py_join_strs items') as [texts|] eqn:Htexts; cbn [mbind py_result_bind];
    [|by stmt_done].
  apply py_join_strs_inv in Htexts as ->. rewrite bind_eval. cbn [py_str].
  unfold dict_has, py_getitem.
  destruct (dict_get j "logic") as [logic|]; [|stmt_done; split; [done|]; eauto].
  rewrite !bind_eval.
  destruct (logic_parse self logic) as [[reason|sql params|]|] eqn:Hlogic;
    try (by stmt_done).
  apply logic_parse_whitelisted in Hlogic.
  rewrite bind_eval.
  destruct Hconnection as [->|(connection & -> & Hconnection)]; [by stmt_done|].
  stmt_done. split; [done|]. exists texts. split; [done|]. right.
  by exists connection, sql.
Qed.

Lemma call_inv body st o st' :
  call body st = (o, st') →
  ∃ o', body st = (o', st')
        ∧ o = match o' with
              | Next _ => Return RNone
              | Returned r => Return r
              | Raised e => Raise e
              end.
Proof.
  unfold call. destruct (body st) as [[?|?|?] ?]; intros ?; simplify_eq; eauto.
Qed.

(** What a call of [sql_parse] leaves in the store, and what a success
    tells about the request. *)
Lemma sql_parse_inv self j o st' :
  sql_parse (Store self j) = (o, st') →
  (st' = Store self j ∧ ∀ sql params, o ≠ Return (RTrue sql params))
  ∨ ∃ query table items items',
      dict_get j "query" = Some (PStr query)
      ∧ dict_get j "table" = Some (PStr table)
      ∧ dict_get j "items" = Some (PList items)
      ∧ query ∈ ALLOWED_QUERIES self
      ∧ is_Some (ALLOWED_TABLES self !! table)
      ∧ st' = Store self (dict_set j "items" (PList items'))
      ∧ Forall2 (rewritten self table) items items'
      ∧ ∀ sql params,
          o = Return (RTrue sql params) →
          Forall2 (accepted self table) items items'
          ∧ ∃ texts,
              items' = PStr <$> texts
              ∧ let sql_string :=
                  query +:+ " " +:+ String.concat "," texts +:+ " FROM " +:+ table in
                sql = sql_string
                ∨ ∃ connection logic,
                    connection ∈ ALLOWED_CONNECTIONS self
                    ∧ whitelisted_logic self logic
                    ∧ sql = sql_string +:+ " " +:+ connection +:+ " " +:+ logic.
Proof.
  intros (o' & Hbody & ->)%call_inv. revert Hbody. unfold sql_parse_body.
  intros [(u & st1 & Hreq & Hrun)|[(r & Hreq & ->)|(e & Hreq & ->)]]%stmt_bind_inv;
    apply check_required_inv in Hreq as [-> Hreq];
    [|left; split; [done|]; by destruct r|left; by split].
  destruct Hreq as (query & items & table & Hquery & Hitems & Htable).
  revert Hrun.
  intros [(u1 & st1 & Hqt & Hrun)|[(r & Hqt & ->)|(e & Hqt & ->)]]%stmt_bind_inv;
    apply (check_query_table_inv _ _ query table) in Hqt as [-> Hqt]; try done;
    [|left; split; [done|]; by destruct r|left; by split].
  destruct Hqt as [Hq Ht].
  right. exists query, table, items.
  revert Hrun.
  intros [(u2 & st1 & Hloop & Hrun)|[(r & Hloop & ->)|(e & Hloop & ->)]]%stmt_bind_inv;
    apply (check_all_items_inv _ _ table items) in Hloop as (items' & -> & Hrewritten & Hloop);
    try done; exists items';
    [|repeat split; try done; by destruct r|by repeat split].
  assert (Hquery' : dict_get (dict_set j "items" (PList items')) "query" = Some (PStr query))
    by (by rewrite dict_get_set_ne).
  assert (Htable' : dict_get (dict_set j "items" (PList items')) "table" = Some (PStr table))
    by (by rewrite dict_get_set_ne).
  assert (Hitems' : dict_get (dict_set j "items" (PList items')) "items" = Some (PList items'))
    by (by rewrite dict_get_set_eq).
  revert Hrun.
  intros [(u3 & st1 & Hconn & Hrun)|[(r & Hconn & ->)|(e & Hconn & ->)]]%stmt_bind_inv;
    apply check_connection_inv in Hconn as [-> Hconn];
    [|repeat split; try done; by destruct r|by repeat split].
  apply (assemble_inv _ _ query table items') in Hrun as [-> Hrun]; try done.
  repeat split; try done.
  destruct o' as [?|[]|]; by simplify_eq.
Qed.

(** ** The store after a call *)

(** Statements that leave the store as it is. *)
Lemma reads_bind {A B} (m : stmt A) (f : A → stmt B) :
  reads m → (∀ a, reads (f a)) → reads (m ≫= f).
Proof.
  intros Hm Hf st. unfold mbind, stmt_bind. specialize (Hm st).
  destruct (m st) as [[a|r|e] st1]; cbn [snd] in Hm; subst; [apply Hf|done|done].
Qed.

Lemma reads_eval {A} (m : py_result A) : reads (eval m).
Proof. intros st. by destruct m. Qed.

Lemma reads_item_allowed x : reads (item_allowed x).
Proof.
  unfold item_allowed.
  apply reads_bind; [done|intros self]. apply reads_bind; [done|intros json_input].
  destruct (py_in x (ALLOWED_ITEMS self)); [done|].
  apply reads_bind; [apply reads_eval|intros table].
  apply reads_bind; [apply reads_eval|intros columns]. done.
Qed.

Lemma reads_check_required inputs : reads (check_required inputs).
Proof.
  induction inputs as [|[input_name expected_type] inputs IH]; [done|].
  cbn [check_required]. apply reads_bind; [done|intros json_input].
  destruct (negb (dict_has json_input input_name)); [done|].
  apply reads_bind; [apply reads_eval|intros v].
  by destruct (negb (isinstance_class v expected_type)).
Qed.

Lemma reads_check_query_table : reads check_query_table.
Proof.
  unfold check_query_table.
  apply reads_bind; [done|intros self]. apply reads_bind; [done|intros json_input].
  apply reads_bind; [apply reads_eval|intros query].
  destruct (negb (py_in query (ALLOWED_QUERIES self))); [done|].
  apply reads_bind; [apply reads_eval|intros table].
  by destruct (negb _).
Qed.

Lemma reads_check_connection : reads check_connection.
Proof.
  unfold check_connection.
  apply reads_bind; [done|intros self]. apply reads_bind; [done|intros json_input].
  destruct (dict_has json_input "connection"); [|done].
  apply reads_bind; [apply reads_eval|intros connection].
  by destruct (negb _).
Qed.

Lemma reads_assemble : reads assemble.
Proof.
  unfold assemble.
  apply reads_bind; [done|intros self]. apply reads_bind; [done|intros json_input].
  apply reads_bind; [apply reads_eval|intros query].
  apply reads_bind; [apply reads_eval|intros items].
  apply reads_bind; [apply reads_eval|intros joined].
  apply reads_bind; [apply reads_eval|intros table].
  destruct (dict_has json_input "logic"); [|done].
  apply reads_bind; [apply reads_eval|intros logic].
  apply reads_bind; [apply reads_eval|intros [reason|sql params|]]; [done| |apply reads_eval].
  apply reads_bind; [apply reads_eval|intros connection]. done.
Qed.

(** On a request with a list of its own the shared store adds nothing. *)
Lemma agrees_reading {A} (m : stmt A) : agrees m (reading m).
Proof.
  intros [self j]. unfold reading, own.
  cbn [sh_self sh_json_input sh_items st_self st_json_input].
  by destruct (m (Store self j)) as [o [self' j']].
Qed.

Lemma agrees_bind {A B} (m : stmt A) (ms : shared_stmt A)
    (f : A → stmt B) (fs : A → shared_stmt B) :
  agrees m ms → (∀ a, agrees (f a) (fs a)) → agrees (m ≫= f) (ms ≫= fs).
Proof.
  intros Hm Hf st. unfold mbind, shared_bind, stmt_bind. rewrite Hm.
  destruct (m st) as [[a|r|e] st1]; [apply Hf|done|done].
Qed.

Lemma agrees_setitem_items index text :
  agrees (setitem_items index (PStr text)) (setitem_items_shared index text).
Proof.
  intros [self j]. unfold setitem_items, setitem_items_shared, own.
  cbn [st_self st_json_input sh_self sh_json_input sh_items].
  destruct (dict_get j "items") as [[]|]; try done. by case_decide.
Qed.

Lemma agrees_check_item index item :
  agrees (check_item index item) (check_item_shared index item).
Proof.
  unfold check_item, check_item_shared.
  apply agrees_bind; [apply agrees_reading|intros self].
  apply agrees_bind; [apply agrees_reading|intros []]; [done|].
  apply agrees_bind; [apply agrees_reading|intros []]; [|apply agrees_reading].
  apply agrees_bind; [apply agrees_reading|intros aggregate_function].
  apply agrees_bind; [apply agrees_reading|intros aggregate_argument].
  apply agrees_bind; [apply agrees_reading|intros []]; [|apply agrees_reading].
  apply agrees_setitem_items.
Qed.

Lemma agrees_check_items items :
  ∀ index, agrees (check_items index items) (check_items_shared index items).
Proof.
  induction items as [|item items IH]; intros index; [done|].
  cbn [check_items check_items_shared].
  apply agrees_bind; [apply agrees_check_item|intros _; apply IH].
Qed.

Lemma sql_parse_shared_own st :
  sql_parse_shared (own st) = let '(o, st') := sql_parse st in (o, own st').
Proof.
  assert (Hbody : agrees sql_parse_body sql_parse_body_shared).
  { unfold sql_parse_body, sql_parse_body_shared.
    apply agrees_bind; [apply agrees_reading|intros _].
    apply agrees_bind; [apply agrees_reading|intros _].
    apply agrees_bind; [|intros _].
    { unfold check_all_items, check_all_items_shared.
      apply agrees_bind; [apply agrees_reading|intros json_input].
      apply agrees_bind; [apply agrees_reading|intros items].
      apply agrees_bind; [apply agrees_reading|intros entries].
      apply agrees_check_items. }
    apply agrees_bind; [apply agrees_reading|intros _]. apply agrees_reading. }
  unfold sql_parse_shared, sql_parse, call. rewrite Hbody.
  by destruct (sql_parse_body st) as [[]].
Qed.

(** On a list of the policy nothing is written: its entries are no
    objects, and the loop writes over objects only. *)
Lemma shared_bind_keeps {A B} (m : shared_stmt A) (f : A → shared_stmt B) sh :
  (m sh).2 = sh → (∀ a, (m sh).1 = Next a → (f a sh).2 = sh) →
  ((m ≫= f) sh).2 = sh.
Proof.
  intros Hm Hf. unfold mbind, shared_bind.
  destruct (m sh) as [[a|r|e] sh1]; cbn [fst snd] in *; subst; [by apply Hf|done|done].
Qed.

Lemma reading_keeps {A} (m : stmt A) sh : reads m → (reading m sh).2 = sh.
Proof.
  intros Hm. destruct sh as [self j object]. unfold reading.
  cbn [sh_self sh_json_input sh_items]. specialize (Hm (Store self j)).
  destruct (m (Store self j)) as [o st]. cbn [snd] in *. by subst.
Qed.

Lemma reading_eval_value {A} (m : py_result A) sh a :
  (reading (eval m) sh).1 = Next a → m = Return a.
Proof. unfold reading, eval. destruct m; cbn; congruence. Qed.

Lemma check_item_shared_keeps index item sh :
  is_dict item = false → (check_item_shared index item sh).2 = sh.
Proof.
  intros Hdict. unfold check_item_shared.
  apply shared_bind_keeps; [by apply reading_keeps|intros self _].
  apply shared_bind_keeps; [apply reading_keeps, reads_item_allowed|intros [] _]; [done|].
  apply shared_bind_keeps; [apply reading_keeps, reads_eval|intros is_aggregate Hvalue].
  apply reading_eval_value in Hvalue. unfold is_aggregate_item in Hvalue.
  rewrite Hdict in Hvalue. injection Hvalue as <-. by apply reading_keeps.
Qed.

Lemma check_items_shared_keeps items :
  ∀ index sh,
    Forall (λ item, is_dict item = false) items →
    (check_items_shared index items sh).2 = sh.
Proof.
  induction items as [|item items IH]; intros index sh; [done|].
  intros [Hitem Hitems]%Forall_cons_1. cbn [check_items_shared].
  apply shared_bind_keeps; [by apply check_item_shared_keeps|intros _ _]. by apply IH.
Qed.

Lemma shared_list_holds_no_object sh :
  shares sh → sh_items sh ≠ OwnList →
  ∃ items,
    dict_get (sh_json_input sh) "items" = Some (PList items)
    ∧ Forall (λ item, is_dict item = false) items.
Proof.
  unfold shares. destruct (sh_items sh); [by intros _ []|..]; intros Hshares _.
  1-3: eexists; split; [exact Hshares|]; by apply Forall_fmap, Forall_true.
  destruct Hshares as (columns & _ & Hitems). eexists. split; [exact Hitems|].
  apply Forall_fmap, Forall_true. by intros [].
Qed.

Lemma shared_call_keeps sh :
  shares sh → sh_items sh ≠ OwnList → (sql_parse_shared sh).2 = sh.
Proof.
  intros Hshares Hshared.
  destruct (shared_list_holds_no_object sh Hshares Hshared) as (items & Hitems & Hnone).
  enough (Hbody : (sql_parse_body_shared sh).2 = sh).
  { unfold sql_parse_shared. by destruct (sql_parse_body_shared sh) as [[] ?]. }
  unfold sql_parse_body_shared.
  apply shared_bind_keeps; [apply reading_keeps, reads_check_required|intros _ _].
  apply shared_bind_keeps; [apply reading_keeps, reads_check_query_table|intros _ _].
  apply shared_bind_keeps; [|intros _ _].
  { unfold check_all_items_shared.
    apply shared_bind_keeps; [by apply reading_keeps|intros json_input Hinput].
    assert (json_input = sh_json_input sh) as ->.
    { destruct sh. cbn in Hinput. by injection Hinput. }
    apply shared_bind_keeps; [apply reading_keeps, reads_eval|intros value Hvalue].
    apply reading_eval_value in Hvalue.
    rewrite (getitem_dict _ _ _ Hitems) in Hvalue. injection Hvalue as <-.
    apply shared_bind_keeps; [apply reading_keeps, reads_eval|intros entries Hentries].
    apply reading_eval_value in Hentries. injection Hentries as <-.
    by apply check_items_shared_keeps. }
  apply shared_bind_keeps; [apply reading_keeps, reads_check_connection|intros _ _].
  apply reading_keeps, reads_assemble.
Qed.

(** C9: a call of [sql_parse] leaves the policy object as it was, field by
    field, whatever the request and whatever the outcome, also when the
    request's items are one of the policy's own lists: the one assignment
    of the method writes over an aggregate node, a list of the policy
    holds none, and a list of the request's own is no part of the policy.
    [logic_parse] holds no assignment to an object it did not create; it
    is a function of the policy and the node, and run as a statement it
    leaves the store as it was. *)
Theorem policy_is_never_written sh :
  shares sh →
  sh_self (sql_parse_shared sh).2 = sh_self sh
  ∧ ∀ node, (reading (eval (logic_parse (sh_self sh) node)) sh).2 = sh.
Proof.
  intros Hshares. split; [|intros node; apply reading_keeps, reads_eval].
  destruct (sh_items sh) eqn:Hobject;
    [|by rewrite shared_call_keeps by (done || by rewrite Hobject)..].
  destruct sh as [self j object]. cbn [sh_items] in Hobject. subst object.
  change (Shared self j OwnList) with (own (Store self j)).
  rewrite sql_parse_shared_own.
  destruct (sql_parse (Store self j)) as [o st'] eqn:Hrun.
  by apply sql_parse_inv in Hrun as [[-> _]|(? & ? & ? & ? & _ & _ & _ & _ & _ & -> & _)].
Qed.

Lemma policy_is_never_written_witness :
  let sh := Shared aggregate_policy
              (select_request "SELECT" [PStr "*"; PStr "userID"] "images") ItemsList in
  sh_self (sql_parse_shared sh).2 = sh_self sh
  ∧ ∀ node, (reading (eval (logic_parse (sh_self sh) node)) sh).2 = sh.
Proof.
  intros sh. apply (policy_is_never_written sh). reflexivity.
Defined.

(** The hypothesis is used.  On a store that calls the request's list a
    list of the policy while the request holds an aggregate node there,
    the assignment lands on the policy. *)
Lemma write_reaches_a_shared_list :
  ALLOWED_ITEMS (sh_self (sql_parse_shared
                            (Shared aggregate_policy aggregate_request ItemsList)).2)
  = ["MAX(userID)"; "userID"].
Proof. vm_compute. reflexivity. Qed.

Lemma rewritten_not_dict self table items items' :
  Forall (λ item, is_dict item = false) items →
  Forall2 (rewritten self table) items items' →
  items' = items.
Proof.
  intros Hnone Hall. induction Hall as [|item item' items items' Hone _ IH]; [done|].
  apply Forall_cons_1 in Hnone as [Hitem Hnone]. rewrite IH by done.
  destruct Hone as [->|[Hdict _]]; [done|congruence].
Qed.

(** C6, amended: [sql_parse] rewrites the aggregate nodes of the request's
    items list in place and touches nothing else.  On a request whose items
    list holds no aggregate node (no object) the store is left as it was,
    and a second call on the same request returns what the first
    returned. *)
Theorem sql_parse_repeatable_without_aggregates self j :
  (∀ items, dict_get j "items" = Some (PList items) →
            Forall (λ item, is_dict item = false) items) →
  (sql_parse (Store self j)).2 = Store self j
  ∧ (sql_parse (sql_parse (Store self j)).2).1 = (sql_parse (Store self j)).1.
Proof.
  intros Hnone.
  assert (Hstore : (sql_parse (Store self j)).2 = Store self j).
  { destruct (sql_parse (Store self j)) as [o st'] eqn:Hrun. cbn [snd].
    apply sql_parse_inv in Hrun
      as [[-> _]|(? & table & items & items' & _ & _ & Hitems & _ & _ & -> & Hall & _)];
      [done|].
    rewrite (rewritten_not_dict _ _ _ _ (Hnone _ Hitems) Hall).
    by rewrite dict_set_same. }
  split; [done|]. by rewrite Hstore.
Qed.

Lemma sql_parse_repeatable_without_aggregates_witness :
  (sql_parse (Store scenario_policy scenario_request)).2
  = Store scenario_policy scenario_request
  ∧ (sql_parse (sql_parse (Store scenario_policy scenario_request)).2).1
    = (sql_parse (Store scenario_policy scenario_request)).1.
Proof.
  apply sql_parse_repeatable_without_aggregates.
  intros items [= <-]. by repeat constructor.
Defined.

(** C6 as stated fails: with an aggregate node among the items the first
    call succeeds and rewrites the node to its rendered form, which the
    second call on the same request does not find in the whitelist. *)
Lemma second_call_on_aggregate_request_differs :
  (sql_parse (Store aggregate_policy aggregate_request)).1
  = Return (RTrue "SELECT MAX(userID) FROM images" [])
  ∧ st_json_input (sql_parse (Store aggregate_policy aggregate_request)).2
    = select_request "SELECT" [PStr "MAX(userID)"] "images"
  ∧ (sql_parse (sql_parse (Store aggregate_policy aggregate_request)).2).1
    = Return (RFalse "Item not allowed - MAX(userID)").
Proof. repeat split; vm_compute; reflexivity. Qed.

(** ** Items and the per-table column list *)

Lemma accepted_str self table c item' :
  accepted self table (PStr c) item' → permitted self table (PStr c).
Proof. by intros [[? _]|[? _]]. Qed.

Lemma bind_Next {A B} (m : stmt A) (f : A → stmt B) st a st' :
  m st = (Next a, st') → (m ≫= f) st = f a st'.
Proof. intros Hm. unfold mbind, stmt_bind. by rewrite Hm. Qed.

Lemma listed_item_request_succeeds self query (c : string) table :
  query ∈ ALLOWED_QUERIES self → is_Some (ALLOWED_TABLES self !! table) →
  c ∈ ALLOWED_ITEMS self →
  sql_parse (Store self (select_request query [PStr c] table))
  = (Return (RTrue (query +:+ " " +:+ c +:+ " FROM " +:+ table) []),
     Store self (select_request query [PStr c] table)).
Proof.
  intros Hquery Htable Hc. unfold sql_parse, call, sql_parse_body.
  set (st := Store self (select_request query [PStr c] table)).
  assert (Hrequired : check_required required_inputs st = (Next (), st)).
  { unfold required_inputs. by rewrite !check_required_step. }
  assert (Hqt : check_query_table st = (Next (), st)).
  { unfold check_query_table. rewrite bind_get_self, bind_get_json_input.
    change (py_getitem _ (PStr "query")) with (Return (PStr query)).
    change (py_getitem _ (PStr "table")) with (Return (PStr table)).
    rewrite bind_eval, py_in_str, (bool_decide_eq_true_2 _ Hquery). cbn [negb].
    by rewrite bind_eval, (bool_decide_eq_true_2 _ Htable). }
  assert (Hallowed : item_allowed (PStr c) st = (Next true, st)).
  { unfold item_allowed. rewrite bind_get_self, bind_get_json_input.
    by rewrite py_in_str, (bool_decide_eq_true_2 _ Hc). }
  assert (Hitem : check_item 0 (PStr c) st = (Next (), st)).
  { unfold check_item. by rewrite bind_get_self, (bind_Next _ _ _ _ _ Hallowed). }
  assert (Hloop : check_all_items st = (Next (), st)).
  { unfold check_all_items. rewrite bind_get_json_input.
    change (py_getitem _ (PStr "items")) with (Return (PList [PStr c])).
    rewrite !bind_eval. cbn [py_list check_items].
    by rewrite (bind_Next _ _ _ _ _ Hitem). }
  assert (Hconnection : check_connection st = (Next (), st)).
  { unfold check_connection. by rewrite bind_get_self, bind_get_json_input. }
  rewrite (bind_Next _ _ _ _ _ Hrequired), (bind_Next _ _ _ _ _ Hqt),
    (bind_Next _ _ _ _ _ Hloop), (bind_Next _ _ _ _ _ Hconnection).
  unfold assemble. rewrite bind_get_self, bind_get_json_input.
  change (py_getitem _ (PStr "query")) with (Return (PStr query)).
  change (py_getitem _ (PStr "table")) with (Return (PStr table)).
  change (py_getitem _ (PStr "items")) with (Return (PList [PStr c])).
  rewrite !bind_eval.
  change (dict_has _ "logic") with false. cbn.
  by rewrite bind_eval.
Qed.

(** C5, amended: for a table whose permitted-column list is empty, or
    [[None]] as stored for a bare table name, a column name is accepted as
    an entry of [items] only through [allowed_items]: a request whose items
    hold a name outside [allowed_items] never succeeds, and the request
    [{query, items: [c], table}] with an allowed query and [c] in
    [allowed_items] succeeds with the text [query c FROM table]. *)
Theorem empty_column_list_permits_no_column self table columns (c : string) :
  ALLOWED_TABLES self !! table = Some columns →
  columns = [] ∨ columns = [None] →
  (c ∉ ALLOWED_ITEMS self →
   ∀ j items, dict_get j "table" = Some (PStr table) →
              dict_get j "items" = Some (PList items) →
              PStr c ∈ items →
              ∀ sql params, (sql_parse (Store self j)).1 ≠ Return (RTrue sql params))
  ∧ (c ∈ ALLOWED_ITEMS self →
     ∀ query, query ∈ ALLOWED_QUERIES self →
              (sql_parse (Store self (select_request query [PStr c] table))).1
              = Return (RTrue (query +:+ " " +:+ c +:+ " FROM " +:+ table) [])).
Proof.
  intros Htable Hcolumns. split.
  - intros Hc j items Hjtable Hjitems Hin sql params Hrun.
    destruct (sql_parse (Store self j)) as [o st'] eqn:Hparse. cbn [fst] in Hrun. subst o.
    apply sql_parse_inv in Hparse
      as [[_ Hno]|(? & table' & items0 & items' & _ & Htable' & Hitems' & _ & _ & _ & _ & Hok)].
    { by eapply Hno. }
    simplify_eq. destruct (Hok _ _ eq_refl) as [Hall _].
    apply list_elem_of_lookup in Hin as [index Hin].
    destruct (Forall2_lookup_l _ _ _ _ _ Hall Hin) as (item' & _ & Hitem).
    apply accepted_str in Hitem as [Hitem|(columns' & Hcolumns' & Hitem)].
    + by apply bool_decide_eq_true in Hitem.
    + simplify_eq. cbn in Hitem. apply bool_decide_eq_true in Hitem.
      destruct Hcolumns as [->| ->].
      * by apply elem_of_nil in Hitem.
      * by apply list_elem_of_singleton in Hitem.
  - intros Hc query Hquery.
    by rewrite listed_item_request_succeeds by eauto.
Qed.

Lemma empty_column_list_permits_no_column_witness :
  (∀ sql params,
     (sql_parse (Store scenario_policy (select_request "SELECT" [PStr "creature"] "images"))).1
     ≠ Return (RTrue sql params))
  ∧ (sql_parse (Store bare_table_policy (select_request "SELECT" [PStr "*"] "images"))).1
    = Return (RTrue ("SELECT" +:+ " " +:+ "*" +:+ " FROM " +:+ "images") []).
Proof.
  split.
  - intros sql params.
    refine (proj1 (empty_column_list_permits_no_column scenario_policy "images" []
                     "creature" _ _) _ _ [PStr "creature"] _ _ _ sql params).
    + vm_compute. reflexivity.
    + by left.
    + cbn. by intros ?%list_elem_of_singleton.
    + reflexivity.
    + reflexivity.
    + by left.
  - refine (proj2 (empty_column_list_permits_no_column bare_table_policy "images" [None]
                     "*" _ _) _ "SELECT" _).
    + vm_compute. reflexivity.
    + by right.
    + by left.
    + by left.
Defined.

(** C5 as stated fails: a column declared in [allowed_columns] is refused
    as an item of a table registered with an empty column list, and of a
    table registered as a bare name. *)
Lemma declared_column_is_refused_as_item :
  is_Some (ALLOWED_COLUMNS scenario_policy !! "creature")
  ∧ ALLOWED_TABLES scenario_policy !! "images" = Some []
  ∧ (sql_parse (Store scenario_policy (select_request "SELECT" [PStr "creature"] "images"))).1
    = Return (RFalse "Item not allowed - creature")
  ∧ ALLOWED_TABLES bare_table_policy !! "images" = Some [None]
  ∧ (sql_parse (Store bare_table_policy (select_request "SELECT" [PStr "creature"] "images"))).1
    = Return (RFalse "Item not allowed - creature").
Proof. repeat split; try (vm_compute; reflexivity). by eexists. Qed.

(** * Further properties *)

(** ** Comparison nodes *)

Lemma py_getitem_head k v (d : dict) :
  py_getitem (PDict ((k, v) :: d)) (PStr k) = Return v.
Proof. unfold py_getitem. by rewrite dict_get_head. Qed.

Lemma parse_column_node self parse value body :
  is_Some (ALLOWED_COLUMNS self !! value) → value ∉ LOGICAL self →
  parse_node self parse value body
  = (ok ← is_valid_comparison self value body;
     if (ok : bool) then compile_comparison self value body
     else bad_comparison self value body).
Proof.
  intros Hcolumn Hlogical. unfold parse_node, is_value_in_allowed_categories.
  rewrite (bool_decide_eq_true_2 _ Hcolumn), (bool_decide_eq_false_2 _ Hlogical).
  cbn [orb negb andb].
  by destruct (is_valid_comparison self value body) as [[]|].
Qed.

Lemma valid_comparison_known self column comparator operand more valuetype :
  ALLOWED_COLUMNS self !! column = Some valuetype →
  comparator ∈ COMPARISON self ++ SPECIAL_COMPARISON self →
  is_valid_comparison self column (PDict ((comparator, operand) :: more))
  = (ok ← is_valid_value self operand valuetype;
     if (ok : bool) then Return true
     else special ← is_special_comparison self (PStr comparator) operand valuetype;
          if (special : bool) then Return true else Return false).
Proof.
  intros Htype Hknown. unfold is_valid_comparison.
  cbn [py_first py_list fmap list_fmap fst mbind py_result_bind].
  rewrite !py_in_str.
  replace (negb (bool_decide (comparator ∈ COMPARISON self))
           && negb (bool_decide (comparator ∈ SPECIAL_COMPARISON self))) with false.
  2: { apply elem_of_app in Hknown as [H|H]; rewrite (bool_decide_eq_true_2 _ H); cbn;
       by rewrite ?andb_false_r. }
  unfold py_getitem. rewrite dict_get_head. cbn [mbind py_result_bind].
  unfold column_type. by rewrite Htype.
Qed.

Lemma valid_comparison_unknown self column comparator operand more :
  comparator ∉ COMPARISON self ++ SPECIAL_COMPARISON self →
  is_valid_comparison self column (PDict ((comparator, operand) :: more)) = Return false.
Proof.
  intros Hunknown. unfold is_valid_comparison.
  cbn [py_first py_list fmap list_fmap fst mbind py_result_bind].
  rewrite !py_in_str.
  rewrite !bool_decide_eq_false_2; [done|..];
    intros ?; apply Hunknown, elem_of_app; auto.
Qed.

Lemma compile_comparison_head self value comparator operand more :
  compile_comparison self value (PDict ((comparator, operand) :: more))
  = compile_comparison self value (PDict [(comparator, operand)]).
Proof.
  unfold compile_comparison.
  cbn [py_first py_list fmap list_fmap fst mbind py_result_bind].
  unfold py_getitem. by rewrite !dict_get_head.
Qed.

Lemma isinstance_scalar value valuetype :
  isinstance value valuetype = true →
  is_dict value = false ∧ is_list value = false
  ∧ (∀ t, value ≠ PTuple t) ∧ value ≠ PNone.
Proof. by destruct value, valuetype. Qed.

(** X1: a literal operand of the column's declared class, which is not
    itself a column name, is bound as the sole parameter: for a known column
    [c] that is no connector name and a simple comparator [op],
    [{c: {op: v}}] compiles to the text [c op' ?] with the parameters
    [(v,)].  A [bool] counts as an instance of [int]. *)
Theorem literal_operand_is_bound self (c op : string) (v : pyval) valuetype :
  ALLOWED_COLUMNS self !! c = Some valuetype → c ∉ LOGICAL self →
  op ∈ COMPARISON self →
  isinstance v valuetype = true → is_another_column self v = false →
  logic_parse self (comparison_node c op v)
  = Return (RTrue (c +:+ " " +:+ sql_comparator op +:+ " ?") [v]).
Proof.
  intros Htype Hlogical Hop Hinstance Hnocolumn.
  destruct (isinstance_scalar _ _ Hinstance) as (Hdict & Hlist & Htuple & _).
  unfold comparison_node. rewrite logic_parse_node, parse_column_node by eauto.
  rewrite (valid_comparison_known _ _ _ _ _ valuetype)
    by (done || apply elem_of_app; auto).
  unfold is_valid_value. rewrite Hdict, Hlist, Hnocolumn, Hinstance.
  cbn [negb andb mbind py_result_bind].
  unfold compile_comparison.
  cbn [py_first py_list fmap list_fmap fst mbind py_result_bind].
  unfold py_getitem. rewrite dict_get_head. cbn [mbind py_result_bind].
  rewrite py_in_str, (bool_decide_eq_true_2 _ Hop), Hnocolumn, Hdict.
  cbn [negb andb]. rewrite sql_comparator_str.
  destruct v; try done. by destruct (Htuple l).
Qed.

Lemma literal_operand_is_bound_witness :
  logic_parse scenario_policy (comparison_node "userID" "!=" (PBool true))
  = Return (RTrue ("userID" +:+ " " +:+ sql_comparator "!=" +:+ " ?") [PBool true]).
Proof.
  apply (literal_operand_is_bound scenario_policy "userID" "!=" (PBool true) Tint).
  - vm_compute. reflexivity.
  - cbn. by intros [?|[?|?%elem_of_nil]%elem_of_cons]%elem_of_cons.
  - cbn. do 6 right. left.
  - reflexivity.
  - reflexivity.
Defined.

(** X2: an operand that is no object and no list, no column name and no
    instance of the column's declared class is rejected whatever the known
    comparator: the result is [(False, "Bad c, non <class>")], naming the
    column and the class. *)
Theorem mistyped_operand_is_rejected self (c op : string) (v : pyval) valuetype :
  ALLOWED_COLUMNS self !! c = Some valuetype → c ∉ LOGICAL self →
  op ∈ COMPARISON self ++ SPECIAL_COMPARISON self →
  is_dict v = false → is_list v = false →
  isinstance v valuetype = false → is_another_column self v = false →
  logic_parse self (comparison_node c op v)
  = Return (RFalse ("Bad " +:+ c +:+ ", non " +:+ type_repr valuetype)).
Proof.
  intros Htype Hlogical Hop Hdict Hlist Hinstance Hnocolumn.
  unfold comparison_node. rewrite logic_parse_node, parse_column_node by eauto.
  rewrite (valid_comparison_known _ _ _ _ _ valuetype) by done.
  unfold is_valid_value. rewrite Hdict, Hlist, Hnocolumn, Hinstance.
  cbn [negb andb mbind py_result_bind].
  replace (is_special_comparison self (PStr op) v valuetype) with (@Return bool false)
    by (by destruct v).
  cbn [mbind py_result_bind].
  unfold bad_comparison, column_type. rewrite Htype.
  cbn [is_dict py_first py_list fmap list_fmap fst mbind py_result_bind].
  rewrite !py_in_str.
  replace (negb (bool_decide (op ∈ COMPARISON self))
           && negb (bool_decide (op ∈ SPECIAL_COMPARISON self))) with false; [done|].
  apply elem_of_app in Hop as [H|H]; rewrite (bool_decide_eq_true_2 _ H); cbn;
    by rewrite ?andb_false_r.
Qed.

Lemma mistyped_operand_is_rejected_witness :
  logic_parse scenario_policy (comparison_node "userID" "=" (PStr "seven"))
  = Return (RFalse ("Bad " +:+ "userID" +:+ ", non " +:+ type_repr Tint)).
Proof.
  apply (mistyped_operand_is_rejected scenario_policy "userID" "=" (PStr "seven") Tint).
  - vm_compute. reflexivity.
  - cbn. by intros [?|[?|?%elem_of_nil]%elem_of_cons]%elem_of_cons.
  - cbn. left.
  - reflexivity.
  - reflexivity.
  - reflexivity.
  - vm_compute. reflexivity.
Defined.

(** X3: a comparison whose first key is no comparator of the two
    vocabularies is rejected with the reason naming that key, whatever the
    operand and whatever follows in the object. *)
Theorem unknown_comparator_is_rejected self (c op : string) (v : pyval) more :
  is_Some (ALLOWED_COLUMNS self !! c) → c ∉ LOGICAL self →
  op ∉ COMPARISON self ++ SPECIAL_COMPARISON self →
  logic_parse self (PDict [(c, PDict ((op, v) :: more))])
  = Return (RFalse ("Non Valid comparitor - " +:+ op)).
Proof.
  intros Hcolumn Hlogical Hop.
  rewrite logic_parse_node, parse_column_node by eauto.
  rewrite valid_comparison_unknown by done. cbn [mbind py_result_bind].
  unfold bad_comparison.
  cbn [is_dict py_first py_list fmap list_fmap fst mbind py_result_bind].
  rewrite !py_in_str.
  rewrite !bool_decide_eq_false_2; [done|..];
    intros ?; apply Hop, elem_of_app; auto.
Qed.

Lemma unknown_comparator_is_rejected_witness :
  logic_parse scenario_policy (PDict [("creature", PDict [("LIKE", PStr "owl%")])])
  = Return (RFalse ("Non Valid comparitor - " +:+ "LIKE")).
Proof.
  apply (unknown_comparator_is_rejected scenario_policy "creature" "LIKE").
  - by eexists.
  - cbn. by intros [?|[?|?%elem_of_nil]%elem_of_cons]%elem_of_cons.
  - cbn. intros H. repeat (apply elem_of_cons in H as [H|H]; [done|]).
    by apply elem_of_nil in H.
Defined.

(** X4: an aggregate operand contributes no parameter: for a known column
    [c] that is no connector name, a known comparator [op], simple or
    special, an aggregate tag [f] and a known column [a],
    [{c: {op: {f: a}}}] compiles to the text [c op' f(a)] with no
    parameters. *)
Theorem aggregate_operand_is_embedded self (c op f a : string) more :
  is_Some (ALLOWED_COLUMNS self !! c) → c ∉ LOGICAL self →
  op ∈ COMPARISON self ++ SPECIAL_COMPARISON self →
  f ∈ AGGREGATES self → is_Some (ALLOWED_COLUMNS self !! a) →
  logic_parse self (comparison_node c op (PDict ((f, PStr a) :: more)))
  = Return (RTrue (c +:+ " " +:+ sql_comparator op +:+ " " +:+ f
                     +:+ "(" +:+ a +:+ ")") []).
Proof.
  intros [valuetype Htype] Hlogical Hop Hf Ha.
  unfold comparison_node. rewrite logic_parse_node, parse_column_node by eauto.
  rewrite (valid_comparison_known _ _ _ _ _ valuetype) by done.
  unfold is_valid_value, is_valid_aggregate.
  cbn [is_dict negb py_first py_list fmap list_fmap fst mbind py_result_bind].
  rewrite py_getitem_head. cbn [mbind py_result_bind].
  rewrite py_in_str, (bool_decide_eq_true_2 _ Hf). cbn [negb is_another_column].
  rewrite (bool_decide_eq_true_2 _ Ha). cbn [mbind py_result_bind].
  unfold compile_comparison.
  cbn [py_first py_list fmap list_fmap fst mbind py_result_bind].
  rewrite py_getitem_head. cbn [mbind py_result_bind].
  cbn [is_another_column is_dict negb]. rewrite !andb_false_r.
  cbn [py_first py_list fmap list_fmap fst mbind py_result_bind].
  rewrite (py_in_str f), (bool_decide_eq_true_2 _ Hf).
  rewrite py_getitem_head. cbn [mbind py_result_bind py_str].
  by rewrite sql_comparator_str.
Qed.

Lemma aggregate_operand_is_embedded_witness :
  logic_parse scenario_policy
    (comparison_node "userID" "IN" (PDict [("MAX", PStr "userID")]))
  = Return (RTrue ("userID" +:+ " " +:+ sql_comparator "IN" +:+ " " +:+ "MAX"
                     +:+ "(" +:+ "userID" +:+ ")") []).
Proof.
  apply (aggregate_operand_is_embedded scenario_policy "userID" "IN" "MAX" "userID" []).
  - by eexists.
  - cbn. by intros [?|[?|?%elem_of_nil]%elem_of_cons]%elem_of_cons.
  - cbn. do 8 right. left.
  - cbn. right. left.
  - by eexists.
Defined.

(** ** Special comparisons *)

Lemma count_placeholders_app s1 s2 :
  count_placeholders (s1 +:+ s2) = count_placeholders s1 + count_placeholders s2.
Proof.
  induction s1 as [|a s1 IH]; [done|].
  change (String a s1 +:+ s2) with (String a (s1 +:+ s2)).
  cbn [count_placeholders]. rewrite IH. lia.
Qed.

Lemma count_placeholders_concat sep texts :
  count_placeholders sep = 0 →
  count_placeholders (String.concat sep texts)
  = sum_list (count_placeholders <$> texts).
Proof.
  intros Hsep. induction texts as [|text texts IH]; [done|].
  destruct texts as [|text' texts].
  - cbn. lia.
  - change (String.concat sep (text :: text' :: texts))
      with (text +:+ sep +:+ String.concat sep (text' :: texts)).
    rewrite !count_placeholders_app, IH, Hsep. cbn. lia.
Qed.

Lemma count_placeholders_marks n :
  count_placeholders (placeholders n) = n.
Proof.
  unfold placeholders. case_decide as Hone; [by subst|].
  rewrite count_placeholders_concat by done.
  clear Hone. induction n as [|n IH]; cbn; [done|]. by rewrite IH.
Qed.

Lemma all_values_allowed_Forall self l valuetype :
  Forall (λ v, is_valid_value self v valuetype = Return true) l →
  all_values_allowed self l valuetype = Return true.
Proof.
  induction 1 as [|v l Hv _ IH]; cbn [all_values_allowed]; [done|].
  by rewrite Hv.
Qed.

Section Special.
Variables (q i : list string) (t : list table_entry) (cn : list string).
Variable cols : gmap string pytype.
Local Abbreviation self := (__init__ q i t cn cols).

Lemma special_valid (c op : string) operand valuetype :
  cols !! c = Some valuetype → c ∉ LOGICAL self → op ∈ SPECIAL_COMPARISON self →
  is_valid_comparison self c (PDict [(op, operand)]) = Return true →
  logic_parse self (comparison_node c op operand)
  = (aggregate_function ← py_first operand;
     if py_in aggregate_function (AGGREGATES self) then
       aggregate_argument ← py_getitem operand aggregate_function;
       Return (RTrue (c +:+ " " +:+ op +:+ " " +:+ py_str aggregate_function
                        +:+ "(" +:+ py_str aggregate_argument +:+ ")") [])
     else if bool_decide (op = "BETWEEN") then
       params ← py_list operand;
       Return (RTrue (c +:+ " BETWEEN ? AND ?") params)
     else
       num_placeholders ← py_len operand;
       params ← py_list operand;
       Return (RTrue (c +:+ " IN (" +:+ placeholders num_placeholders +:+ ")") params)).
Proof.
  intros Htype Hlogical Hop Hvalid.
  unfold comparison_node. rewrite logic_parse_node, parse_column_node by eauto.
  rewrite Hvalid. cbn [mbind py_result_bind].
  unfold compile_comparison.
  cbn [py_first py_list fmap list_fmap fst mbind py_result_bind].
  rewrite py_getitem_head. cbn [mbind py_result_bind].
  rewrite !py_in_str, (bool_decide_eq_true_2 _ Hop).
  assert (Hop' : op = "BETWEEN" ∨ op = "IN").
  { cbn in Hop. apply elem_of_cons in Hop as [?|Hop]; [by left|].
    apply list_elem_of_singleton in Hop. by right. }
  assert (Hsimple : bool_decide (op ∈ COMPARISON self) = false).
  { destruct Hop' as [-> | ->]; by vm_compute. }
  rewrite Hsimple. cbn [andb].
  destruct (py_first operand) as [first|]; [|done]. cbn [mbind py_result_bind].
  unfold py_eq_str. rewrite sql_comparator_str.
  replace (sql_comparator op) with op by (by destruct Hop' as [-> | ->]).
  destruct (py_in first (AGGREGATES self)); [done|].
  destruct Hop' as [-> | ->]; done.
Qed.

(** X5: special comparisons on a list bind the entries in order.  For a
    known column that is no connector name and a non-empty list of valid
    entries whose first entry is not the name of an aggregate, [IN]
    compiles to [c IN (?,...,?)] with one mark per entry and the list as
    parameters; with exactly two entries [BETWEEN] compiles to
    [c BETWEEN ? AND ?] with the two entries as parameters. *)
Theorem special_comparison_binds_list (c : string) valuetype x l :
  cols !! c = Some valuetype → c ∉ LOGICAL self →
  Forall (λ v, is_valid_value self v valuetype = Return true) (x :: l) →
  py_in x (AGGREGATES self) = false →
  logic_parse self (comparison_node c "IN" (PList (x :: l)))
  = Return (RTrue (c +:+ " IN (" +:+ placeholders (length (x :: l)) +:+ ")") (x :: l))
  ∧ count_placeholders (placeholders (length (x :: l))) = length (x :: l)
  ∧ (length (x :: l) = 2 →
     logic_parse self (comparison_node c "BETWEEN" (PList (x :: l)))
     = Return (RTrue (c +:+ " BETWEEN ? AND ?") (x :: l))).
Proof.
  intros Htype Hlogical Hall Hfirst.
  apply all_values_allowed_Forall in Hall.
  split; [|split; [apply count_placeholders_marks|]].
  - rewrite (special_valid _ _ _ valuetype); try done.
    + cbn [py_first py_list mbind py_result_bind]. by rewrite Hfirst.
    + cbn. right. left.
    + rewrite (in_list_operand _ _ _ _ _ _ _ valuetype) by done. by rewrite Hall.
  - intros Hlen. rewrite (special_valid _ _ _ valuetype); try done.
    + cbn [py_first py_list mbind py_result_bind]. by rewrite Hfirst.
    + cbn. left.
    + rewrite (between_list_operand _ _ _ _ _ _ _ valuetype) by done.
      rewrite Hall. cbn [mbind py_result_bind andb].
      by rewrite bool_decide_eq_true_2.
Qed.

(** X6: operands that validation accepts and the special branch cannot
    iterate or index.  For a known column that is no connector name and a
    special comparator, a number of the column's class raises [TypeError]
    at [list(operand)], the empty [str] for a [str] column raises
    [IndexError] at [list(operand)[0]], and a valid list whose first entry
    is the name of an aggregate raises [TypeError] at
    [operand[aggregate_function]]. *)
Theorem special_comparison_raises (c op : string) valuetype :
  cols !! c = Some valuetype → c ∉ LOGICAL self → op ∈ SPECIAL_COMPARISON self →
  (∀ v, isinstance v valuetype = true → is_str v = false →
        is_another_column self v = false →
        logic_parse self (comparison_node c op v) = Raise TypeError)
  ∧ (valuetype = Tstr →
     logic_parse self (comparison_node c op (PStr "")) = Raise IndexError)
  ∧ (∀ f l, f ∈ AGGREGATES self →
            is_valid_comparison self c (PDict [(op, PList (PStr f :: l))]) = Return true →
            logic_parse self (comparison_node c op (PList (PStr f :: l)))
            = Raise TypeError).
Proof.
  intros Htype Hlogical Hop.
  assert (Hknown : op ∈ COMPARISON self ++ SPECIAL_COMPARISON self)
    by (apply elem_of_app; auto).
  split; [|split].
  - intros v Hinstance Hstr Hnocolumn.
    destruct (isinstance_scalar _ _ Hinstance) as (Hdict & Hlist & Htuple & Hnone).
    rewrite (special_valid _ _ _ valuetype); try done.
    + destruct v; try done. by destruct (Htuple l).
    + rewrite (valid_comparison_known _ _ _ _ _ valuetype) by done.
      unfold is_valid_value. by rewrite Hdict, Hlist, Hnocolumn, Hinstance.
  - intros ->. rewrite (special_valid _ _ _ Tstr); try done.
    rewrite (valid_comparison_known _ _ _ _ _ Tstr) by done.
    unfold is_valid_value. cbn [is_dict is_list negb andb is_another_column].
    by destruct (bool_decide _).
  - intros f l Hf Hvalid. rewrite (special_valid _ _ _ valuetype); try done.
    cbn [py_first py_list mbind py_result_bind].
    by rewrite py_in_str, (bool_decide_eq_true_2 _ Hf).
Qed.
End Special.

Lemma special_comparison_binds_list_witness :
  logic_parse scenario_policy
    (comparison_node "userID" "IN" (PList [PInt 1; PInt 2; PInt 3]))
  = Return (RTrue ("userID" +:+ " IN (" +:+ placeholders 3 +:+ ")")
              [PInt 1; PInt 2; PInt 3])
  ∧ logic_parse scenario_policy
      (comparison_node "creature" "BETWEEN" (PList [PStr "a"; PStr "m"]))
    = Return (RTrue ("creature" +:+ " BETWEEN ? AND ?") [PStr "a"; PStr "m"]).
Proof.
  split.
  - refine (proj1 (special_comparison_binds_list ["SELECT"] ["*"]
                     [TableColumns "images" []] ["WHERE"] scenario_columns
                     "userID" Tint (PInt 1) [PInt 2; PInt 3] _ _ _ _)).
    + vm_compute. reflexivity.
    + cbn. by intros [?|[?|?%elem_of_nil]%elem_of_cons]%elem_of_cons.
    + by repeat constructor.
    + reflexivity.
  - refine (proj2 (proj2 (special_comparison_binds_list ["SELECT"] ["*"]
                     [TableColumns "images" []] ["WHERE"] scenario_columns
                     "creature" Tstr (PStr "a") [PStr "m"] _ _ _ _)) _).
    + vm_compute. reflexivity.
    + cbn. by intros [?|[?|?%elem_of_nil]%elem_of_cons]%elem_of_cons.
    + repeat constructor; vm_compute; reflexivity.
    + reflexivity.
    + reflexivity.
Defined.

Lemma special_comparison_raises_witness :
  logic_parse scenario_policy (comparison_node "userID" "BETWEEN" (PInt 5))
  = Raise TypeError
  ∧ logic_parse scenario_policy (comparison_node "creature" "IN" (PStr ""))
    = Raise IndexError
  ∧ logic_parse scenario_policy
      (comparison_node "creature" "IN" (PList [PStr "MIN"; PStr "x"]))
    = Raise TypeError.
Proof.
  destruct (special_comparison_raises ["SELECT"] ["*"] [TableColumns "images" []]
              ["WHERE"] scenario_columns "userID" "BETWEEN" Tint) as (Hnumber & _ & _).
  { vm_compute. reflexivity. }
  { cbn. by intros [?|[?|?%elem_of_nil]%elem_of_cons]%elem_of_cons. }
  { cbn. left. }
  destruct (special_comparison_raises ["SELECT"] ["*"] [TableColumns "images" []]
              ["WHERE"] scenario_columns "creature" "IN" Tstr) as (_ & Hempty & Hlist).
  { vm_compute. reflexivity. }
  { cbn. by intros [?|[?|?%elem_of_nil]%elem_of_cons]%elem_of_cons. }
  { cbn. right. left. }
  split; [|split].
  - by apply Hnumber.
  - by apply Hempty.
  - apply Hlist; [cbn; left|vm_compute; reflexivity].
Defined.

(** ** Logical nodes *)

Lemma parse_cases_success parse children data :
  Forall2 (λ child d, parse child = Return (RTrue d.1 d.2)) children data →
  parse_cases parse children = Return (inr data).
Proof.
  induction 1 as [|child [sql params] children data Hchild _ IH]; cbn [parse_cases];
    [done|].
  rewrite Hchild. cbn [mbind py_result_bind fst snd]. by rewrite IH.
Qed.

Lemma parse_cases_failure parse before child after reason :
  Forall (λ child, ∃ sql params, parse child = Return (RTrue sql params)) before →
  parse child = Return (RFalse reason) →
  parse_cases parse (before ++ child :: after) = Return (inl (RFalse reason)).
Proof.
  intros Hbefore Hchild.
  induction Hbefore as [|first before (sql & params & Hfirst) _ IH]; cbn [app parse_cases].
  - by rewrite Hchild.
  - rewrite Hfirst. cbn [mbind py_result_bind]. by rewrite IH.
Qed.

Lemma upper_connector (value : string) :
  value ∈ ["AND"; "OR"] → upper value = value.
Proof.
  intros [->|[->|?%elem_of_nil]%elem_of_cons]%elem_of_cons; done.
Qed.

Section Logical.
Variables (q i : list string) (t : list table_entry) (cn : list string).
Variable cols : gmap string pytype.
Local Abbreviation self := (__init__ q i t cn cols).

Lemma returned_is_no_comparator child r :
  logic_parse self child = Return r →
  py_in child (COMPARISON self) = false ∧ py_in child (SPECIAL_COMPARISON self) = false.
Proof.
  destruct child as [| | | |s| | |]; try done.
  destruct s as [|a s]; [by vm_compute|]. done.
Qed.

Lemma logical_node_cases (value : string) child children :
  value ∈ LOGICAL self → cols !! value = None →
  py_in child (COMPARISON self) = false →
  py_in child (SPECIAL_COMPARISON self) = false →
  (2 ≤ length (child :: children))%nat →
  logic_parse self (logical_node value (child :: children))
  = (evaluations ← parse_cases (logic_parse self) (child :: children);
     match evaluations with
     | inl safe => Return safe
     | inr data => Return (join_cases value data)
     end).
Proof.
  intros Hvalue Hcolumn Hsimple Hspecial Hlen.
  unfold logical_node. rewrite logic_parse_node.
  unfold parse_node, is_value_in_allowed_categories.
  rewrite (bool_decide_eq_true_2 _ Hvalue). cbn [ALLOWED_COLUMNS __init__].
  rewrite Hcolumn.
  rewrite (bool_decide_eq_false_2 (is_Some None)) by (by intros [? [=]]).
  cbn [orb negb andb is_list mbind py_result_bind].
  unfold is_valid_comparison. cbn [py_first py_list mbind py_result_bind].
  rewrite Hsimple, Hspecial. cbn [negb andb mbind py_result_bind].
  rewrite decide_False by lia. done.
Qed.

(** X7: a logical node over children that all compile joins their texts
    with the connector, in parentheses, and concatenates their parameters
    in the order of the children.  [value] is ["AND"] or ["OR"], not
    declared as a column, and there are at least two children. *)
Theorem logical_node_joins_children (value : string) children data :
  value ∈ LOGICAL self → cols !! value = None →
  (2 ≤ length children)%nat →
  Forall2 (λ child d, logic_parse self child = Return (RTrue d.1 d.2)) children data →
  logic_parse self (logical_node value children)
  = Return (RTrue ("(" +:+ String.concat (" " +:+ value +:+ " ") (fst <$> data) +:+ ")")
                  (concat (snd <$> data))).
Proof.
  intros Hvalue Hcolumn Hlen Hall.
  destruct Hall as [|child d children data Hchild Hall]; [cbn in Hlen; lia|].
  destruct (returned_is_no_comparator _ _ Hchild) as [Hsimple Hspecial].
  rewrite logical_node_cases by done.
  rewrite (parse_cases_success _ (child :: children) (d :: data)) by by constructor.
  cbn [mbind py_result_bind]. unfold join_cases. by rewrite upper_connector.
Qed.

(** X8: the first child of a logical node that fails decides the result:
    when the children before it compile and it returns [(False, reason)],
    the node returns that same pair, unwrapped, and the children after it
    are not looked at. *)
Theorem logical_node_returns_first_failure (value : string) before child after reason :
  value ∈ LOGICAL self → cols !! value = None →
  (2 ≤ length (before ++ child :: after))%nat →
  Forall (λ child, ∃ sql params, logic_parse self child = Return (RTrue sql params))
         before →
  logic_parse self child = Return (RFalse reason) →
  logic_parse self (logical_node value (before ++ child :: after))
  = Return (RFalse reason).
Proof.
  intros Hvalue Hcolumn Hlen Hbefore Hchild.
  assert (∃ first rest, before ++ child :: after = first :: rest
                        ∧ ∃ r, logic_parse self first = Return r)
    as (first & rest & Heq & r & Hfirst).
  { destruct Hbefore as [|first before (sql & params & Hfirst) _]; cbn [app]; eauto 6. }
  destruct (returned_is_no_comparator _ _ Hfirst) as [Hsimple Hspecial].
  rewrite Heq, logical_node_cases, <- Heq by (done || by rewrite <- Heq).
  by rewrite (parse_cases_failure _ _ _ _ reason).
Qed.
End Logical.

Lemma logical_node_joins_children_witness :
  logic_parse scenario_policy
    (logical_node "OR" [comparison_node "userID" "=" (PInt 555);
                        comparison_node "creature" "=" (PStr "owlbear")])
  = Return (RTrue ("(" +:+ String.concat (" " +:+ "OR" +:+ " ")
                             ["userID = ?"; "creature = ?"] +:+ ")")
                  [PInt 555; PStr "owlbear"]).
Proof.
  apply (logical_node_joins_children ["SELECT"] ["*"] [TableColumns "images" []] ["WHERE"]
           scenario_columns "OR" _
           [("userID = ?", [PInt 555]); ("creature = ?", [PStr "owlbear"])]).
  - cbn. right. left.
  - vm_compute. reflexivity.
  - cbn. lia.
  - repeat constructor; vm_compute; reflexivity.
Defined.

Lemma logical_node_returns_first_failure_witness :
  logic_parse scenario_policy
    (logical_node "AND" ([comparison_node "userID" "=" (PInt 555)]
                         ++ PDict [] :: [PInt 3]))
  = Return (RFalse "Nothing To Compute").
Proof.
  apply (logical_node_returns_first_failure ["SELECT"] ["*"] [TableColumns "images" []]
           ["WHERE"] scenario_columns "AND").
  - cbn. left.
  - vm_compute. reflexivity.
  - cbn. lia.
  - repeat constructor. eexists _, _. vm_compute. reflexivity.
  - reflexivity.
Defined.

(** ** Inputs on which [logic_parse] always returns a pair *)

Lemma bad_comparison_returns self value body :
  is_Some (ALLOWED_COLUMNS self !! value) →
  (is_dict body = true → ∃ first, py_first body = Return first) →
  ∃ reason, bad_comparison self value body = Return (RFalse reason).
Proof.
  intros [valuetype Htype] Hfirst. unfold bad_comparison, column_type. rewrite Htype.
  cbn [mbind py_result_bind].
  destruct (is_dict body); [|by eauto].
  destruct Hfirst as [first ->]; [done|]. cbn [mbind py_result_bind].
  destruct (_ && _); eauto.
Qed.

Lemma parse_cases_returns parse children :
  Forall (λ child, ∃ r, parse child = Return r ∧ r ≠ RNone) children →
  (∃ reason, parse_cases parse children = Return (inl (RFalse reason)))
  ∨ ∃ data, parse_cases parse children = Return (inr data).
Proof.
  induction 1 as [|child children (r & Hchild & Hr) _ IH]; cbn [parse_cases].
  - right. eauto.
  - rewrite Hchild. cbn [mbind py_result_bind].
    destruct r as [reason|sql params|]; [left; eauto| |done].
    destruct IH as [[reason ->]|[data ->]]; cbn [mbind py_result_bind]; eauto.
Qed.

Lemma plain_comparison_returns self parse value comparator operand more :
  is_Some (ALLOWED_COLUMNS self !! value)
  ∨ value ∉ COMPARISON self ++ SPECIAL_COMPARISON self →
  comparator ∉ SPECIAL_COMPARISON self →
  is_list operand = false →
  operand ≠ PDict [] →
  ∃ r, parse_node self parse value (PDict ((comparator, operand) :: more)) = Return r
       ∧ r ≠ RNone.
Proof.
  intros Hvalue Hcomparator Hlist Hoperand.
  unfold parse_node, is_value_in_allowed_categories.
  destruct (bool_decide (is_Some (ALLOWED_COLUMNS self !! value))) eqn:Hcolumn;
    cbn [orb negb].
  2: { apply bool_decide_eq_false in Hcolumn. destruct Hvalue as [?|Hvalue]; [done|].
       destruct (bool_decide (value ∈ LOGICAL self)); cbn [orb negb andb is_list];
         [by eauto|].
       rewrite !bool_decide_eq_false_2; [cbn; by eauto|..];
         intros ?; apply Hvalue, elem_of_app; auto. }
  apply bool_decide_eq_true in Hcolumn.
  cbn [is_list negb]. rewrite andb_true_r.
  destruct (bool_decide (value ∈ LOGICAL self)); [by eauto|].
  destruct (decide (comparator ∈ COMPARISON self)) as [Hsimple|Hsimple].
  2: { rewrite valid_comparison_unknown
         by (intros [?|?]%elem_of_app; done).
       cbn [mbind py_result_bind negb].
       destruct (bad_comparison_returns self value
                   (PDict ((comparator, operand) :: more))) as [reason ->]; eauto. }
  destruct Hcolumn as [valuetype Htype].
  rewrite (valid_comparison_known _ _ _ _ _ valuetype)
    by (done || apply elem_of_app; auto).
  destruct (is_valid_value_cases self operand valuetype) as [[ok Hok]|[_ ?]]; [|done].
  rewrite Hok. cbn [mbind py_result_bind].
  replace (is_special_comparison self (PStr comparator) operand valuetype)
    with (@Return bool false) by (by destruct operand).
  destruct ok; cbn [mbind py_result_bind negb].
  2: { destruct (bad_comparison_returns self value
                   (PDict ((comparator, operand) :: more))) as [reason ->]; eauto. }
  unfold compile_comparison.
  cbn [py_first py_list fmap list_fmap fst mbind py_result_bind].
  rewrite py_getitem_head. cbn [mbind py_result_bind].
  rewrite !py_in_str, (bool_decide_eq_true_2 _ Hsimple),
    (bool_decide_eq_false_2 _ Hcomparator). cbn [andb].
  destruct (is_another_column self operand); cbn [negb andb]; [by eauto|].
  destruct (is_dict operand) eqn:Hdict; cbn [negb]; [|by eauto].
  destruct operand as [| | | | | | |d]; try done.
  destruct d as [|[k x] d]; [done|].
  cbn [py_first py_list fmap list_fmap fst mbind py_result_bind].
  rewrite py_getitem_head. cbn [mbind py_result_bind].
  destruct (py_in _ _); eauto.
Qed.

Lemma plain_logical_returns self value children :
  value ∈ LOGICAL self → children ≠ [] →
  Forall (λ child, plain_tree self child ∧
                   ∃ r, logic_parse self child = Return r ∧ r ≠ RNone) children →
  ∃ r, parse_node self (logic_parse self) value (PList children) = Return r ∧ r ≠ RNone.
Proof.
  intros Hvalue Hnonempty Hchildren.
  assert (Hfirst : is_valid_comparison self value (PList children) = Return false).
  { destruct Hchildren as [|child children [Hplain _] _]; [done|].
    unfold is_valid_comparison. cbn [py_first py_list mbind py_result_bind].
    by destruct Hplain. }
  unfold parse_node, is_value_in_allowed_categories.
  rewrite (bool_decide_eq_true_2 _ Hvalue), orb_true_r. cbn [orb negb is_list andb].
  rewrite Hfirst.
  destruct (bool_decide (is_Some (ALLOWED_COLUMNS self !! value))) eqn:Hcolumn;
    cbn [mbind py_result_bind negb].
  { apply bool_decide_eq_true in Hcolumn.
    destruct (bad_comparison_returns self value (PList children)) as [reason ->];
      [done|done|eauto]. }
  case_decide; [by eauto|].
  destruct (parse_cases_returns (logic_parse self) children) as [[reason ->]|[data ->]];
    cbn [mbind py_result_bind]; [|by eauto|by eauto].
  eapply Forall_impl; [exact Hchildren|]. by intros ? [_ ?].
Qed.

(** X9: on a tree of plain comparisons [logic_parse] always returns a
    pair.  When every comparison has a key that is a declared column or no
    comparator, a first comparator that is not [BETWEEN] or [IN], and an
    operand that is neither a list nor the empty object, and every logical
    node has at least one child, the call neither raises nor returns
    [None]. *)
Theorem plain_tree_returns_a_pair self json_input :
  plain_tree self json_input →
  ∃ r, logic_parse self json_input = Return r ∧ r ≠ RNone.
Proof.
  enough (Hboth :
    (plain_tree self json_input →
     ∃ r, logic_parse self json_input = Return r ∧ r ≠ RNone)
    ∧ (∀ children, json_input = PList children →
         Forall (λ child, plain_tree self child →
                          ∃ r, logic_parse self child = Return r ∧ r ≠ RNone)
                children)) by apply Hboth.
  induction json_input as [| | | | |l IH|l IH|d IH] using pyval_nested_ind;
    (split; [|try done]); try (by inversion 1).
  - intros children [= <-]. eapply Forall_impl; [exact IH|]. by intros ? [? _].
  - inversion 1 as [value comparator operand more_keys more_entries Hvalue Hcmp Hlist Hop
                   |value children more_entries Hvalue Hnonempty Hchildren]; subst.
    + rewrite logic_parse_node. by apply plain_comparison_returns.
    + rewrite logic_parse_node. apply plain_logical_returns; [done..|].
      apply Forall_cons_1 in IH as [[_ IH] _]. specialize (IH _ eq_refl).
      apply Forall_forall. intros child Hchild.
      rewrite Forall_forall in Hchildren, IH. split; [by apply Hchildren|].
      apply IH; [done|by apply Hchildren].
Qed.

Lemma plain_tree_returns_a_pair_witness :
  ∃ r, logic_parse scenario_policy
         (logical_node "AND" [comparison_node "creature" "=" (PInt 3);
                              comparison_node "nothing" "LIKE" PNone]) = Return r
       ∧ r ≠ RNone.
Proof.
  apply plain_tree_returns_a_pair.
  apply plain_logical; [cbn; left|done|].
  constructor; [|constructor; [|constructor]].
  - apply plain_comparison; [left; by eexists| |reflexivity|done].
    cbn. by intros [?|[?|?%elem_of_nil]%elem_of_cons]%elem_of_cons.
  - apply plain_comparison; [right| |reflexivity|done].
    + cbn. intros H. repeat (apply elem_of_cons in H as [H|H]; [done|]).
      by apply elem_of_nil in H.
    + cbn. by intros [?|[?|?%elem_of_nil]%elem_of_cons]%elem_of_cons.
Defined.

(** ** Placeholders and parameters *)

Lemma length_chars s : length (chars s) = String.length s.
Proof. induction s as [|a s IH]; cbn; [done|]. by rewrite IH. Qed.

Lemma py_len_list v n params :
  py_len v = Return n → py_list v = Return params → length params = n.
Proof.
  destruct v; try done; cbn; intros [= <-] [= <-]; try done.
  - by rewrite length_fmap, length_chars.
  - by rewrite length_fmap.
Qed.

Lemma balanced_data (data : list (string * list pyval)) :
  Forall (λ d, count_placeholders d.1 = length d.2) data →
  sum_list (count_placeholders <$> (fst <$> data)) = length (concat (snd <$> data)).
Proof.
  induction 1 as [|[sql params] data Hd _ IH]; [done|].
  cbn [fst snd] in Hd.
  change (sum_list (count_placeholders <$> ((sql, params) :: data).*1))
    with (count_placeholders sql + sum_list (count_placeholders <$> data.*1)).
  change (concat ((sql, params) :: data).*2) with (params ++ concat data.*2).
  by rewrite length_app, Hd, IH.
Qed.

Lemma parse_cases_balanced self cases data :
  Forall (λ case, ∀ sql params,
            logic_parse self case = Return (RTrue sql params) →
            count_placeholders sql = length params) cases →
  parse_cases (logic_parse self) cases = Return (inr data) →
  Forall (λ d, count_placeholders d.1 = length d.2) data.
Proof.
  intros Hcases. revert data.
  induction Hcases as [|case cases Hcase _ IH]; intros data; cbn [parse_cases].
  - intros [= <-]. constructor.
  - destruct (logic_parse self case) as [[reason|sql params|]|]; cbn [mbind py_result_bind];
      try done.
    destruct (parse_cases (logic_parse self) cases) as [[safe'|data']|];
      cbn [mbind py_result_bind]; try done.
    intros [= <-]. constructor; [by apply Hcase|by apply IH].
Qed.

Section Balance.
Variables (q i : list string) (t : list table_entry) (cn : list string).
Variable cols : gmap string pytype.
Local Abbreviation self := (__init__ q i t cn cols).

Hypothesis plain_columns : ∀ c, is_Some (cols !! c) → plain_text c.

Lemma plain_comparator comparator :
  comparator ∈ COMPARISON self ++ SPECIAL_COMPARISON self →
  plain_text (sql_comparator comparator).
Proof.
  cbn. intros H. repeat (apply elem_of_cons in H as [->|H]; [done|]).
  by apply elem_of_nil in H.
Qed.

Lemma plain_aggregate f : f ∈ AGGREGATES self → plain_text f.
Proof.
  cbn. intros H. repeat (apply elem_of_cons in H as [->|H]; [done|]).
  by apply elem_of_nil in H.
Qed.

Lemma compile_comparison_balanced value body sql params :
  is_valid_comparison self value body = Return true →
  match body with
  | PDict ((comparator, PStr _) :: _) => comparator ≠ "BETWEEN"
  | _ => True
  end →
  compile_comparison self value body = Return (RTrue sql params) →
  count_placeholders sql = length params.
Proof.
  intros Hvalidity.
  destruct (valid_comparison_inv _ _ _ Hvalidity)
    as (comparator & operand & valuetype & Hfirst & Hcomparator & Hoperand & Htype & Hvalid).
  assert (Hvalue : plain_text value) by (apply plain_columns; eauto).
  pose proof (plain_comparator _ Hcomparator) as Hcmp.
  unfold plain_text in Hvalue, Hcmp.
  intros Hbetween.
  unfold compile_comparison. rewrite Hfirst. cbn [mbind py_result_bind].
  rewrite Hoperand. cbn [mbind py_result_bind]. rewrite !py_in_str, sql_comparator_str.
  assert (Hdict_operand : ∀ k x d, operand = PDict ((k, x) :: d) →
            k ∈ AGGREGATES self ∧ ∃ a, x = PStr a ∧ is_Some (cols !! a)).
  { intros k x d ->. destruct Hvalid as [Hv|Hv]; [|done]. revert Hv.
    unfold is_valid_value, is_valid_aggregate.
    cbn [is_dict negb py_first py_list fmap list_fmap fst mbind py_result_bind].
    rewrite py_getitem_head. cbn [mbind py_result_bind]. rewrite py_in_str.
    destruct (bool_decide (k ∈ AGGREGATES self)) eqn:Hk; cbn [negb]; [|done].
    intros [= (a & -> & Ha)%is_another_column_inv].
    apply bool_decide_eq_true in Hk. eauto. }
  assert (Hno_tuple : ∀ l, operand ≠ PTuple l).
  { intros l ->. destruct Hvalid as [Hv|Hv]; [|done].
    by destruct valuetype. }
  destruct (bool_decide (comparator ∈ COMPARISON self)) eqn:Hsimple; cbn [andb].
  { destruct (is_another_column self operand) eqn:Hother; cbn [negb andb].
    - intros [= <- <-].
      apply is_another_column_inv in Hother as (other & -> & Hother).
      apply plain_columns in Hother. unfold plain_text in Hother.
      cbn [py_str]. rewrite !count_placeholders_app, Hvalue, Hcmp, Hother. done.
    - destruct (is_dict operand) eqn:Hdict; cbn [negb].
      + destruct operand as [| | | | | | |d]; try done.
        destruct d as [|[k x] d].
        { destruct Hvalid as [Hv|Hv]; done. }
        destruct (Hdict_operand _ _ _ eq_refl) as (Hk & a & -> & Ha).
        cbn [py_first py_list fmap list_fmap fst mbind py_result_bind].
        rewrite py_in_str, (bool_decide_eq_true_2 _ Hk), py_getitem_head.
        cbn [mbind py_result_bind py_str]. intros [= <- <-].
        apply plain_columns in Ha. apply plain_aggregate in Hk.
        unfold plain_text in Ha, Hk.
        rewrite !count_placeholders_app, Hvalue, Hcmp, Hk, Ha. done.
      + intros [= <- <-].
        rewrite !count_placeholders_app, Hvalue, Hcmp.
        destruct operand; try done. by destruct (Hno_tuple l). }
  destruct (py_first operand) as [first|] eqn:Hopfirst; [|done].
  cbn [mbind py_result_bind].
  destruct (py_in first (AGGREGATES self)) eqn:Hagg.
  { apply py_in_inv in Hagg as (f & -> & Hf).
    destruct operand as [| | | | | | |d]; try done.
    destruct d as [|[k x] d]; [done|].
    destruct (Hdict_operand _ _ _ eq_refl) as (Hk & a & -> & Ha).
    revert Hopfirst. cbn [py_first py_list fmap list_fmap fst mbind py_result_bind].
    intros [= ->]. rewrite py_getitem_head.
    cbn [mbind py_result_bind py_str]. intros [= <- <-].
    apply plain_columns in Ha. apply plain_aggregate in Hk.
    unfold plain_text in Ha, Hk.
    rewrite !count_placeholders_app, Hvalue, Hcmp, Hk, Ha. done. }
  destruct (bool_decide (comparator ∈ SPECIAL_COMPARISON self)); [|done].
  assert (Hno_dict : ∀ d, operand ≠ PDict d).
  { intros [|[k x] d] ->; [done|].
    destruct (Hdict_operand _ _ _ eq_refl) as (Hk & _).
    revert Hopfirst Hagg. cbn [py_first py_list fmap list_fmap fst mbind py_result_bind].
    intros [= <-]. by rewrite py_in_str, (bool_decide_eq_true_2 _ Hk). }
  destruct (py_eq_str (PStr comparator) "BETWEEN") eqn:Hbtw.
  { apply bool_decide_eq_true in Hbtw. subst comparator.
    destruct (py_list operand) as [ps|] eqn:Hps; [|done]. cbn [mbind py_result_bind].
    intros [= <- <-]. rewrite count_placeholders_app, Hvalue.
    destruct operand as [| | | |s|l|l|d]; try done.
    - exfalso. destruct body as [| | | | | | |d]; try done.
      destruct d as [|[k x] d]; [done|].
      revert Hfirst Hoperand. cbn [py_first py_list fmap list_fmap fst mbind py_result_bind].
      intros [= ->]. rewrite py_getitem_head. intros [= ->]. done.
    - destruct Hvalid as [Hv|Hv].
      { revert Hv. unfold is_valid_value. cbn [is_dict is_list negb andb].
        by rewrite isinstance_list. }
      revert Hv Hps. unfold is_special_comparison, py_eq_str.
      destruct (all_values_allowed self l valuetype) as [[]|]; cbn [mbind py_result_bind negb];
        try done.
      rewrite (bool_decide_eq_true_2 ("BETWEEN" = "BETWEEN")) by done.
      rewrite (bool_decide_eq_false_2 ("BETWEEN" = "IN")) by done. cbn [andb].
      destruct (bool_decide (length l = 2)) eqn:Hlen; [|done].
      apply bool_decide_eq_true in Hlen. cbn [py_list]. intros _ [= <-]. by rewrite Hlen.
    - by destruct (Hno_tuple l).
    - by destruct (Hno_dict d). }
  destruct (py_eq_str (PStr comparator) "IN"); [|done].
  destruct (py_len operand) as [n|] eqn:Hn; [|done]. cbn [mbind py_result_bind].
  destruct (py_list operand) as [ps|] eqn:Hps; [|done]. cbn [mbind py_result_bind].
  intros [= <- <-].
  rewrite !count_placeholders_app, Hvalue, count_placeholders_marks.
  rewrite (py_len_list _ _ _ Hn Hps).
  change (count_placeholders " IN (") with 0. change (count_placeholders ")") with 0.
  lia.
Qed.

Lemma logic_parse_balanced json_input sql params :
  no_between_str json_input = true →
  logic_parse self json_input = Return (RTrue sql params) →
  count_placeholders sql = length params.
Proof.
  revert sql params.
  enough (Hboth :
    (no_between_str json_input = true →
     ∀ sql params,
       logic_parse self json_input = Return (RTrue sql params) →
       count_placeholders sql = length params)
    ∧ (∀ children, json_input = PList children →
         Forall (λ case, no_between_str case = true →
                   ∀ sql params,
                     logic_parse self case = Return (RTrue sql params) →
                     count_placeholders sql = length params) children))
    by (intros; by eapply Hboth).
  induction json_input as [| | | | |l IH|l IH|d IH] using pyval_nested_ind;
    (split; [|try done]).
  1-5: try done.
  - by destruct s.
  - by destruct l.
  - intros children [= <-]. eapply Forall_impl; [exact IH|]. by intros ? [? _].
  - by destruct l.
  - destruct d as [|[value body] d]; [done|].
    intros Hfree sql params. rewrite logic_parse_node. unfold parse_node.
    destruct (negb _); [done|].
    destruct (bool_decide (value ∈ LOGICAL self) && negb (is_list body)); [done|].
    assert (Hbody : match body with
                    | PDict ((comparator, PStr _) :: _) => comparator ≠ "BETWEEN"
                    | _ => True
                    end).
    { destruct body as [| | | | | | |[|[comparator []] ?]]; try done.
      cbn in Hfree. by apply negb_true_iff, bool_decide_eq_false in Hfree. }
    destruct (bool_decide (is_Some (ALLOWED_COLUMNS self !! value))).
    + destruct (is_valid_comparison self value body) as [[]|] eqn:Hvalid;
        cbn [mbind py_result_bind negb]; [| |done].
      * by apply compile_comparison_balanced.
      * by intros [? [=]]%bad_comparison_fails.
    + cbn [mbind py_result_bind].
      destruct (is_valid_comparison self value body) as [[]|] eqn:Hvalid;
        cbn [mbind py_result_bind]; [by apply compile_comparison_balanced| |done].
      case_bool_decide as Hconnector; [|done].
      destruct body as [| | | | |children| |]; try done.
      case_decide; [done|].
      destruct (parse_cases (logic_parse self) children) as [[safe|data]|] eqn:Hrun;
        cbn [mbind py_result_bind]; [| |done].
      * apply parse_cases_inl in Hrun as [reason ->]. done.
      * intros [= <- <-].
        rewrite !count_placeholders_app, count_placeholders_concat.
        2: { rewrite upper_connector by done. cbn in Hconnector.
             repeat (apply elem_of_cons in Hconnector as [->|Hconnector]; [by vm_compute|]).
             by apply elem_of_nil in Hconnector. }
        change (count_placeholders "(") with 0. change (count_placeholders ")") with 0.
        rewrite Nat.add_0_l, Nat.add_0_r. apply balanced_data.
        eapply parse_cases_balanced; [|done].
        apply Forall_cons_1 in IH as [[_ IH] _]. specialize (IH _ eq_refl).
        cbn in Hfree. rewrite forallb_forall in Hfree.
        rewrite Forall_forall in IH. apply Forall_forall.
        intros case Hcase. apply IH; [done|]. by apply Hfree, list_elem_of_In.
Qed.

(** X10: where the count of [?] equals the number of parameters.  With a
    policy whose column names hold no [?], every success of [logic_parse]
    on an input in which no [BETWEEN] has a [str] operand returns a text
    with exactly as many [?] as there are parameters. *)
Theorem placeholders_match_parameters json_input sql params :
  no_between_str json_input = true →
  logic_parse self json_input = Return (RTrue sql params) →
  count_placeholders sql = length params.
Proof. apply logic_parse_balanced. Qed.
End Balance.

Lemma placeholders_match_parameters_witness :
  count_placeholders "(creature = ? AND (userID = ? OR userID = ?))"
  = length [PStr "owlbear"; PInt 555; PInt 111].
Proof.
  apply (placeholders_match_parameters ["SELECT"] ["*"] [TableColumns "images" []]
           ["WHERE"] scenario_columns) with (json_input := scenario_logic).
  - intros c [valuetype Hc]. unfold scenario_columns in Hc.
    apply lookup_insert_Some in Hc as [[<- _]|[_ Hc]]; [done|].
    apply lookup_insert_Some in Hc as [[<- _]|[_ Hc]]; [done|].
    by rewrite lookup_empty in Hc.
  - reflexivity.
  - vm_compute. reflexivity.
Defined.

(** ** Requests that pass the checks *)

Lemma bind_Returned {A B} (m : stmt A) (f : A → stmt B) st r st' :
  m st = (Returned r, st') → (m ≫= f) st = (Returned r, st').
Proof. intros Hm. unfold mbind, stmt_bind. by rewrite Hm. Qed.

Lemma check_required_passes self j query items table :
  dict_get j "query" = Some (PStr query) →
  dict_get j "items" = Some (PList items) →
  dict_get j "table" = Some (PStr table) →
  check_required required_inputs (Store self j) = (Next (), Store self j).
Proof.
  intros Hquery Hitems Htable. unfold required_inputs.
  rewrite !check_required_step. cbn [st_json_input].
  by rewrite Hquery, Hitems, Htable.
Qed.

Lemma check_query_table_passes self j query table :
  dict_get j "query" = Some (PStr query) →
  dict_get j "table" = Some (PStr table) →
  query ∈ ALLOWED_QUERIES self → is_Some (ALLOWED_TABLES self !! table) →
  check_query_table (Store self j) = (Next (), Store self j).
Proof.
  intros Hquery Htable Hq Ht. unfold check_query_table.
  rewrite bind_get_self, bind_get_json_input. cbn [st_self st_json_input].
  rewrite (getitem_dict _ _ _ Hquery), (getitem_dict _ _ _ Htable).
  rewrite bind_eval, py_in_str, (bool_decide_eq_true_2 _ Hq). cbn [negb].
  by rewrite bind_eval, (bool_decide_eq_true_2 _ Ht).
Qed.

Lemma item_allowed_eval self j table columns x :
  dict_get j "table" = Some (PStr table) →
  ALLOWED_TABLES self !! table = Some columns →
  item_allowed x (Store self j)
  = (Next (py_in x (ALLOWED_ITEMS self) || py_in_columns x columns), Store self j).
Proof.
  intros Htable Hcolumns. unfold item_allowed.
  rewrite bind_get_self, bind_get_json_input. cbn [st_self st_json_input].
  destruct (py_in x (ALLOWED_ITEMS self)); [done|].
  rewrite (getitem_dict _ _ _ Htable), bind_eval. cbn [table_columns].
  by rewrite Hcolumns, bind_eval.
Qed.

Lemma permitted_eval self table columns x :
  ALLOWED_TABLES self !! table = Some columns →
  permitted self table x
  ↔ py_in x (ALLOWED_ITEMS self) || py_in_columns x columns = true.
Proof.
  intros Hcolumns. unfold permitted. rewrite orb_true_iff. split.
  - intros [?|(columns' & ? & ?)]; [by left|right]. by simplify_eq.
  - intros [?|?]; [by left|right]. eauto.
Qed.

Lemma item_allowed_permitted self j table x :
  dict_get j "table" = Some (PStr table) →
  is_Some (ALLOWED_TABLES self !! table) →
  permitted self table x →
  item_allowed x (Store self j) = (Next true, Store self j).
Proof.
  intros Htable [columns Hcolumns] Hx.
  rewrite (item_allowed_eval _ _ _ _ _ Htable Hcolumns).
  by apply (permitted_eval _ _ columns) in Hx as ->.
Qed.

Lemma item_allowed_not_permitted self j table x :
  dict_get j "table" = Some (PStr table) →
  is_Some (ALLOWED_TABLES self !! table) →
  ¬ permitted self table x →
  item_allowed x (Store self j) = (Next false, Store self j).
Proof.
  intros Htable [columns Hcolumns] Hx.
  rewrite (item_allowed_eval _ _ _ _ _ Htable Hcolumns).
  rewrite (permitted_eval _ _ columns) in Hx by done.
  by apply not_true_is_false in Hx as ->.
Qed.

Lemma object_not_permitted self table d : ¬ permitted self table (PDict d).
Proof. by intros [?|(? & _ & ?)]. Qed.

(** One turn of the items loop on an entry it accepts. *)
Lemma check_item_renders self j table l index item text :
  dict_get j "table" = Some (PStr table) →
  is_Some (ALLOWED_TABLES self !! table) →
  dict_get j "items" = Some (PList l) →
  l !! index = Some item →
  renders self table item text →
  check_item index item (Store self j)
  = (Next (), Store self (dict_set j "items" (PList (<[index := PStr text]> l)))).
Proof.
  intros Htable Ht Hitems Hidx
    [[-> Hitem]|(f & argument & more & -> & Hf & Hargument & ->)];
    unfold check_item; rewrite bind_get_self; cbn [st_self].
  - rewrite (bind_Next _ _ _ _ _ (item_allowed_permitted _ _ _ _ Htable Ht Hitem)).
    by rewrite <- store_unchanged.
  - rewrite (bind_Next _ _ _ _ _
      (item_allowed_not_permitted _ _ _ _ Htable Ht (object_not_permitted _ _ _))).
    rewrite bind_eval. cbn [is_aggregate_item is_dict py_first py_list mbind
      py_result_bind fmap list_fmap fst py_in].
    rewrite (bool_decide_eq_true_2 _ Hf). cbv iota.
    rewrite bind_eval, bind_eval, py_getitem_head.
    rewrite (bind_Next _ _ _ _ _ (item_allowed_permitted _ _ _ _ Htable Ht Hargument)).
    unfold setitem_items. cbn [st_json_input st_self py_str]. rewrite Hitems.
    by rewrite decide_True by (by eapply lookup_lt_Some).
Qed.

(** One turn of the items loop on an entry that stops it. *)
Lemma check_item_refuses self j table index item shown :
  dict_get j "table" = Some (PStr table) →
  is_Some (ALLOWED_TABLES self !! table) →
  refused self table item shown →
  check_item index item (Store self j)
  = (Returned (RFalse ("Item not allowed - " +:+ shown)), Store self j).
Proof.
  intros Htable Ht [[-> Hitem]|(f & argument & more & -> & Hf & _ & Hargument & ->)];
    unfold check_item; rewrite bind_get_self; cbn [st_self].
  - by rewrite (bind_Next _ _ _ _ _ (item_allowed_not_permitted _ _ _ _ Htable Ht Hitem)).
  - rewrite (bind_Next _ _ _ _ _
      (item_allowed_not_permitted _ _ _ _ Htable Ht (object_not_permitted _ _ _))).
    rewrite bind_eval. cbn [is_aggregate_item is_dict py_first py_list mbind
      py_result_bind fmap list_fmap fst py_in].
    rewrite (bool_decide_eq_true_2 _ Hf). cbv iota.
    rewrite bind_eval, bind_eval, py_getitem_head.
    by rewrite (bind_Next _ _ _ _ _
      (item_allowed_not_permitted _ _ _ _ Htable Ht Hargument)).
Qed.

Lemma check_items_render self table items texts :
  Forall2 (renders self table) items texts →
  ∀ j done rest,
    dict_get j "table" = Some (PStr table) →
    is_Some (ALLOWED_TABLES self !! table) →
    dict_get j "items" = Some (PList (done ++ items ++ rest)) →
    check_items (length done) items (Store self j)
    = (Next (),
       Store self (dict_set j "items" (PList (done ++ (PStr <$> texts) ++ rest)))).
Proof.
  induction 1 as [|item text items texts Hitem _ IH]; intros j done rest Htable Ht Hitems.
  - cbn [check_items fmap list_fmap app] in *. by rewrite dict_set_same.
  - cbn [check_items].
    assert (Hidx : (done ++ (item :: items) ++ rest) !! length done = Some item)
      by (cbn [app]; by rewrite list_lookup_middle).
    rewrite (bind_Next _ _ _ _ _
      (check_item_renders _ _ _ _ _ _ _ Htable Ht Hitems Hidx Hitem)).
    rewrite insert_app_r_alt, Nat.sub_diag by done. cbn [app insert list_insert].
    specialize (IH (dict_set j "items" (PList (done ++ PStr text :: items ++ rest)))
                  (done ++ [PStr text]) rest).
    rewrite length_app, Nat.add_1_r in IH. rewrite IH.
    + rewrite dict_set_set, <- (assoc_L (++) done). by cbn [app fmap list_fmap].
    + by rewrite dict_get_set_ne.
    + done.
    + by rewrite dict_get_set_eq, <- (assoc_L (++) done).
Qed.

Lemma check_items_refuse self j table before texts bad shown rest :
  dict_get j "table" = Some (PStr table) →
  is_Some (ALLOWED_TABLES self !! table) →
  dict_get j "items" = Some (PList (before ++ bad :: rest)) →
  Forall2 (renders self table) before texts →
  refused self table bad shown →
  check_items 0 (before ++ bad :: rest) (Store self j)
  = (Returned (RFalse ("Item not allowed - " +:+ shown)),
     Store self (dict_set j "items" (PList ((PStr <$> texts) ++ bad :: rest)))).
Proof.
  intros Htable Ht Hitems Hbefore Hbad.
  assert (Happ : ∀ index l1 l2 st,
    check_items index (l1 ++ l2) st
    = (check_items index l1;; check_items (index + length l1) l2) st).
  { intros index l1. revert index.
    induction l1 as [|x l1 IH]; intros index l2 st.
    - cbn [app check_items length]. rewrite Nat.add_0_r.
      unfold mbind, stmt_bind, mret, stmt_ret. done.
    - cbn [app check_items length]. unfold mbind, stmt_bind.
      destruct (check_item index x st) as [[[]|?|?] st1]; [|done|done].
      rewrite IH. unfold mbind, stmt_bind. by rewrite Nat.add_succ_r. }
  rewrite Happ.
  rewrite (bind_Next _ _ _ _ _
    (check_items_render _ _ _ _ Hbefore j [] (bad :: rest) Htable Ht Hitems)).
  cbn [app length check_items Nat.add].
  apply bind_Returned.
  by rewrite (check_item_refuses _ _ table _ _ shown) by (done || by rewrite dict_get_set_ne).
Qed.

Lemma check_connection_passes self j :
  (dict_get j "connection" = None
   ∨ ∃ connection, dict_get j "connection" = Some (PStr connection)
                   ∧ connection ∈ ALLOWED_CONNECTIONS self) →
  check_connection (Store self j) = (Next (), Store self j).
Proof.
  intros Hconnection. unfold check_connection.
  rewrite bind_get_self, bind_get_json_input. cbn [st_self st_json_input].
  unfold dict_has.
  destruct Hconnection as [->|(connection & Hget & Hin)]; [done|].
  rewrite Hget, (getitem_dict _ _ _ Hget), bind_eval, py_in_str.
  by rewrite (bool_decide_eq_true_2 _ Hin).
Qed.

Lemma py_join_strs_texts texts : py_join_strs (PStr <$> texts) = Return texts.
Proof.
  induction texts as [|text texts IH]; [done|]. cbn. by rewrite IH.
Qed.

(** With the checks passed, what is left of the call is the assembly of the
    text, on the request with the items rendered. *)
Lemma sql_parse_assembles self j query items texts table :
  passes_checks self j query items texts table →
  sql_parse (Store self j) = call assemble (Store self (with_items j texts)).
Proof.
  intros (Hquery & Hitems & Htable & Hq & Ht & Hall & Hconnection).
  unfold sql_parse, call, sql_parse_body.
  rewrite (bind_Next _ _ _ _ _ (check_required_passes _ _ _ _ _ Hquery Hitems Htable)).
  rewrite (bind_Next _ _ _ _ _ (check_query_table_passes _ _ _ _ Hquery Htable Hq Ht)).
  erewrite (bind_Next check_all_items).
  2: { unfold check_all_items. rewrite bind_get_json_input. cbn [st_json_input].
       rewrite (getitem_dict _ _ _ Hitems), !bind_eval. cbn [py_list].
       pose proof (check_items_render _ _ _ _ Hall j [] [] Htable Ht) as Hloop.
       cbn [app length] in Hloop. rewrite !app_nil_r in Hloop. by apply Hloop. }
  fold (with_items j texts).
  assert (Hconnection' :
    dict_get (with_items j texts) "connection" = None
    ∨ ∃ connection, dict_get (with_items j texts) "connection" = Some (PStr connection)
                    ∧ connection ∈ ALLOWED_CONNECTIONS self)
    by (unfold with_items; by rewrite dict_get_set_ne).
  by rewrite (bind_Next _ _ _ _ _ (check_connection_passes _ _ Hconnection')).
Qed.

Lemma assemble_reads self j query texts table :
  dict_get j "query" = Some (PStr query) →
  dict_get j "items" = Some (PList (PStr <$> texts)) →
  dict_get j "table" = Some (PStr table) →
  assemble (Store self j)
  = let sql_string :=
      query +:+ " " +:+ String.concat "," texts +:+ " FROM " +:+ table in
    match dict_get j "logic" with
    | None => (Returned (RTrue sql_string []), Store self j)
    | Some logic =>
        match logic_parse self logic with
        | Return RNone => (Raised TypeError, Store self j)
        | Return (RFalse reason) =>
            (Returned (RFalse ("Logic Fail - " +:+ reason)), Store self j)
        | Return (RTrue sql params) =>
            match dict_get j "connection" with
            | Some connection =>
                (Returned (RTrue (sql_string +:+ " " +:+ py_str connection
                                    +:+ " " +:+ sql) params), Store self j)
            | None => (Raised KeyError, Store self j)
            end
        | Raise e => (Raised e, Store self j)
        end
    end.
Proof.
  intros Hquery Hitems Htable. unfold assemble.
  rewrite bind_get_self, bind_get_json_input. cbn [st_self st_json_input].
  rewrite (getitem_dict _ _ _ Hquery), (getitem_dict _ _ _ Hitems),
    (getitem_dict _ _ _ Htable), !bind_eval.
  unfold py_join. cbn [py_list mbind py_result_bind].
  rewrite py_join_strs_texts. cbn [mbind py_result_bind]. rewrite bind_eval.
  cbn [py_str]. unfold dict_has.
  destruct (dict_get j "logic") as [logic|] eqn:Hlogic; [|done].
  rewrite (getitem_dict _ _ _ Hlogic), !bind_eval.
  destruct (logic_parse self logic) as [[reason|sql params|]|]; try done.
  rewrite bind_eval. unfold py_getitem.
  by destruct (dict_get j "connection").
Qed.

Lemma assemble_rendered self j query items texts table :
  passes_checks self j query items texts table →
  assemble (Store self (with_items j texts))
  = let sql_string :=
      query +:+ " " +:+ String.concat "," texts +:+ " FROM " +:+ table in
    match dict_get j "logic" with
    | None => (Returned (RTrue sql_string []), Store self (with_items j texts))
    | Some logic =>
        match logic_parse self logic with
        | Return RNone => (Raised TypeError, Store self (with_items j texts))
        | Return (RFalse reason) =>
            (Returned (RFalse ("Logic Fail - " +:+ reason)),
             Store self (with_items j texts))
        | Return (RTrue sql params) =>
            match dict_get j "connection" with
            | Some connection =>
                (Returned (RTrue (sql_string +:+ " " +:+ py_str connection
                                    +:+ " " +:+ sql) params),
                 Store self (with_items j texts))
            | None => (Raised KeyError, Store self (with_items j texts))
            end
        | Raise e => (Raised e, Store self (with_items j texts))
        end
    end.
Proof.
  intros (Hquery & Hitems & Htable & _).
  rewrite (assemble_reads _ _ query texts table); unfold with_items.
  - by rewrite !dict_get_set_ne.
  - by rewrite dict_get_set_ne.
  - by rewrite dict_get_set_eq.
  - by rewrite dict_get_set_ne.
Qed.

(** X11: a request that passes the checks and has no [logic] field compiles
    to [query items FROM table], the items joined by commas, with no
    parameters.  The list of items may be empty, a [connection] is checked
    and then not used, and the request is left with each aggregate node
    among its items replaced by its text. *)
Theorem request_without_logic self j query items texts table :
  passes_checks self j query items texts table →
  dict_get j "logic" = None →
  sql_parse (Store self j)
  = (Return (RTrue (query +:+ " " +:+ String.concat "," texts
                      +:+ " FROM " +:+ table) []),
     Store self (with_items j texts)).
Proof.
  intros Hpass Hlogic. rewrite (sql_parse_assembles _ _ _ _ _ _ Hpass).
  unfold call. by rewrite (assemble_rendered _ _ _ _ _ _ Hpass), Hlogic.
Qed.

Lemma aggregate_request_passes_checks :
  passes_checks aggregate_policy aggregate_request
    "SELECT" [PDict [("MAX", PStr "userID")]] ["MAX(userID)"] "images".
Proof.
  unfold passes_checks. split_and!; try done.
  - apply list_elem_of_here.
  - constructor; [|constructor]. right.
    exists "MAX", (PStr "userID"), []. split_and!; try done.
    + apply list_elem_of_further, list_elem_of_here.
    + by left.
  - by left.
Qed.

Lemma scenario_passes_checks fields :
  passes_checks scenario_policy
    ([("query", PStr "SELECT"); ("items", PList [PStr "*"]); ("table", PStr "images")]
       ++ fields)
    "SELECT" [PStr "*"] ["*"] "images"
  ↔ (dict_get fields "connection" = None
     ∨ ∃ connection, dict_get fields "connection" = Some (PStr connection)
                     ∧ connection ∈ ALLOWED_CONNECTIONS scenario_policy).
Proof.
  unfold passes_checks. split; [by intros (_ & _ & _ & _ & _ & _ & ?)|].
  intros Hconnection. split_and!; try done.
  - apply list_elem_of_here.
  - constructor; [|constructor]. left. split; [done|by left].
Qed.

Lemma request_without_logic_witness :
  sql_parse (Store aggregate_policy aggregate_request)
  = (Return (RTrue ("SELECT" +:+ " " +:+ String.concat "," ["MAX(userID)"]
                      +:+ " FROM " +:+ "images") []),
     Store aggregate_policy (with_items aggregate_request ["MAX(userID)"])).
Proof.
  apply (request_without_logic aggregate_policy aggregate_request "SELECT"
           [PDict [("MAX", PStr "userID")]] ["MAX(userID)"] "images");
    [apply aggregate_request_passes_checks|done].
Defined.

(** X12: a request that passes the checks and has a [logic] field gets its
    outcome from [logic_parse].  A success appends the connection and the
    logic text to [query items FROM table] and keeps the parameters of
    [logic_parse]; a failure comes back as [(False, "Logic Fail - reason")];
    an exception passes through, and a [None] raises [TypeError]. *)
Theorem request_with_logic self j query items texts table connection logic :
  passes_checks self j query items texts table →
  dict_get j "connection" = Some (PStr connection) →
  dict_get j "logic" = Some logic →
  sql_parse (Store self j)
  = (match logic_parse self logic with
     | Return (RTrue sql params) =>
         Return (RTrue ((query +:+ " " +:+ String.concat "," texts
                           +:+ " FROM " +:+ table)
                          +:+ " " +:+ connection +:+ " " +:+ sql) params)
     | Return (RFalse reason) => Return (RFalse ("Logic Fail - " +:+ reason))
     | Return RNone => Raise TypeError
     | Raise e => Raise e
     end,
     Store self (with_items j texts)).
Proof.
  intros Hpass Hconnection Hlogic. rewrite (sql_parse_assembles _ _ _ _ _ _ Hpass).
  unfold call.
  rewrite (assemble_rendered _ _ _ _ _ _ Hpass), Hlogic, Hconnection.
  by destruct (logic_parse self logic) as [[]|].
Qed.

Lemma request_with_logic_witness :
  let json_input :=
    [("query", PStr "SELECT"); ("items", PList [PStr "*"]); ("table", PStr "images");
     ("connection", PStr "WHERE"); ("logic", scenario_logic)] in
  sql_parse (Store scenario_policy json_input)
  = (match logic_parse scenario_policy scenario_logic with
     | Return (RTrue sql params) =>
         Return (RTrue (("SELECT" +:+ " " +:+ String.concat "," ["*"]
                           +:+ " FROM " +:+ "images")
                          +:+ " " +:+ "WHERE" +:+ " " +:+ sql) params)
     | Return (RFalse reason) => Return (RFalse ("Logic Fail - " +:+ reason))
     | Return RNone => Raise TypeError
     | Raise e => Raise e
     end,
     Store scenario_policy (with_items json_input ["*"])).
Proof.
  intros json_input.
  apply (request_with_logic scenario_policy json_input "SELECT" [PStr "*"] ["*"]
           "images" "WHERE" scenario_logic); [|done|done].
  apply (scenario_passes_checks [("connection", PStr "WHERE"); ("logic", scenario_logic)]).
  right. exists "WHERE". split; [done|apply list_elem_of_here].
Defined.

(** X13: with a [logic] field and no [connection], a request that passes
    the checks still reports a failing logic as data, and raises [KeyError]
    exactly when the logic compiles. *)
Theorem request_with_logic_and_no_connection self j query items texts table logic :
  passes_checks self j query items texts table →
  dict_get j "connection" = None →
  dict_get j "logic" = Some logic →
  sql_parse (Store self j)
  = (match logic_parse self logic with
     | Return (RTrue _ _) => Raise KeyError
     | Return (RFalse reason) => Return (RFalse ("Logic Fail - " +:+ reason))
     | Return RNone => Raise TypeError
     | Raise e => Raise e
     end,
     Store self (with_items j texts)).
Proof.
  intros Hpass Hconnection Hlogic. rewrite (sql_parse_assembles _ _ _ _ _ _ Hpass).
  unfold call.
  rewrite (assemble_rendered _ _ _ _ _ _ Hpass), Hlogic, Hconnection.
  by destruct (logic_parse self logic) as [[]|].
Qed.

Lemma request_with_logic_and_no_connection_witness :
  let json_input :=
    [("query", PStr "SELECT"); ("items", PList [PStr "*"]); ("table", PStr "images");
     ("logic", scenario_logic)] in
  sql_parse (Store scenario_policy json_input)
  = (match logic_parse scenario_policy scenario_logic with
     | Return (RTrue _ _) => Raise KeyError
     | Return (RFalse reason) => Return (RFalse ("Logic Fail - " +:+ reason))
     | Return RNone => Raise TypeError
     | Raise e => Raise e
     end,
     Store scenario_policy (with_items json_input ["*"])).
Proof.
  intros json_input.
  apply (request_with_logic_and_no_connection scenario_policy json_input "SELECT"
           [PStr "*"] ["*"] "images" scenario_logic); [|done|done].
  apply (scenario_passes_checks [("logic", scenario_logic)]). by left.
Defined.

(** ** Requests that are refused *)

(** X14: with the required fields in place, a query that is not whitelisted
    is refused by name whatever the rest of the request holds, and so is,
    under a whitelisted query, a table that is not registered; the request
    is left as it was. *)
Theorem query_and_table_are_checked_first self j query items table :
  dict_get j "query" = Some (PStr query) →
  dict_get j "items" = Some (PList items) →
  dict_get j "table" = Some (PStr table) →
  (query ∉ ALLOWED_QUERIES self →
   sql_parse (Store self j)
   = (Return (RFalse ("Query not allowed - " +:+ query)), Store self j))
  ∧ (query ∈ ALLOWED_QUERIES self → ALLOWED_TABLES self !! table = None →
     sql_parse (Store self j)
     = (Return (RFalse ("Table not allowed - " +:+ table)), Store self j)).
Proof.
  intros Hquery Hitems Htable.
  split; [intros Hq|intros Hq Ht]; unfold sql_parse, call, sql_parse_body;
    rewrite (bind_Next _ _ _ _ _ (check_required_passes _ _ _ _ _ Hquery Hitems Htable));
    erewrite bind_Returned; try reflexivity;
    unfold check_query_table;
    rewrite bind_get_self, bind_get_json_input; cbn [st_self st_json_input];
    rewrite (getitem_dict _ _ _ Hquery), !bind_eval, py_in_str.
  - by rewrite (bool_decide_eq_false_2 _ Hq).
  - rewrite (bool_decide_eq_true_2 _ Hq). cbn [negb].
    rewrite (getitem_dict _ _ _ Htable), !bind_eval.
    rewrite bool_decide_eq_false_2; [done|]. rewrite Ht. by intros [].
Qed.

Lemma query_and_table_are_checked_first_witness :
  sql_parse (Store scenario_policy (select_request "DROP" [PInt 1] "users"))
  = (Return (RFalse ("Query not allowed - " +:+ "DROP")),
     Store scenario_policy (select_request "DROP" [PInt 1] "users"))
  ∧ sql_parse (Store scenario_policy (select_request "SELECT" [PInt 1] "users"))
    = (Return (RFalse ("Table not allowed - " +:+ "users")),
       Store scenario_policy (select_request "SELECT" [PInt 1] "users")).
Proof.
  split.
  - apply (query_and_table_are_checked_first scenario_policy
             (select_request "DROP" [PInt 1] "users") "DROP" [PInt 1] "users");
      [done|done|done|].
    cbn. by intros [?|?%elem_of_nil]%elem_of_cons.
  - apply (query_and_table_are_checked_first scenario_policy
             (select_request "SELECT" [PInt 1] "users") "SELECT" [PInt 1] "users");
      [done|done|done| |done].
    apply list_elem_of_here.
Defined.

Lemma sql_parse_refuses_item self j query before texts bad shown rest table :
  dict_get j "query" = Some (PStr query) →
  dict_get j "items" = Some (PList (before ++ bad :: rest)) →
  dict_get j "table" = Some (PStr table) →
  query ∈ ALLOWED_QUERIES self →
  is_Some (ALLOWED_TABLES self !! table) →
  Forall2 (renders self table) before texts →
  refused self table bad shown →
  sql_parse (Store self j)
  = (Return (RFalse ("Item not allowed - " +:+ shown)),
     Store self (dict_set j "items" (PList ((PStr <$> texts) ++ bad :: rest)))).
Proof.
  intros Hquery Hitems Htable Hq Ht Hbefore Hbad.
  unfold sql_parse, call, sql_parse_body.
  rewrite (bind_Next _ _ _ _ _ (check_required_passes _ _ _ _ _ Hquery Hitems Htable)).
  rewrite (bind_Next _ _ _ _ _ (check_query_table_passes _ _ _ _ Hquery Htable Hq Ht)).
  erewrite bind_Returned; [reflexivity|].
  unfold check_all_items. rewrite bind_get_json_input. cbn [st_json_input].
  rewrite (getitem_dict _ _ _ Hitems), !bind_eval. cbn [py_list].
  by rewrite (check_items_refuse _ _ _ _ _ _ _ _ Htable Ht Hitems Hbefore Hbad).
Qed.

(** X15: the items are checked in order, and the first entry that is
    refused ends the call with its name: a [str] that is not permitted, or
    the argument of an aggregate node when that argument is not permitted
    and is a [str], a number, a [bool] or [None].  The aggregate nodes
    accepted before it have by then been replaced in the request by their
    texts, and stay replaced. *)
Theorem refused_item_ends_the_call self j query before texts bad shown rest table :
  dict_get j "query" = Some (PStr query) →
  dict_get j "items" = Some (PList (before ++ bad :: rest)) →
  dict_get j "table" = Some (PStr table) →
  query ∈ ALLOWED_QUERIES self →
  is_Some (ALLOWED_TABLES self !! table) →
  Forall2 (renders self table) before texts →
  refused self table bad shown →
  sql_parse (Store self j)
  = (Return (RFalse ("Item not allowed - " +:+ shown)),
     Store self (dict_set j "items" (PList ((PStr <$> texts) ++ bad :: rest)))).
Proof. apply sql_parse_refuses_item. Qed.

Lemma refused_item_ends_the_call_witness :
  let items := [PDict [("MAX", PStr "userID")]; PStr "password"; PStr "*"] in
  sql_parse (Store aggregate_policy (select_request "SELECT" items "images"))
  = (Return (RFalse ("Item not allowed - " +:+ "password")),
     Store aggregate_policy
       (dict_set (select_request "SELECT" items "images") "items"
          (PList ((PStr <$> ["MAX(userID)"]) ++ PStr "password" :: [PStr "*"])))).
Proof.
  intros items.
  apply (refused_item_ends_the_call aggregate_policy
           (select_request "SELECT" items "images") "SELECT"
           [PDict [("MAX", PStr "userID")]] ["MAX(userID)"]
           (PStr "password") "password" [PStr "*"] "images"); try done.
  - apply list_elem_of_here.
  - constructor; [|constructor]. right.
    exists "MAX", (PStr "userID"), []. split_and!; try done.
    + apply list_elem_of_further, list_elem_of_here.
    + by left.
  - left. split; [done|].
    rewrite (permitted_eval _ _ [None]) by done. by vm_compute.
Defined.

(** X16: a connection that is not whitelisted ends the call with its
    name, with or without a [logic] field to connect; the connection is a
    [str], a number, a [bool] or [None].  It is checked after the items, so
    the aggregate nodes among them have been replaced by then. *)
Theorem connection_is_checked_after_items self j query items texts table connection :
  dict_get j "query" = Some (PStr query) →
  dict_get j "items" = Some (PList items) →
  dict_get j "table" = Some (PStr table) →
  query ∈ ALLOWED_QUERIES self →
  is_Some (ALLOWED_TABLES self !! table) →
  Forall2 (renders self table) items texts →
  dict_get j "connection" = Some connection →
  is_container connection = false →
  py_in connection (ALLOWED_CONNECTIONS self) = false →
  sql_parse (Store self j)
  = (Return (RFalse ("Connection not allowed - " +:+ py_str connection)),
     Store self (with_items j texts)).
Proof.
  intros Hquery Hitems Htable Hq Ht Hall Hconnection _ Hin.
  unfold sql_parse, call, sql_parse_body.
  rewrite (bind_Next _ _ _ _ _ (check_required_passes _ _ _ _ _ Hquery Hitems Htable)).
  rewrite (bind_Next _ _ _ _ _ (check_query_table_passes _ _ _ _ Hquery Htable Hq Ht)).
  erewrite (bind_Next check_all_items).
  2: { unfold check_all_items. rewrite bind_get_json_input. cbn [st_json_input].
       rewrite (getitem_dict _ _ _ Hitems), !bind_eval. cbn [py_list].
       pose proof (check_items_render _ _ _ _ Hall j [] [] Htable Ht) as Hloop.
       cbn [app length] in Hloop. rewrite !app_nil_r in Hloop. by apply Hloop. }
  fold (with_items j texts).
  erewrite bind_Returned; [reflexivity|].
  assert (Hconnection' : dict_get (with_items j texts) "connection" = Some connection)
    by (unfold with_items; by rewrite dict_get_set_ne).
  unfold check_connection.
  rewrite bind_get_self, bind_get_json_input. cbn [st_self st_json_input].
  unfold dict_has.
  by rewrite Hconnection', (getitem_dict _ _ _ Hconnection'), bind_eval, Hin.
Qed.

Lemma connection_is_checked_after_items_witness :
  let json_input :=
    [("query", PStr "SELECT"); ("items", PList [PDict [("MAX", PStr "userID")]]);
     ("table", PStr "images"); ("connection", PStr "HAVING")] in
  sql_parse (Store aggregate_policy json_input)
  = (Return (RFalse ("Connection not allowed - " +:+ py_str (PStr "HAVING"))),
     Store aggregate_policy (with_items json_input ["MAX(userID)"])).
Proof.
  intros json_input.
  apply (connection_is_checked_after_items aggregate_policy json_input "SELECT"
           [PDict [("MAX", PStr "userID")]] ["MAX(userID)"] "images" (PStr "HAVING"));
    try done.
  - apply list_elem_of_here.
  - constructor; [|constructor]. right.
    exists "MAX", (PStr "userID"), []. split_and!; try done.
    + apply list_elem_of_further, list_elem_of_here.
    + by left.
Defined.

Lemma passes_checks_store self j query items texts table :
  passes_checks self j query items texts table →
  (sql_parse (Store self j)).2 = Store self (with_items j texts).
Proof.
  intros Hpass. rewrite (sql_parse_assembles _ _ _ _ _ _ Hpass).
  unfold call. rewrite (assemble_rendered _ _ _ _ _ _ Hpass). cbn zeta.
  destruct (dict_get j "logic"); [|done].
  destruct (logic_parse self _) as [[]|]; try done.
  by destruct (dict_get j "connection").
Qed.

(** X17: a request that passed the checks is refused when it is sent
    again, if the text of one of its aggregate nodes is not itself
    whitelisted: the second call finds the text where the node was, and
    names the first such text. *)
Theorem rendered_request_is_refused self j query items texts table before text after :
  passes_checks self j query items texts table →
  texts = before ++ text :: after →
  Forall (λ b, permitted self table (PStr b)) before →
  ¬ permitted self table (PStr text) →
  sql_parse (sql_parse (Store self j)).2
  = (Return (RFalse ("Item not allowed - " +:+ text)), (sql_parse (Store self j)).2).
Proof.
  intros Hpass -> Hbefore Htext. rewrite (passes_checks_store _ _ _ _ _ _ Hpass).
  destruct Hpass as (Hquery & Hitems & Htable & Hq & Ht & _).
  unfold with_items.
  rewrite (sql_parse_refuses_item self _ query (PStr <$> before) before
             (PStr text) text (PStr <$> after) table).
  - by rewrite dict_set_set, fmap_app.
  - by rewrite dict_get_set_ne.
  - by rewrite dict_get_set_eq, fmap_app.
  - by rewrite dict_get_set_ne.
  - done.
  - done.
  - induction Hbefore as [|b before Hb _ IH]; constructor; [by left|done].
  - by left.
Qed.

Lemma rendered_request_is_refused_witness :
  sql_parse (sql_parse (Store aggregate_policy aggregate_request)).2
  = (Return (RFalse ("Item not allowed - " +:+ "MAX(userID)")),
     (sql_parse (Store aggregate_policy aggregate_request)).2).
Proof.
  apply (rendered_request_is_refused aggregate_policy aggregate_request "SELECT"
           [PDict [("MAX", PStr "userID")]] ["MAX(userID)"] "images"
           [] "MAX(userID)" []);
    [apply aggregate_request_passes_checks|done|constructor|].
  rewrite (permitted_eval _ _ [None]) by done. by vm_compute.
Defined.

(** ** What a call of [sql_parse] can return *)

(** One turn of the items loop that goes on to the next entry. *)
Lemma check_item_next self j table l index item st' :
  dict_get j "table" = Some (PStr table) →
  is_Some (ALLOWED_TABLES self !! table) →
  dict_get j "items" = Some (PList l) →
  l !! index = Some item →
  check_item index item (Store self j) = (Next (), st') →
  ∃ item',
    st' = Store self (dict_set j "items" (PList (<[index := item']> l)))
    ∧ leaves self table item item'.
Proof.
  intros Htable [columns Hcolumns] Hitems Hidx.
  unfold check_item. rewrite bind_get_self. cbn [st_self].
  rewrite (bind_Next _ _ _ _ _ (item_allowed_eval _ _ _ _ item Htable Hcolumns)).
  destruct (py_in item (ALLOWED_ITEMS self) || py_in_columns item columns) eqn:Hitem.
  { intros [= <-]. exists item. split; [by apply store_unchanged|].
    left. split; [by apply (permitted_eval _ _ columns)|done]. }
  rewrite bind_eval. unfold is_aggregate_item.
  destruct (is_dict item) eqn:Hdict; [|done].
  destruct item as [| | | | | | |[|[f argument] more]]; try done.
  cbn [py_first py_list mbind py_result_bind fmap list_fmap fst py_in].
  case_bool_decide as Hf; [|done].
  rewrite bind_eval, bind_eval, py_getitem_head.
  rewrite (bind_Next _ _ _ _ _ (item_allowed_eval _ _ _ _ argument Htable Hcolumns)).
  destruct (py_in argument (ALLOWED_ITEMS self) || py_in_columns argument columns)
    eqn:Hargument; [|done].
  unfold setitem_items. cbn [st_json_input st_self py_str]. rewrite Hitems.
  rewrite decide_True by (by eapply lookup_lt_Some).
  intros [= <-]. eexists. split; [done|].
  right. exists f, argument, more. split_and!; try done.
  by apply (permitted_eval _ _ columns).
Qed.

Lemma check_items_next self table items :
  ∀ j done st',
    dict_get j "table" = Some (PStr table) →
    is_Some (ALLOWED_TABLES self !! table) →
    dict_get j "items" = Some (PList (done ++ items)) →
    check_items (length done) items (Store self j) = (Next (), st') →
    ∃ items',
      st' = Store self (dict_set j "items" (PList (done ++ items')))
      ∧ Forall2 (leaves self table) items items'.
Proof.
  induction items as [|item items IH]; intros j done st' Htable Ht Hitems.
  - cbn [check_items]. intros [= <-]. exists []. by rewrite dict_set_same.
  - cbn [check_items].
    assert (Hidx : (done ++ item :: items) !! length done = Some item)
      by (by rewrite list_lookup_middle).
    intros [([] & st1 & Hone & Hrun)|[(r & _ & [=])|(e & _ & [=])]]%stmt_bind_inv.
    destruct (check_item_next _ _ _ _ _ _ _ Htable Ht Hitems Hidx Hone)
      as (item' & -> & Hitem).
    rewrite insert_app_r_alt, Nat.sub_diag in Hrun by done.
    cbn [insert list_insert] in Hrun.
    specialize (IH (dict_set j "items" (PList (done ++ item' :: items)))
                  (done ++ [item']) st').
    rewrite length_app, Nat.add_1_r in IH.
    destruct IH as (items' & -> & Hrest); try done.
    + by rewrite dict_get_set_ne.
    + by rewrite dict_get_set_eq, <- (assoc_L (++) done).
    + exists (item' :: items'). split; [|by constructor].
      by rewrite dict_set_set, <- (assoc_L (++) done).
Qed.

Lemma check_all_items_next self j table items st' :
  dict_get j "table" = Some (PStr table) →
  is_Some (ALLOWED_TABLES self !! table) →
  dict_get j "items" = Some (PList items) →
  check_all_items (Store self j) = (Next (), st') →
  ∃ items',
    st' = Store self (dict_set j "items" (PList items'))
    ∧ Forall2 (leaves self table) items items'.
Proof.
  intros Htable Ht Hitems. unfold check_all_items.
  rewrite bind_get_json_input. cbn [st_json_input].
  rewrite (getitem_dict _ _ _ Hitems), !bind_eval. cbn [py_list].
  by apply (check_items_next _ _ _ j []).
Qed.

Lemma leaves_renders self table items texts :
  Forall2 (leaves self table) items (PStr <$> texts) →
  Forall2 (renders self table) items texts.
Proof.
  revert items. induction texts as [|text texts IH]; intros items.
  - intros ->%Forall2_nil_inv_r. constructor.
  - intros (item & items' & Hitem & Hrest & ->)%Forall2_cons_inv_r.
    constructor; [|by apply IH].
    destruct Hitem as [[Hitem <-]|(f & argument & more & -> & Hf & Hargument & [= ->])].
    + by left.
    + right. by exists f, argument, more.
Qed.

(** A success of [sql_parse] in full: the request passed the checks, the
    text is [query items FROM table] over the texts left in the request,
    and with a [logic] field the connection and the text of [logic_parse]
    follow, with its parameters.  And the method never falls off its end. *)
Lemma sql_parse_outcome self j o st' :
  sql_parse (Store self j) = (o, st') →
  match o with
  | Return RNone => False
  | Return (RTrue sql params) =>
      ∃ query table items texts,
        dict_get j "query" = Some (PStr query)
        ∧ dict_get j "table" = Some (PStr table)
        ∧ dict_get j "items" = Some (PList items)
        ∧ query ∈ ALLOWED_QUERIES self
        ∧ is_Some (ALLOWED_TABLES self !! table)
        ∧ Forall2 (accepted self table) items (PStr <$> texts)
        ∧ Forall2 (renders self table) items texts
        ∧ st' = Store self (with_items j texts)
        ∧ let sql_string :=
            query +:+ " " +:+ String.concat "," texts +:+ " FROM " +:+ table in
          (dict_get j "logic" = None ∧ sql = sql_string ∧ params = [])
          ∨ ∃ logic connection sql',
              dict_get j "logic" = Some logic
              ∧ dict_get j "connection" = Some (PStr connection)
              ∧ connection ∈ ALLOWED_CONNECTIONS self
              ∧ logic_parse self logic = Return (RTrue sql' params)
              ∧ sql = sql_string +:+ " " +:+ connection +:+ " " +:+ sql'
  | _ => True
  end.
Proof.
  intros (o' & Hbody & ->)%call_inv. revert Hbody. unfold sql_parse_body.
  intros [(u & st1 & Hreq & Hrun)|[(r & Hreq & ->)|(e & Hreq & ->)]]%stmt_bind_inv;
    apply check_required_inv in Hreq as [-> Hreq]; [|by destruct r|done].
  destruct Hreq as (query & items & table & Hquery & Hitems & Htable).
  revert Hrun.
  intros [(u1 & st1 & Hqt & Hrun)|[(r & Hqt & ->)|(e & Hqt & ->)]]%stmt_bind_inv;
    apply (check_query_table_inv _ _ query table) in Hqt as [-> Hqt]; try done;
    [|by destruct r].
  destruct Hqt as [Hq Ht].
  revert Hrun.
  intros [([] & st1 & Hloop & Hrun)|[(r & Hloop & ->)|(e & Hloop & ->)]]%stmt_bind_inv;
    [pose proof (check_all_items_next _ _ _ _ _ Htable Ht Hitems Hloop) as Hnext| |];
    apply (check_all_items_inv _ _ table items) in Hloop as (items' & -> & _ & Hloop);
    try done; [|by destruct r].
  destruct Hnext as (items'' & Hsame & Hleaves).
  assert (items'' = items') as ->.
  { apply (f_equal (λ st, dict_get (st_json_input st) "items")) in Hsame.
    cbn [st_json_input] in Hsame. rewrite !dict_get_set_eq in Hsame. by simplify_eq. }
  clear Hsame.
  assert (Hquery' : dict_get (dict_set j "items" (PList items')) "query" = Some (PStr query))
    by (by rewrite dict_get_set_ne).
  assert (Htable' : dict_get (dict_set j "items" (PList items')) "table" = Some (PStr table))
    by (by rewrite dict_get_set_ne).
  assert (Hitems' : dict_get (dict_set j "items" (PList items')) "items" = Some (PList items'))
    by (by rewrite dict_get_set_eq).
  revert Hrun.
  intros [(u3 & st1 & Hconn & Hrun)|[(r & Hconn & ->)|(e & Hconn & ->)]]%stmt_bind_inv;
    apply check_connection_inv in Hconn as [-> Hconn]; [|by destruct r|done].
  rewrite dict_get_set_ne in Hconn by done.
  pose proof Hrun as Hshape.
  apply (assemble_inv _ _ query table items') in Hshape as [-> Hshape];
    [|done|done|done|by rewrite dict_get_set_ne].
  destruct o' as [?|[reason|sql params|]|e]; try done.
  destruct Hshape as (texts & -> & _).
  rewrite (assemble_reads _ _ query texts table) in Hrun by done.
  cbn zeta in Hrun. rewrite dict_get_set_ne in Hrun by done.
  exists query, table, items, texts. split_and!; try done; [by apply leaves_renders|].
  destruct (dict_get j "logic") as [logic|] eqn:Hlogic.
  - right. destruct (logic_parse self logic) as [[|sql' params'|]|] eqn:Hparse;
      try done.
    rewrite dict_get_set_ne in Hrun by done.
    destruct Hconn as [Hnone|(connection & Hsome & Hin)].
    + by rewrite Hnone in Hrun.
    + rewrite Hsome in Hrun. simplify_eq. by exists logic, connection, sql'.
  - left. by simplify_eq.
Qed.

(** X18: [sql_parse] never returns [None]: on every request, under every
    policy, it returns a pair, returns a triple or raises. *)
Theorem sql_parse_never_returns_none self json_input :
  (sql_parse (Store self json_input)).1 ≠ Return RNone.
Proof.
  destruct (sql_parse (Store self json_input)) as [o st'] eqn:Hrun.
  apply sql_parse_outcome in Hrun. cbn [fst]. by intros ->.
Qed.

(** ** What the text is made of *)

Lemma valid_object_operand_is_aggregate self comparator d valuetype :
  is_valid_value self (PDict d) valuetype = Return true
  ∨ is_special_comparison self comparator (PDict d) valuetype = Return true →
  ∃ f x more, d = (f, x) :: more ∧ f ∈ AGGREGATES self.
Proof.
  intros [Hvalid|Hvalid]; [|done]. revert Hvalid.
  unfold is_valid_value, is_valid_aggregate. cbn [is_dict negb].
  destruct d as [|[f x] more]; [done|].
  cbn [py_first py_list fmap list_fmap fst mbind py_result_bind].
  rewrite py_getitem_head. cbn [mbind py_result_bind]. rewrite py_in_str.
  case_bool_decide; [|done]. eauto.
Qed.

Lemma valid_operand_is_no_tuple self comparator l valuetype :
  ¬ (is_valid_value self (PTuple l) valuetype = Return true
     ∨ is_special_comparison self comparator (PTuple l) valuetype = Return true).
Proof. intros [Hvalid|Hvalid]; [|done]. by destruct valuetype. Qed.

(** The parameters of a compiled comparison, by the kind of its operand. *)
Lemma compile_comparison_binds self value body sql params :
  is_valid_comparison self value body = Return true →
  compile_comparison self value body = Return (RTrue sql params) →
  ∃ comparator operand more,
    body = PDict ((comparator, operand) :: more)
    ∧ if is_dict operand then params = []
      else if bool_decide (comparator ∈ COMPARISON self) then
        params = if is_another_column self operand then [] else [operand]
      else (is_list operand = true ∨ is_str operand = true)
           ∧ py_list operand = Return params.
Proof.
  intros (comparator & operand & valuetype & Hfirst & _ & Hoperand & _ & Hvalid)
    %valid_comparison_inv.
  assert (∃ more, body = PDict ((comparator, operand) :: more)) as [more ->].
  { destruct body as [| | | |s|l|l|[|[k x] d]]; try done.
    revert Hfirst Hoperand.
    cbn [py_first py_list fmap list_fmap fst mbind py_result_bind].
    intros [= ->]. rewrite py_getitem_head. intros [= ->]. eauto. }
  intros Hrun. exists comparator, operand, more. split; [done|]. revert Hrun.
  unfold compile_comparison.
  cbn [py_first py_list fmap list_fmap fst mbind py_result_bind].
  rewrite py_getitem_head. cbn [mbind py_result_bind]. rewrite !py_in_str.
  destruct (is_dict operand) eqn:Hdict.
  { destruct operand as [| | | | | | |d]; try done.
    destruct (valid_object_operand_is_aggregate _ _ _ _ Hvalid)
      as (f & x & more' & -> & Hf).
    cbn [is_another_column andb negb is_dict].
    rewrite !andb_false_r.
    cbn [py_first py_list fmap list_fmap fst mbind py_result_bind].
    rewrite py_in_str, (bool_decide_eq_true_2 _ Hf), py_getitem_head.
    cbn [mbind py_result_bind]. by intros [= _ <-]. }
  destruct (bool_decide (comparator ∈ COMPARISON self)); cbn [andb negb].
  - destruct (is_another_column self operand) eqn:Hother; cbn [negb andb].
    { by intros [= _ <-]. }
    intros [= _ <-]. destruct operand; try done.
    by destruct (valid_operand_is_no_tuple _ _ _ _ Hvalid).
  - destruct (py_first operand) as [first|] eqn:Hopfirst; [|done].
    cbn [mbind py_result_bind].
    destruct (py_in first (AGGREGATES self)) eqn:Hagg.
    { apply py_in_inv in Hagg as (f & -> & Hf). by destruct operand. }
    destruct (bool_decide (comparator ∈ SPECIAL_COMPARISON self)); [|done].
    assert (Hkind : is_list operand = true ∨ is_str operand = true).
    { destruct operand; try done; [by right|by left|].
      by destruct (valid_operand_is_no_tuple _ _ _ _ Hvalid). }
    destruct (py_eq_str (PStr comparator) "BETWEEN").
    { destruct (py_list operand); [|done]. cbn [mbind py_result_bind].
      by intros [= _ <-]. }
    destruct (py_eq_str (PStr comparator) "IN"); [|done].
    destruct (py_len operand); [|done]. cbn [mbind py_result_bind].
    destruct (py_list operand); [|done]. cbn [mbind py_result_bind].
    by intros [= _ <-].
Qed.

Lemma parse_cases_binds self cases data :
  Forall (λ case, ∀ sql params,
            logic_parse self case = Return (RTrue sql params) →
            params = literal_operands self case) cases →
  parse_cases (logic_parse self) cases = Return (inr data) →
  concat (snd <$> data) = concat (map (literal_operands self) cases).
Proof.
  intros Hcases. revert data.
  induction Hcases as [|case cases Hcase _ IH]; intros data; cbn [parse_cases].
  - by intros [= <-].
  - destruct (logic_parse self case) as [[reason|sql params|]|]; cbn [mbind py_result_bind];
      try done.
    destruct (parse_cases (logic_parse self) cases) as [[safe'|data']|];
      cbn [mbind py_result_bind]; try done.
    intros [= <-]. cbn [fmap list_fmap snd map concat].
    by rewrite (Hcase sql params eq_refl), (IH data' eq_refl).
Qed.

(** The parameters of a compiled logic tree are its literal operands, in
    reading order. *)
Lemma logic_parse_binds self json_input sql params :
  no_special_str self json_input = true →
  logic_parse self json_input = Return (RTrue sql params) →
  params = literal_operands self json_input.
Proof.
  revert sql params.
  enough (Hboth :
    (no_special_str self json_input = true →
     ∀ sql params,
       logic_parse self json_input = Return (RTrue sql params) →
       params = literal_operands self json_input)
    ∧ (∀ children, json_input = PList children →
         Forall (λ case, no_special_str self case = true →
                   ∀ sql params,
                     logic_parse self case = Return (RTrue sql params) →
                     params = literal_operands self case) children))
    by (intros; by eapply Hboth).
  induction json_input as [| | | | |l IH|l IH|d IH] using pyval_nested_ind;
    (split; [|try done]).
  1-5: try done.
  - by destruct s.
  - by destruct l.
  - intros children [= <-]. eapply Forall_impl; [exact IH|]. by intros ? [? _].
  - by destruct l.
  - destruct d as [|[value body] d]; [done|].
    intros Hfree sql params. rewrite logic_parse_node. unfold parse_node.
    destruct (negb _); [done|].
    destruct (bool_decide (value ∈ LOGICAL self) && negb (is_list body)); [done|].
    assert (Hleaf :
      is_valid_comparison self value body = Return true →
      compile_comparison self value body = Return (RTrue sql params) →
      params = literal_operands self (PDict ((value, body) :: d))).
    { intros Hvalid Hrun.
      destruct (compile_comparison_binds _ _ _ _ _ Hvalid Hrun)
        as (comparator & operand & more & -> & Hparams).
      cbn [literal_operands no_special_str] in *.
      destruct (is_dict operand); [done|].
      destruct (bool_decide (comparator ∈ COMPARISON self)); [done|].
      destruct Hparams as [Hkind Hparams].
      destruct operand; try (by destruct Hkind).
      cbn [py_list] in Hparams. by injection Hparams. }
    destruct (bool_decide (is_Some (ALLOWED_COLUMNS self !! value))).
    + destruct (is_valid_comparison self value body) as [[]|] eqn:Hvalid;
        cbn [mbind py_result_bind negb]; [| |done].
      * by apply Hleaf.
      * by intros [? [=]]%bad_comparison_fails.
    + cbn [mbind py_result_bind].
      destruct (is_valid_comparison self value body) as [[]|] eqn:Hvalid;
        cbn [mbind py_result_bind]; [by apply Hleaf| |done].
      case_bool_decide as Hconnector; [|done].
      destruct body as [| | | | |children| |]; try done.
      case_decide; [done|].
      destruct (parse_cases (logic_parse self) children) as [[safe|data]|] eqn:Hrun;
        cbn [mbind py_result_bind]; [| |done].
      * apply parse_cases_inl in Hrun as [reason ->]. done.
      * intros [= _ <-]. cbn [literal_operands].
        eapply parse_cases_binds; [|done].
        apply Forall_cons_1 in IH as [[_ IH] _]. specialize (IH _ eq_refl).
        cbn [no_special_str] in Hfree. rewrite forallb_forall in Hfree.
        rewrite Forall_forall in IH. apply Forall_forall.
        intros case Hcase. apply IH; [done|]. by apply Hfree, list_elem_of_In.
Qed.

Lemma permitted_name_listed self table name :
  permitted self table (PStr name) → listed self table name.
Proof.
  intros [Hin|(columns & Hcolumns & Hin)]; apply bool_decide_eq_true in Hin;
    [by left|right; eauto].
Qed.

Lemma renders_whitelisted self table item text :
  renders self table item text → null_aggregate item = false →
  whitelisted_item self table text.
Proof.
  intros [[-> Hitem]|(f & argument & more & -> & Hf & Hargument & ->)] Hnull.
  - left. by apply permitted_name_listed.
  - right.
    destruct argument as [| | | |name| | |]; try done;
      try (by destruct Hargument as [?|(? & _ & ?)]).
    exists f, name. split_and!; [done|by apply permitted_name_listed|done].
Qed.

Lemma renders_all_whitelisted self table items texts :
  Forall2 (renders self table) items texts →
  Forall (λ item, null_aggregate item = false) items →
  Forall (whitelisted_item self table) texts.
Proof.
  induction 1 as [|item text items texts Hitem _ IH]; [constructor|].
  intros [Hnull Hrest]%Forall_cons_1.
  constructor; [by eapply renders_whitelisted|by apply IH].
Qed.

(** C4, amended: on every success the text is assembled from whitelisted
    identifiers and fixed punctuation, and the literal operands are the
    parameters, in reading order.  The text of [logic_parse] is built from
    keys of [ALLOWED_COLUMNS], comparators, aggregate tags, connectors and
    [?] marks; the text of [sql_parse] from an allowed query, a registered
    table, items that are listed names or aggregate functions over listed
    names, an allowed connection and such a logic text.  The items are
    those of a request with no aggregate item over [null], and the
    parameters those of a logic with no [str] operand under a special
    comparator.  (A literal may still coincide with a piece of the text.) *)
Theorem compiled_text_is_whitelisted self :
  (∀ json_input sql params,
     logic_parse self json_input = Return (RTrue sql params) →
     whitelisted_logic self sql
     ∧ (no_special_str self json_input = true →
        params = literal_operands self json_input))
  ∧ (∀ j sql params,
       (sql_parse (Store self j)).1 = Return (RTrue sql params) →
       ((∀ items, dict_get j "items" = Some (PList items) →
                  Forall (λ item, null_aggregate item = false) items) →
        whitelisted_query self sql)
       ∧ match dict_get j "logic" with
         | Some logic =>
             no_special_str self logic = true → params = literal_operands self logic
         | None => params = []
         end).
Proof.
  split.
  - intros json_input sql params Hrun.
    split; [by eapply logic_parse_whitelisted|intros; by eapply logic_parse_binds].
  - intros j sql params Hrun.
    destruct (sql_parse (Store self j)) as [o st'] eqn:Hparse. cbn [fst] in Hrun. subst o.
    apply sql_parse_outcome in Hparse
      as (query & table & items & texts & _ & _ & Hitems & Hquery & Htable & _
          & Hrenders & _ & Hsql).
    cbn zeta in Hsql.
    destruct Hsql as [(-> & -> & ->)|(logic & connection & sql' & -> & _ & Hconnection
                                        & Hlogic & ->)].
    + split; [|done]. intros Hnull.
      exists query, table, texts. split_and!; try done; [|by left].
      eapply renders_all_whitelisted; eauto.
    + split; [|intros; by eapply logic_parse_binds]. intros Hnull.
      exists query, table, texts. split_and!; try done.
      { eapply renders_all_whitelisted; eauto. }
      right. exists connection, sql'. split_and!; try done.
      by eapply logic_parse_whitelisted.
Qed.

Lemma compiled_text_is_whitelisted_witness :
  (whitelisted_logic scenario_policy "(creature = ? AND (userID = ? OR userID = ?))"
   ∧ [PStr "owlbear"; PInt 555; PInt 111] = literal_operands scenario_policy scenario_logic)
  ∧ (whitelisted_query scenario_policy
       "SELECT * FROM images WHERE (creature = ? AND (userID = ? OR userID = ?))"
     ∧ [PStr "owlbear"; PInt 555; PInt 111]
       = literal_operands scenario_policy scenario_logic).
Proof.
  destruct (compiled_text_is_whitelisted scenario_policy) as [Hlogic Hquery]. split.
  - destruct (Hlogic scenario_logic "(creature = ? AND (userID = ? OR userID = ?))"
                [PStr "owlbear"; PInt 555; PInt 111]) as [Htext Hparams].
    { vm_compute. reflexivity. }
    split; [exact Htext|]. apply Hparams. vm_compute. reflexivity.
  - destruct (Hquery scenario_request
                "SELECT * FROM images WHERE (creature = ? AND (userID = ? OR userID = ?))"
                [PStr "owlbear"; PInt 555; PInt 111]) as [Htext Hparams].
    { vm_compute. reflexivity. }
    split.
    + apply Htext. intros items [= <-]. by repeat constructor.
    + apply Hparams. vm_compute. reflexivity.
Defined.

(** C4 as stated fails: a literal operand can occur as a substring of the
    text it is kept out of.  The operand ["e"] is bound as a parameter and
    the text [creature = ?] contains an [e]. *)
Lemma literal_operand_occurs_in_text :
  logic_parse scenario_policy (comparison_node "creature" "=" (PStr "e"))
  = Return (RTrue "creature = ?" [PStr "e"])
  ∧ substring_of (py_str (PStr "e")) "creature = ?".
Proof.
  split; [vm_compute; reflexivity|]. by exists "cr", "ature = ?".
Qed.


Section Query_balance.
Variables (q i : list string) (t : list table_entry) (cn : list string).
Variable cols : gmap string pytype.
Local Abbreviation self := (__init__ q i t cn cols).

Lemma permitted_plain table x :
  plain_policy self → permitted self table x → plain_text (py_str x).
Proof.
  intros (_ & Hitems & _ & _ & Htables) [Hin|(columns & Hcolumns & Hin)].
  - destruct x; try done. apply bool_decide_eq_true in Hin.
    rewrite Forall_forall in Hitems. by apply Hitems.
  - destruct x; try done.
    apply bool_decide_eq_true in Hin. by eapply Htables.
Qed.

Lemma accepted_plain table item text :
  plain_policy self → accepted self table item (PStr text) → plain_text text.
Proof.
  intros Hplain [[Hitem <-]|(_ & f & argument & Hf & Hargument & [= ->])].
  - by apply (permitted_plain table (PStr text)).
  - unfold plain_text. rewrite !count_placeholders_app.
    apply (permitted_plain _ _ Hplain) in Hargument.
    unfold plain_text in Hargument. rewrite Hargument.
    assert (Hplain_f : count_placeholders f = 0).
    { cbn in Hf. repeat (apply elem_of_cons in Hf as [->|Hf]; [done|]).
      by apply elem_of_nil in Hf. }
    by rewrite Hplain_f.
Qed.

(** X19: under a policy none of whose identifiers holds a [?], a success
    of [sql_parse] on a request whose logic has no [BETWEEN] with a [str]
    operand returns a text with exactly as many [?] as there are
    parameters. *)
Theorem query_placeholders_match_parameters json_input sql params st' :
  plain_policy self →
  (∀ logic, dict_get json_input "logic" = Some logic → no_between_str logic = true) →
  sql_parse (Store self json_input) = (Return (RTrue sql params), st') →
  count_placeholders sql = length params.
Proof.
  intros Hplain Hfree Hrun. apply sql_parse_outcome in Hrun
    as (query & table & items & texts & _ & _ & _ & Hq & [columns Ht]
        & Haccepted & _ & _ & Hsql).
  assert (Hstring :
    count_placeholders (query +:+ " " +:+ String.concat "," texts +:+ " FROM " +:+ table)
    = 0).
  { assert (Htexts : sum_list (count_placeholders <$> texts) = 0).
    { clear -Haccepted Hplain. revert items Haccepted.
      induction texts as [|text texts IH]; intros items Haccepted; [done|].
      apply Forall2_cons_inv_r in Haccepted as (item & items' & Hitem & Hrest & ->).
      change (sum_list (count_placeholders <$> (text :: texts)))
        with (count_placeholders text + sum_list (count_placeholders <$> texts)).
      rewrite (IH _ Hrest). by rewrite (accepted_plain _ _ _ Hplain Hitem). }
    pose proof Hplain as (Hqueries & _ & _ & _ & Htables).
    rewrite !count_placeholders_app, count_placeholders_concat, Htexts by done.
    rewrite Forall_forall in Hqueries. rewrite (Hqueries _ Hq).
    by destruct (Htables _ _ Ht) as [-> _]. }
  cbn zeta in Hsql.
  destruct Hsql as [(_ & -> & ->)|(logic & connection & sql' & Hlogic & _ & Hin
                                     & Hparse & ->)]; [done|].
  rewrite count_placeholders_app, Hstring, !count_placeholders_app.
  destruct Hplain as (_ & _ & Hconnections & Hcolumns & _).
  rewrite Forall_forall in Hconnections. rewrite (Hconnections _ Hin).
  change (count_placeholders " ") with 0. rewrite !Nat.add_0_l.
  apply (logic_parse_balanced q i t cn cols Hcolumns logic); [by apply Hfree|done].
Qed.
End Query_balance.

Lemma scenario_policy_plain : plain_policy scenario_policy.
Proof.
  unfold plain_policy. split_and!.
  - by repeat constructor.
  - by repeat constructor.
  - by repeat constructor.
  - intros column [valuetype Hcolumn]. cbn in Hcolumn. unfold scenario_columns in Hcolumn.
    apply lookup_insert_Some in Hcolumn as [[<- _]|[_ Hcolumn]]; [done|].
    apply lookup_insert_Some in Hcolumn as [[<- _]|[_ Hcolumn]]; [done|].
    by rewrite lookup_empty in Hcolumn.
  - intros table columns Htable. cbn in Htable.
    apply lookup_insert_Some in Htable as [[<- <-]|[_ Htable]];
      [|by rewrite lookup_empty in Htable].
    split; [done|]. by intros column ?%elem_of_nil.
Qed.

Lemma query_placeholders_match_parameters_witness :
  count_placeholders
    "SELECT * FROM images WHERE (creature = ? AND (userID = ? OR userID = ?))"
  = length [PStr "owlbear"; PInt 555; PInt 111].
Proof.
  apply (query_placeholders_match_parameters ["SELECT"] ["*"] [TableColumns "images" []]
           ["WHERE"] scenario_columns scenario_request _ _
           (sql_parse (Store scenario_policy scenario_request)).2).
  - apply scenario_policy_plain.
  - by intros logic [= <-].
  - by vm_compute.
Defined.

(** ** Entries that are not read *)

Lemma is_valid_comparison_head self value comparator operand more :
  is_valid_comparison self value (PDict ((comparator, operand) :: more))
  = is_valid_comparison self value (PDict [(comparator, operand)]).
Proof.
  unfold is_valid_comparison.
  cbn [py_first py_list fmap list_fmap fst mbind py_result_bind].
  unfold py_getitem. by rewrite !dict_get_head.
Qed.

Lemma parse_node_head self parse value comparator operand more :
  parse_node self parse value (PDict ((comparator, operand) :: more))
  = parse_node self parse value (PDict [(comparator, operand)]).
Proof.
  unfold parse_node.
  by rewrite (is_valid_comparison_head _ _ _ _ more),
    (compile_comparison_head _ _ _ _ more).
Qed.

(** X20: [logic_parse] reads the first entry of a node and the first entry
    of a comparison, and nothing else: what follows them is dropped without
    a word, whatever it is. *)
Theorem only_first_entries_are_read self value body rest comparator operand more :
  logic_parse self (PDict ((value, body) :: rest))
  = logic_parse self (PDict [(value, body)])
  ∧ logic_parse self (PDict ((value, PDict ((comparator, operand) :: more)) :: rest))
    = logic_parse self (comparison_node value comparator operand).
Proof.
  unfold comparison_node. rewrite !logic_parse_node. split; [done|].
  apply parse_node_head.
Qed.

(** ** The two spellings of inequality *)

Section Inequality.
Variables (q i : list string) (t : list table_entry) (cn : list string).
Variable cols : gmap string pytype.
Local Abbreviation self := (__init__ q i t cn cols).

Lemma special_comparison_simple (comparator : string) operand valuetype :
  comparator ∈ COMPARISON self →
  is_special_comparison self (PStr comparator) operand valuetype
  = match operand with
    | PList l => ok ← all_values_allowed self l valuetype; Return false
    | _ => Return false
    end.
Proof.
  intros Hcomparator. destruct operand as [| | | | |l| |]; try done.
  cbn [is_special_comparison].
  destruct (all_values_allowed self l valuetype) as [[]|];
    cbn [mbind py_result_bind negb]; [|done|done].
  assert (Hb : py_eq_str (PStr comparator) "BETWEEN" = false).
  { cbn in Hcomparator. cbn [py_eq_str]. apply bool_decide_eq_false. intros ->.
    repeat (apply elem_of_cons in Hcomparator as [?|Hcomparator]; [done|]).
    by apply elem_of_nil in Hcomparator. }
  assert (Hi : py_eq_str (PStr comparator) "IN" = false).
  { cbn in Hcomparator. cbn [py_eq_str]. apply bool_decide_eq_false. intros ->.
    repeat (apply elem_of_cons in Hcomparator as [?|Hcomparator]; [done|]).
    by apply elem_of_nil in Hcomparator. }
  by rewrite Hb, Hi.
Qed.

Lemma simple_comparison_valid (comparator : string) column operand :
  comparator ∈ COMPARISON self →
  is_valid_comparison self column (PDict [(comparator, operand)])
  = (valuetype ← column_type self column;
     ok ← is_valid_value self operand valuetype;
     if (ok : bool) then Return true
     else match operand with
          | PList l => ok ← all_values_allowed self l valuetype; Return false
          | _ => Return false
          end).
Proof.
  intros Hcomparator. unfold is_valid_comparison.
  cbn [py_first py_list fmap list_fmap fst mbind py_result_bind].
  rewrite py_in_str, (bool_decide_eq_true_2 _ Hcomparator). cbn [negb andb].
  rewrite py_getitem_head. cbn [mbind py_result_bind].
  destruct (column_type self column) as [valuetype|]; cbn [mbind py_result_bind]; [|done].
  destruct (is_valid_value self operand valuetype) as [[]|];
    cbn [mbind py_result_bind]; [done| |done].
  rewrite special_comparison_simple by done.
  destruct operand as [| | | | |l| |]; try done.
  by destruct (all_values_allowed self l valuetype).
Qed.

(** A valid comparison with a simple comparator over an object operand has
    an aggregate function as the operand's first key. *)
Lemma valid_object_operand (comparator : string) column d :
  comparator ∈ COMPARISON self →
  is_valid_comparison self column (PDict [(comparator, PDict d)]) = Return true →
  ∃ f argument more, d = (f, argument) :: more ∧ f ∈ AGGREGATES self.
Proof.
  intros Hcomparator. rewrite simple_comparison_valid by done.
  destruct (column_type self column) as [valuetype|]; cbn [mbind py_result_bind]; [|done].
  unfold is_valid_value, is_valid_aggregate. cbn [is_dict negb].
  destruct d as [|[f argument] more]; [done|].
  cbn [py_first py_list fmap list_fmap fst mbind py_result_bind].
  rewrite py_getitem_head. cbn [mbind py_result_bind]. rewrite py_in_str.
  case_bool_decide as Hf; cbn [negb]; [|done]. eauto.
Qed.

(** X21: [!=] and [<>] are one comparator.  On every column, operand and
    policy, [logic_parse] gives the same outcome for the two spellings: the
    same text, reason or exception. *)
Theorem inequality_spellings_agree column operand :
  logic_parse self (comparison_node column "!=" operand)
  = logic_parse self (comparison_node column "<>" operand).
Proof.
  assert (Hne : "!=" ∈ COMPARISON self) by (apply list_elem_of_In; cbn; tauto).
  assert (Hlg : "<>" ∈ COMPARISON self) by (apply list_elem_of_In; cbn; tauto).
  assert (Heq : is_valid_comparison self column (PDict [("!=", operand)])
                = is_valid_comparison self column (PDict [("<>", operand)]))
    by (by rewrite !simple_comparison_valid).
  unfold comparison_node. rewrite !logic_parse_node. unfold parse_node.
  rewrite Heq.
  change (bad_comparison self column (PDict [("!=", operand)]))
    with (bad_comparison self column (PDict [("<>", operand)])).
  destruct (negb (is_value_in_allowed_categories self column)); [done|].
  destruct (bool_decide (column ∈ LOGICAL self) && negb _); [done|].
  enough (Hcompile :
            is_valid_comparison self column (PDict [("<>", operand)]) = Return true →
            compile_comparison self column (PDict [("!=", operand)])
            = compile_comparison self column (PDict [("<>", operand)])).
  { destruct (bool_decide (is_Some (ALLOWED_COLUMNS self !! column)));
      destruct (is_valid_comparison self column (PDict [("<>", operand)])) as [[]|];
      cbn [mbind py_result_bind negb]; try done; by apply Hcompile. }
  intros Hvalid. unfold compile_comparison.
  cbn [py_first py_list fmap list_fmap fst mbind py_result_bind].
  rewrite !py_getitem_head. cbn [mbind py_result_bind].
  rewrite !py_in_str, (bool_decide_eq_true_2 _ Hne), (bool_decide_eq_true_2 _ Hlg).
  cbn [andb]. change (get_sql_comparator (PStr "!=")) with (PStr "<>").
  change (get_sql_comparator (PStr "<>")) with (PStr "<>").
  destruct (negb (is_another_column self operand) && negb (is_dict operand)) eqn:Hfirst;
    [done|].
  destruct (is_another_column self operand) eqn:Hcolumn; [done|].
  destruct operand as [| | | | | | |d]; try done.
  destruct (valid_object_operand "<>" column d) as (f & argument & more & -> & Hf);
    [done|done|].
  cbn [py_first py_list fmap list_fmap fst mbind py_result_bind].
  by rewrite py_in_str, (bool_decide_eq_true_2 _ Hf).
Qed.

End Inequality.

(** ** Connectors over a single child *)

Section Single_child.
Variables (q i : list string) (t : list table_entry) (cn : list string).
Variable cols : gmap string pytype.
Local Abbreviation self := (__init__ q i t cn cols).

(** X22: a connector over a single child is refused for its length,
    whatever the child is; the child is not compiled.  [value] is ["AND"]
    or ["OR"], not declared as a column, and the child is not the name of a
    comparator. *)
Theorem single_child_is_refused (value : string) child :
  value ∈ LOGICAL self → cols !! value = None →
  py_in child (COMPARISON self) = false →
  py_in child (SPECIAL_COMPARISON self) = false →
  logic_parse self (logical_node value [child])
  = Return (RFalse "Invalid boolean length, must be >= 2").
Proof.
  intros Hvalue Hcolumn Hsimple Hspecial.
  unfold logical_node. rewrite logic_parse_node.
  unfold parse_node, is_value_in_allowed_categories.
  rewrite (bool_decide_eq_true_2 _ Hvalue). cbn [ALLOWED_COLUMNS __init__].
  rewrite Hcolumn.
  rewrite (bool_decide_eq_false_2 (is_Some None)) by (by intros [? [=]]).
  cbn [orb negb andb is_list mbind py_result_bind].
  unfold is_valid_comparison. cbn [py_first py_list mbind py_result_bind].
  rewrite Hsimple, Hspecial. cbn [negb andb mbind py_result_bind].
  by rewrite decide_True by (cbn; lia).
Qed.
End Single_child.

Lemma single_child_is_refused_witness :
  logic_parse scenario_policy
    (logical_node "AND" [comparison_node "creature" "=" (PStr "owlbear")])
  = Return (RFalse "Invalid boolean length, must be >= 2").
Proof.
  apply (single_child_is_refused ["SELECT"] ["*"] [TableColumns "images" []] ["WHERE"]
           scenario_columns "AND" (comparison_node "creature" "=" (PStr "owlbear")));
    [apply list_elem_of_here|done|done|done].
Defined.

(** ** The table policy built by [__init__] *)

Lemma normalize_tables_app table_dict tables1 tables2 :
  normalize_tables table_dict (tables1 ++ tables2)
  = (table_dict' ← normalize_tables table_dict tables1;
     normalize_tables table_dict' tables2).
Proof.
  revert table_dict. induction tables1 as [|table tables1 IH]; intros table_dict; [done|].
  cbn [app normalize_tables].
  destruct (normalize_table table_dict table); cbn [mbind py_result_bind]; [|done].
  apply IH.
Qed.

Lemma normalize_table_ok table_dict table :
  table_entry_ok table = true →
  ∃ table_dict', normalize_table table_dict table = Return table_dict'.
Proof.
  destruct table as [| | | |name| | |[|[name []] ?]]; try done; intros _; cbn;
    rewrite ?decide_True by done; eauto.
Qed.

Lemma normalize_table_bad table_dict table :
  table_entry_ok table = false →
  normalize_table table_dict table
  = Raise (if table is PDict [] then IndexError else TypeError).
Proof.
  destruct table as [| | | |name| | |[|[name []] ?]]; try done; intros _; cbn;
    by rewrite ?decide_True by done.
Qed.

Section Tables.
Variables (q i : list string) (cn : list string).
Variable cols : gmap string pytype.

(** X23: on a list of table names and of objects from a name to a list of
    column names, the loop of [__init__] raises nothing and builds the
    table policy of the constructor: under each name the columns of the
    object, or [[None]] for a bare name. *)
Theorem constructor_loop_builds_the_tables (allowed_tables : list table_entry) :
  normalize_tables ∅ (table_entry_value <$> allowed_tables)
  = Return (fmap (M := list) column_value
              <$> ALLOWED_TABLES (__init__ q i allowed_tables cn cols)).
Proof.
  cbn [ALLOWED_TABLES __init__].
  rewrite <- (fmap_empty (fmap (M := list) column_value)) at 1.
  generalize (∅ : gmap string (list (option string))).
  induction allowed_tables as [|table tables IH]; intros table_dict; [done|].
  cbn [fmap list_fmap normalize_tables foldl].
  destruct table as [name|name columns]; cbn [table_entry_value normalize_table].
  - cbn [mbind py_result_bind]. rewrite <- IH. by rewrite fmap_insert.
  - cbn [py_first py_list fmap list_fmap fst mbind py_result_bind].
    rewrite py_getitem_head. cbn [mbind py_result_bind].
    rewrite <- IH, fmap_insert. by rewrite <- list_fmap_compose.
Qed.

(** X24: the loop stops at the first entry that is neither a [str] nor an
    object whose first value is a list.  It raises [IndexError] on the
    empty object and [TypeError] on anything else; for an object whose
    first value is not a list the [TypeError] comes from indexing the list
    [allowed_tables] with the object. *)
Theorem constructor_loop_raises table_dict before table after :
  Forall (λ entry, table_entry_ok entry = true) before →
  table_entry_ok table = false →
  normalize_tables table_dict (before ++ table :: after)
  = Raise (if table is PDict [] then IndexError else TypeError).
Proof.
  intros Hbefore Hbad. revert table_dict.
  induction Hbefore as [|entry before Hentry _ IH]; intros table_dict.
  - cbn [app normalize_tables]. by rewrite normalize_table_bad.
  - cbn [app normalize_tables].
    destruct (normalize_table_ok table_dict entry Hentry) as [table_dict' ->].
    apply IH.
Qed.

Lemma tables_foldl_skip name (tables : list table_entry)
    (table_dict : gmap string (list (option string))) :
  name ∉ table_entry_name <$> tables →
  foldl (λ table_dict table,
           match table with
           | TableColumns name columns => <[name := Some <$> columns]> table_dict
           | TableName name => <[name := [None]]> table_dict
           end) table_dict tables !! name
  = table_dict !! name.
Proof.
  revert table_dict. induction tables as [|table tables IH]; intros table_dict; [done|].
  cbn [fmap list_fmap foldl]. intros [Hne Hrest]%not_elem_of_cons.
  rewrite IH by done. destruct table; cbn in Hne; by rewrite lookup_insert_ne.
Qed.

(** X25: a table is registered exactly when [allowed_tables] lists it, and
    when it is listed more than once the last entry decides its columns:
    a later entry replaces an earlier one, it does not add to it. *)
Theorem last_table_entry_wins (before after : list table_entry) table name :
  (is_Some (ALLOWED_TABLES (__init__ q i before cn cols) !! name)
   ↔ name ∈ table_entry_name <$> before)
  ∧ (table_entry_name table ∉ table_entry_name <$> after →
     ALLOWED_TABLES (__init__ q i (before ++ table :: after) cn cols)
       !! table_entry_name table
     = Some (table_entry_columns table)).
Proof.
  cbn [ALLOWED_TABLES __init__]. split.
  - induction before as [|entry before IH] using rev_ind.
    + cbn. rewrite lookup_empty. split; [by intros [? [=]]|by intros ?%elem_of_nil].
    + rewrite foldl_app, fmap_app, elem_of_app. cbn [foldl fmap list_fmap].
      rewrite <- IH, list_elem_of_singleton.
      destruct entry as [name'|name' columns]; cbn [table_entry_name];
        (destruct (decide (name' = name)) as [->|Hne];
         [rewrite lookup_insert_eq; split; [by right|by eexists]
         |rewrite lookup_insert_ne by done; split; [by left|by intros [?|?]]]).
  - intros Hafter. rewrite foldl_app. cbn [foldl].
    rewrite tables_foldl_skip by done.
    destruct table; cbn [table_entry_name table_entry_columns];
      by rewrite lookup_insert_eq.
Qed.
End Tables.

Lemma constructor_loop_raises_witness :
  normalize_tables ∅ ([PStr "images"; PDict [("users", PList [PStr "id"])]]
                        ++ PDict [("roles", PStr "id")] :: [PStr "tags"])
  = Raise TypeError.
Proof.
  apply (constructor_loop_raises ∅ [PStr "images"; PDict [("users", PList [PStr "id"])]]
           (PDict [("roles", PStr "id")]) [PStr "tags"]); [|done].
  by repeat constructor.
Defined.

(** ** [make_aggregate] and the items loop *)

(** X26: the text the items loop of [sql_parse] writes over an object it
    accepts is the one [make_aggregate] gives for that object, and its
    argument is a permitted item. *)
Theorem accepted_object_is_rewritten self j table l index item st' :
  dict_get j "table" = Some (PStr table) →
  is_Some (ALLOWED_TABLES self !! table) →
  dict_get j "items" = Some (PList l) →
  l !! index = Some item →
  is_dict item = true →
  check_item index item (Store self j) = (Next (), st') →
  ∃ text aggregate_argument,
    make_aggregate item false = Return (text, aggregate_argument)
    ∧ permitted self table aggregate_argument
    ∧ st' = Store self (dict_set j "items" (PList (<[index := PStr text]> l))).
Proof.
  intros Htable Ht Hitems Hidx Hdict.
  destruct item as [| | | | | | |d]; try done.
  unfold check_item. rewrite bind_get_self. cbn [st_self].
  rewrite (bind_Next _ _ _ _ _
    (item_allowed_not_permitted _ _ _ _ Htable Ht (object_not_permitted _ _ _))).
  rewrite bind_eval. destruct d as [|[f argument] more]; [done|].
  cbn [is_aggregate_item is_dict py_first py_list mbind py_result_bind fmap list_fmap
    fst py_in].
  case_bool_decide as Hf; [|done].
  rewrite bind_eval, bind_eval, py_getitem_head.
  destruct Ht as [columns Hcolumns].
  rewrite (bind_Next _ _ _ _ _ (item_allowed_eval _ _ _ _ argument Htable Hcolumns)).
  destruct (py_in argument (ALLOWED_ITEMS self) || py_in_columns argument columns)
    eqn:Hargument; [|done].
  unfold setitem_items. cbn [st_json_input st_self py_str]. rewrite Hitems.
  rewrite decide_True by (by eapply lookup_lt_Some).
  intros [= <-]. exists (f +:+ "(" +:+ py_str argument +:+ ")"), argument.
  split_and!; [|by apply (permitted_eval _ _ columns)|done].
  unfold make_aggregate.
  cbn [py_first py_list fmap list_fmap fst mbind py_result_bind].
  by rewrite py_getitem_head.
Qed.

Lemma accepted_object_is_rewritten_witness :
  ∃ text aggregate_argument,
    make_aggregate (PDict [("MAX", PStr "userID")]) false
    = Return (text, aggregate_argument)
    ∧ permitted aggregate_policy "images" aggregate_argument
    ∧ Store aggregate_policy (select_request "SELECT" [PStr "MAX(userID)"] "images")
      = Store aggregate_policy
          (dict_set aggregate_request "items"
             (PList (<[0 := PStr text]> [PDict [("MAX", PStr "userID")]]))).
Proof.
  apply (accepted_object_is_rewritten aggregate_policy aggregate_request "images"
           [PDict [("MAX", PStr "userID")]] 0 (PDict [("MAX", PStr "userID")]));
    try done.
Defined.
